(** * Governance hooks of Roo-Code: gate, scope matcher, content hash, ledger

    A shallow embedding of the governance layer of the repository
    (the gatekeeper module with [executePreHook], the [PreHook] class and
    [SelectActiveIntentTool]) and the properties stated about it.

    Conventions.
    - A JavaScript string is a Rocq [string]; a character stands for one
      UTF-16 code unit below 256.
    - A thrown [Error] is a value of [JsError]; a function that may throw
      returns a [Result].
    - Code that reads or writes the module variable [activeIntentId], the
      workspace files or the trace file runs in the monad [M] over [World]. *)

From Stdlib Require Import ZArith Ascii String List Bool Lia DecimalString.
From stdpp Require Import base option strings list gmap.

Open Scope string_scope.

(** ** JavaScript strings *)

Module Js.

Definition code (c : ascii) : N := N_of_ascii c.

(** The double quote character, as a one-character string. *)
Definition dquote : string := String (ascii_of_nat 34) EmptyString.

Definition backslash : string := String (ascii_of_nat 92) EmptyString.

(** The line feed character, as a character and as a one-character string. *)
Definition lfChar : ascii := ascii_of_nat 10.
Definition lf : string := String lfChar EmptyString.

Definition dquoteChar : ascii := ascii_of_nat 34.

(** White space and line terminators of ECMAScript among the code units
    below 256: TAB, LF, VT, FF, CR, SP and NBSP. This is what [\s] matches
    and what [String.prototype.trim] strips. *)
Definition isWhiteSpace (c : ascii) : bool :=
  let n := code c in
  ((9 <=? n) && (n <=? 13) || (n =? 32) || (n =? 160))%N.

(** Line terminators below 256: LF and CR (the dot of a regular expression
    does not match them). *)
Definition isLineTerminator (c : ascii) : bool :=
  let n := code c in ((n =? 10) || (n =? 13))%N.

Fixpoint trimStart (s : string) : string :=
  match s with
  | String c s' => if isWhiteSpace c then trimStart s' else s
  | EmptyString => EmptyString
  end.

(** [trimEnd] drops the white space that is followed by white space only. *)
Fixpoint trimEnd (s : string) : string :=
  match s with
  | String c s' =>
      match trimEnd s' with
      | EmptyString => if isWhiteSpace c then EmptyString else String c EmptyString
      | t => String c t
      end
  | EmptyString => EmptyString
  end.

Definition trim (s : string) : string := trimEnd (trimStart s).

(** Truthiness of a value of type [string | null]: [null] and the empty
    string are falsy. *)
Definition truthy (v : option string) : bool :=
  match v with
  | Some (String _ _) => true
  | _ => false
  end.

(** Every character of the string satisfies the test. *)
Fixpoint allChars (p : ascii -> bool) (s : string) : bool :=
  match s with
  | EmptyString => true
  | String c s' => p c && allChars p s'
  end.

(** [Array.prototype.includes] on an array of strings. *)
Definition includes (l : list string) (x : string) : bool :=
  existsb (String.eqb x) l.

(** [String.prototype.split] with a one-character separator; [piece]
    holds, reversed, the characters since the last separator. *)
Fixpoint splitCharGo (sep : ascii) (s piece : string) : list string :=
  match s with
  | EmptyString => [String.rev piece]
  | String c s' =>
      if Ascii.eqb c sep then String.rev piece :: splitCharGo sep s' EmptyString
      else splitCharGo sep s' (String c piece)
  end.

Definition splitChar (sep : ascii) (s : string) : list string :=
  splitCharGo sep s EmptyString.

(** [Array.prototype.join]. *)
Fixpoint join (sep : string) (l : list string) : string :=
  match l with
  | [] => EmptyString
  | [x] => x
  | x :: r => x ++ sep ++ join sep r
  end.

End Js.

(** ** Errors and results *)

(** The errors the governance code throws, by the message they carry. *)
Inductive JsError : Type :=
| GovernanceViolation            (* executePreHook: no active intent, [isGovernanceViolation = true] *)
| MissingIntent                  (* validate: "You must cite a valid active Intent ID" *)
| UndefinedScope (intent : string)          (* "Intent ... does not have a defined scope." *)
| ScopeViolation (intent path : string)     (* "Scope Violation: Intent ... " *)
| UnknownCommand (command : string)         (* "Unknown command: ..." *)
| StaleFile (path : string)                 (* "Stale File Error: ..." *)
| NoSuchFile (path : string)                (* ENOENT raised by readFileSync, appendFileSync *)
| InvalidRegExp (source : string)           (* SyntaxError raised by new RegExp *)
| ActionError (message : string).           (* whatever a wrapped action throws *)

Inductive Result (A : Type) : Type :=
| Ok (a : A)
| Throw (e : JsError).
Arguments Ok {A} a.
Arguments Throw {A} e.

(** ** The host

    What the runtime supplies and the code does not determine: the random
    identifier and the clock read by the post-hook (as functions of the
    number of earlier reads), and the regular-expression engine for the
    sources that lie outside the fragment modelled in [RegExp] (it either
    throws a [SyntaxError] or answers the test). *)
Record Host : Type := mkHost {
  randomUUID : nat -> string;
  toISOString : nat -> string;
  regExpTest : string -> string -> Result bool
}.

(** ** The world the hooks run in *)

(** [activeIntentId] is the module-level variable of the gatekeeper
    ([let activeIntentId: string | null = null]). [workspace] maps a path,
    taken relative to the working directory, to the content of the file
    stored there: every file, the intent registry and the trace file
    [.orchestration/agent_trace.jsonl] included. [directories] holds the
    directories that exist without holding a file; a directory that holds a
    file exists in any case. [tick] counts the calls made to the host's
    clock and random source. *)
Record World : Type := mkWorld {
  activeIntentId : option string;
  workspace : gmap string string;
  directories : gset string;
  tick : nat
}.

(** The trace file, and what it holds: nothing when there is no such file. *)
Definition orchestrationDir : string := ".orchestration".
Definition traceFilePath : string := ".orchestration/agent_trace.jsonl".

Definition traceFile (w : World) : string :=
  default EmptyString (workspace w !! traceFilePath).

(** The state of a freshly loaded process: no intent selected, and the
    given files on the disk. *)
Definition initialWorld (files : gmap string string) : World :=
  {| activeIntentId := None; workspace := files; directories := ∅; tick := 0 |}.

(** *** Files and directories

    [path.dirname]: the path without its last component; the empty text
    stands for the working directory. *)
Definition dirname (path : string) : string :=
  Js.join "/" (removelast (Js.splitChar "/" path)).

Definition inDirectory (dir path : string) : bool := String.prefix (dir ++ "/") path.

Definition directoryExistsIn (files : gmap string string) (dirs : gset string)
    (dir : string) : bool :=
  match dir with
  | EmptyString => true
  | _ => bool_decide (dir ∈ dirs)
         || existsb (inDirectory dir) (map fst (map_to_list files))
  end.

Definition directoryExists (w : World) (dir : string) : bool :=
  directoryExistsIn (workspace w) (directories w) dir.

(** State and exception monad. A throw keeps the world as it was when the
    error was raised and skips everything sequenced after it. *)
Definition M (A : Type) : Type := World -> Result A * World.

Definition ret {A} (a : A) : M A := fun w => (Ok a, w).
Definition throw {A} (e : JsError) : M A := fun w => (Throw e, w).
Definition bind {A B} (m : M A) (k : A -> M B) : M B :=
  fun w => match m w with
           | (Ok a, w') => k a w'
           | (Throw e, w') => (Throw e, w')
           end.

Declare Scope hook_scope.
Delimit Scope hook_scope with hook.
Notation "'let!' x ':=' m 'in' k" := (bind m (fun x => k))
  (at level 10, x name, m at level 100, k at level 200) : hook_scope.
Notation "m ;; k" := (bind m (fun _ => k))
  (at level 100, k at level 200, right associativity) : hook_scope.
Open Scope hook_scope.

(** [fs.appendFileSync(path, data)]: the data is added at the end of the
    file, which is created when there is none; the call throws the error of
    a missing file or directory (ENOENT) when the directory of the path does
    not exist. This is the one failure modelled; a path that names a
    directory and a full or read-only disk are not. *)
Definition appendFileSync (path data : string) : M unit :=
  fun w =>
    if directoryExists w (dirname path) then
      (Ok tt,
       {| activeIntentId := activeIntentId w;
          workspace := <[path := default EmptyString (workspace w !! path) ++ data]>
                         (workspace w);
          directories := directories w; tick := tick w |})
    else (Throw (NoSuchFile path), w).

(** ** The gatekeeper module *)

Definition getActiveIntentId : M (option string) :=
  fun w => (Ok (activeIntentId w), w).

(** [executePreHook(toolName, params)]: the parameters are not inspected. *)
Definition executePreHook {P : Type} (toolName : string) (params : P) : M unit :=
  fun w =>
    if String.eqb toolName "write_to_file" || String.eqb toolName "execute_command" then
      if negb (Js.truthy (activeIntentId w)) then (Throw GovernanceViolation, w)
      else (Ok tt, w)
    else (Ok tt, w).

(** [select_active_intent(intent_id)] stores the id and returns the context tag. *)
Definition select_active_intent (intent_id : string) : M string :=
  fun w =>
    (Ok ("<intent_context id=" ++ Js.dquote ++ intent_id ++ Js.dquote ++ " />"),
     {| activeIntentId := Some intent_id; workspace := workspace w;
        directories := directories w; tick := tick w |}).

(** ** Regular expressions of the host

    The fragment of ECMAScript regular expressions the governance code uses:
    sequences of single-character atoms with an optional quantifier, one
    capture group, and the two anchors. Matching is the backtracking search
    of the language: a greedy quantifier tries the longest repetition first,
    a lazy one the shortest. *)

Module RegExp.

Inductive CharClass : Type :=
| Chr (c : ascii)                 (* a literal character *)
| Dot                             (* [.]: anything but a line terminator *)
| Space                           (* [\s] *)
| Any                             (* [[\s\S]] *)
| NoneOf (l : list ascii)         (* [[^...]] *)
| OneOf (ranges : list (ascii * ascii)).   (* [[a-z_]]: ranges, a single [c] as [(c, c)] *)

Inductive Quant : Type :=
| One                             (* no quantifier *)
| Star                            (* [*] *)
| Plus                            (* [+] *)
| Opt                             (* [?] *)
| LazyStar.                       (* [*?] *)

Inductive Node : Type :=
| Atom (cl : CharClass) (q : Quant)
| GroupOpen                       (* [(] of capture group 1 *)
| GroupClose                      (* [)] of capture group 1 *)
| AssertStart                     (* [^] *)
| AssertEnd.                      (* [$] *)

Record t : Type := mk {
  nodes : list Node;
  ignoreCase : bool               (* the [i] flag *)
}.

Definition inRange (lo hi c : ascii) : bool :=
  ((Js.code lo <=? Js.code c) && (Js.code c <=? Js.code hi))%N.

Definition toUpper (c : ascii) : ascii :=
  if inRange "a" "z" c then ascii_of_N (Js.code c - 32) else c.

(** Equality of characters, after canonicalisation under the [i] flag. *)
Definition sameChar (ic : bool) (a b : ascii) : bool :=
  if ic then Ascii.eqb (toUpper a) (toUpper b) else Ascii.eqb a b.

Definition classMatches (ic : bool) (cl : CharClass) (c : ascii) : bool :=
  match cl with
  | Chr a => sameChar ic a c
  | Dot => negb (Js.isLineTerminator c)
  | Space => Js.isWhiteSpace c
  | Any => true
  | NoneOf l => negb (existsb (fun a => sameChar ic a c) l)
  | OneOf ranges =>
      existsb (fun r => inRange (fst r) (snd r) c
                        || (ic && (inRange (toUpper (fst r)) (toUpper (snd r)) (toUpper c))))
              ranges
  end.

(** The state of a match: the index reached and the bounds of group 1. *)
Record MatchState : Type := mkState {
  endIndex : nat;
  groupStart : option nat;
  groupEnd : option nat
}.

Definition Cont : Type := string -> nat -> option nat -> option nat -> option MatchState.

(** Greedy repetition of one class: consume while possible, give back on failure. *)
Fixpoint greedyLoop (ic : bool) (cl : CharClass) (k : Cont)
    (s : string) (pos : nat) (gs ge : option nat) : option MatchState :=
  match s with
  | String c s' =>
      if classMatches ic cl c then
        match greedyLoop ic cl k s' (S pos) gs ge with
        | Some m => Some m
        | None => k s pos gs ge
        end
      else k s pos gs ge
  | EmptyString => k s pos gs ge
  end.

(** Lazy repetition: try the rest first, consume one more on failure. *)
Fixpoint lazyLoop (ic : bool) (cl : CharClass) (k : Cont)
    (s : string) (pos : nat) (gs ge : option nat) : option MatchState :=
  match k s pos gs ge with
  | Some m => Some m
  | None =>
      match s with
      | String c s' =>
          if classMatches ic cl c then lazyLoop ic cl k s' (S pos) gs ge else None
      | EmptyString => None
      end
  end.

(** Match the nodes against [s], the suffix of the input that starts at
    index [pos]. *)
Fixpoint matchFrom (ic : bool) (r : list Node)
    (s : string) (pos : nat) (gs ge : option nat) : option MatchState :=
  match r with
  | [] => Some {| endIndex := pos; groupStart := gs; groupEnd := ge |}
  | AssertStart :: r' => if Nat.eqb pos 0 then matchFrom ic r' s pos gs ge else None
  | AssertEnd :: r' =>
      match s with
      | EmptyString => matchFrom ic r' s pos gs ge
      | String _ _ => None
      end
  | GroupOpen :: r' => matchFrom ic r' s pos (Some pos) ge
  | GroupClose :: r' => matchFrom ic r' s pos gs (Some pos)
  | Atom cl q :: r' =>
      let k := matchFrom ic r' in
      match q with
      | One =>
          match s with
          | String c s' => if classMatches ic cl c then k s' (S pos) gs ge else None
          | EmptyString => None
          end
      | Opt =>
          match s with
          | String c s' =>
              if classMatches ic cl c then
                match k s' (S pos) gs ge with
                | Some m => Some m
                | None => k s pos gs ge
                end
              else k s pos gs ge
          | EmptyString => k s pos gs ge
          end
      | Star => greedyLoop ic cl k s pos gs ge
      | Plus =>
          match s with
          | String c s' =>
              if classMatches ic cl c then greedyLoop ic cl k s' (S pos) gs ge else None
          | EmptyString => None
          end
      | LazyStar => lazyLoop ic cl k s pos gs ge
      end
  end.

(** One attempt at index [pos] of the input. *)
Definition matchAt (re : t) (s : string) (pos : nat) : option MatchState :=
  matchFrom (ignoreCase re) (nodes re) s pos None None.

(** [RegExp.prototype.exec] without the [g] flag: the match at the least
    start index. *)
Fixpoint execFrom (re : t) (s : string) (pos : nat) : option MatchState :=
  match matchAt re s pos with
  | Some m => Some m
  | None =>
      match s with
      | String _ s' => execFrom re s' (S pos)
      | EmptyString => None
      end
  end.

Definition exec (re : t) (input : string) : option MatchState := execFrom re input 0.

(** [RegExp.prototype.test]. *)
Definition test (re : t) (input : string) : bool :=
  match exec re input with Some _ => true | None => false end.

(** [input.match(re)?.[1]]: the text of group 1 of the first match. *)
Definition group1 (re : t) (input : string) : option string :=
  match exec re input with
  | Some {| groupStart := Some a; groupEnd := Some b |} => Some (substring a (b - a) input)
  | _ => None
  end.

(** [String.prototype.split] with a regular expression without captures.
    [piece] holds, reversed, the characters since the last separator;
    [skip] counts the characters of a matched separator still to drop. *)
Fixpoint splitGo (re : t) (s : string) (pos skip : nat) (piece : string) : list string :=
  match s with
  | EmptyString => [String.rev piece]
  | String c s' =>
      match skip with
      | S n => splitGo re s' (S pos) n piece
      | O =>
          match matchAt re s pos with
          | Some m =>
              let len := endIndex m - pos in
              match len, piece with
              | O, EmptyString => splitGo re s' (S pos) 0 (String c piece)
              | O, _ => String.rev piece :: splitGo re s' (S pos) 0 (String c EmptyString)
              | S n, _ => String.rev piece :: splitGo re s' (S pos) n EmptyString
              end
          | None => splitGo re s' (S pos) 0 (String c piece)
          end
      end
  end.

Definition split (re : t) (input : string) : list string :=
  match input with
  | EmptyString =>
      match matchAt re input 0 with Some _ => [] | None => [input] end
  | _ => splitGo re input 0 0 EmptyString
  end.

(** *** Building a regular expression from its source text

    [parse] reads the source handed to [new RegExp(source)]. It covers
    literal characters, [.], the class [[^/]], the anchors and the greedy
    quantifiers; any other metacharacter puts the source outside the
    modelled fragment ([None]). *)

Definition isMeta (c : ascii) : bool :=
  existsb (Ascii.eqb c)
    ["\"; "^"; "$"; "."; "*"; "+"; "?"; "("; ")"; "["; "]"; "{"; "}"; "|"]%char.

(** A quantifier applies to the atom just read, which must not carry one
    already (a lazy or a doubled quantifier is outside the fragment). *)
Definition quantify (q : Quant) (acc : list Node) : option (list Node) :=
  match acc with
  | Atom cl One :: acc' => Some (Atom cl q :: acc')
  | _ => None
  end.

(** [acc] holds the nodes read so far, last one first. *)
Fixpoint parseGo (s : string) (acc : list Node) : option (list Node) :=
  match s with
  | EmptyString => Some (rev acc)
  | String "^" s' => parseGo s' (AssertStart :: acc)
  | String "$" s' => parseGo s' (AssertEnd :: acc)
  | String "." s' => parseGo s' (Atom Dot One :: acc)
  | String "[" (String "^" (String "/" (String "]" s'))) =>
      parseGo s' (Atom (NoneOf ["/"%char]) One :: acc)
  | String "*" s' =>
      match quantify Star acc with Some acc' => parseGo s' acc' | None => None end
  | String "+" s' =>
      match quantify Plus acc with Some acc' => parseGo s' acc' | None => None end
  | String "?" s' =>
      match quantify Opt acc with Some acc' => parseGo s' acc' | None => None end
  | String c s' =>
      if isMeta c then None else parseGo s' (Atom (Chr c) One :: acc)
  end.

(** [new RegExp(source)], no flags. *)
Definition parse (source : string) : option t :=
  option_map (fun ns => {| nodes := ns; ignoreCase := false |}) (parseGo source []).

(** Literal text as a sequence of atoms. *)
Fixpoint lit (s : string) : list Node :=
  match s with
  | String c s' => Atom (Chr c) One :: lit s'
  | EmptyString => []
  end.

End RegExp.

(** ** SHA-256 and the content hash

    [crypto.createHash("sha256").update(content).digest("hex")]: the digest
    of FIPS 180-4 over the UTF-8 bytes of the string, in lowercase
    hexadecimal. Words are 32-bit, held in [N] with the wrap-around written
    out. *)

Module Sha256.

Local Open Scope N_scope.

Definition mask32 : N := 0xffffffff.

Definition add32 (a b : N) : N := N.land (a + b) mask32.

Definition rotr (n x : N) : N :=
  N.lor (N.shiftr x n) (N.land (N.shiftl x (32 - n)) mask32).

Definition shr (n x : N) : N := N.shiftr x n.

Definition not32 (x : N) : N := N.lxor x mask32.

Definition Ch (x y z : N) : N := N.lxor (N.land x y) (N.land (not32 x) z).

Definition Maj (x y z : N) : N :=
  N.lxor (N.lxor (N.land x y) (N.land x z)) (N.land y z).

Definition bsig0 (x : N) : N := N.lxor (N.lxor (rotr 2 x) (rotr 13 x)) (rotr 22 x).
Definition bsig1 (x : N) : N := N.lxor (N.lxor (rotr 6 x) (rotr 11 x)) (rotr 25 x).
Definition ssig0 (x : N) : N := N.lxor (N.lxor (rotr 7 x) (rotr 18 x)) (shr 3 x).
Definition ssig1 (x : N) : N := N.lxor (N.lxor (rotr 17 x) (rotr 19 x)) (shr 10 x).

(** The constants of the standard are defined from the first primes: the
    first 32 bits of the fractional part of the cube root (for [K]) and of
    the square root (for [H0]) of each. [iroot e n] is the integer root of
    order [e] of [n], built bit by bit from the top. *)
Definition isPrime (n : N) : bool :=
  (1 <? n)
  && forallb (fun d => (n <? d * d) || negb (n mod d =? 0))
             (map N.of_nat (seq 2 (N.to_nat n - 2))).

Definition firstPrimes (count : nat) : list N :=
  firstn count (List.filter isPrime (map N.of_nat (seq 2 400))).

Definition iroot (e n : N) : N :=
  fold_left (fun r i => let c := N.lor r (N.shiftl 1 (N.of_nat i)) in
                        if c ^ e <=? n then c else r)
            (rev (seq 0 40)) 0.

Definition fractionBits (e p : N) : N := N.land (iroot e (N.shiftl p (32 * e))) mask32.

Definition K : list N := Eval vm_compute in map (fractionBits 3) (firstPrimes 64).

Definition H0 : list N := Eval vm_compute in map (fractionBits 2) (firstPrimes 8).

(** Padding: the bit 1, zeros up to 56 modulo 64 bytes, then the length in
    bits as a 64-bit big-endian number. *)
Definition bigEndian (width : nat) (x : N) : list N :=
  map (fun i => N.land (N.shiftr x (8 * N.of_nat i)) 0xff) (rev (seq 0 width)).

Definition pad (msg : list N) : list N :=
  let len := N.of_nat (length msg) in
  let zeros := N.to_nat ((64 - (len + 9) mod 64) mod 64) in
  msg ++ [0x80] ++ repeat 0 zeros ++ bigEndian 8 (8 * len).

(** The sixteen words of a block. *)
Fixpoint words (block : list N) : list N :=
  match block with
  | a :: b :: c :: d :: rest =>
      (N.shiftl a 24 + N.shiftl b 16 + N.shiftl c 8 + d) :: words rest
  | _ => []
  end.

(** The message schedule; [w] holds the words computed so far, the most
    recent first. *)
Fixpoint schedule (n : nat) (w : list N) : list N :=
  match n with
  | O => rev w
  | S n' =>
      let W i := nth i w 0 in
      schedule n' (add32 (add32 (ssig1 (W 1%nat)) (W 6%nat))
                         (add32 (ssig0 (W 14%nat)) (W 15%nat)) :: w)
  end.

Record Regs : Type := mkRegs { ra : N; rb : N; rc : N; rd : N; re : N; rf : N; rg : N; rh : N }.

Definition round (r : Regs) (kw : N * N) : Regs :=
  let t1 := add32 (add32 (add32 (rh r) (bsig1 (re r))) (Ch (re r) (rf r) (rg r)))
                  (add32 (fst kw) (snd kw)) in
  let t2 := add32 (bsig0 (ra r)) (Maj (ra r) (rb r) (rc r)) in
  {| ra := add32 t1 t2; rb := ra r; rc := rb r; rd := rc r;
     re := add32 (rd r) t1; rf := re r; rg := rf r; rh := rg r |}.

Definition compress (h : Regs) (block : list N) : Regs :=
  let w := schedule 48 (rev (words block)) in
  let r := fold_left round (combine K w) h in
  {| ra := add32 (ra h) (ra r); rb := add32 (rb h) (rb r);
     rc := add32 (rc h) (rc r); rd := add32 (rd h) (rd r);
     re := add32 (re h) (re r); rf := add32 (rf h) (rf r);
     rg := add32 (rg h) (rg r); rh := add32 (rh h) (rh r) |}.

(** Feed the padded message block by block; [cur] collects, reversed, the
    [n] bytes of the block being read. *)
Fixpoint absorb (bytes cur : list N) (n : nat) (h : Regs) : Regs :=
  match bytes with
  | [] => h
  | b :: rest =>
      if Nat.eqb n 63 then absorb rest [] 0 (compress h (rev (b :: cur)))
      else absorb rest (b :: cur) (S n) h
  end.

Definition initial : Regs :=
  match H0 with
  | [a; b; c; d; e; f; g; h] =>
      {| ra := a; rb := b; rc := c; rd := d; re := e; rf := f; rg := g; rh := h |}
  | _ => {| ra := 0; rb := 0; rc := 0; rd := 0; re := 0; rf := 0; rg := 0; rh := 0 |}
  end.

(** The digest as eight 32-bit words. *)
Definition digest (msg : list N) : list N :=
  let r := absorb (pad msg) [] 0 initial in
  [ra r; rb r; rc r; rd r; re r; rf r; rg r; rh r].

Definition hexDigit (n : N) : ascii :=
  if n <? 10 then ascii_of_N (48 + n) else ascii_of_N (87 + n).

(** Eight lowercase hexadecimal digits of a 32-bit word. *)
Definition hexWord (x : N) : string :=
  fold_right (fun i acc => String (hexDigit (N.land (N.shiftr x (4 * N.of_nat i)) 0xf)) acc)
             EmptyString (rev (seq 0 8)).

Definition hex (ws : list N) : string :=
  fold_right (fun x acc => hexWord x ++ acc)%string EmptyString ws.

(** UTF-8 bytes of a string whose code units are below 256. *)
Fixpoint utf8 (s : string) : list N :=
  match s with
  | EmptyString => []
  | String c s' =>
      let n := Js.code c in
      if n <? 128 then n :: utf8 s'
      else (0xc0 + N.shiftr n 6) :: (0x80 + N.land n 0x3f) :: utf8 s'
  end.

End Sha256.

(** ** JSON.stringify *)

Module JSON.

(** The values the trace entry is made of. *)
#[local] Unset Elimination Schemes.
Inductive value : Type :=
| Str (s : string)
| Num (n : N)
| Arr (items : list value)
| Obj (fields : list (string * value)).
#[local] Set Elimination Schemes.

Definition hexDigit (n : N) : ascii :=
  if (n <? 10)%N then ascii_of_N (48 + n) else ascii_of_N (87 + n).

(** One code unit inside a quoted string: the quote and the backslash are
    escaped, a control character is written with its short escape or as
    [\u00xx], anything else stands for itself. *)
Definition quoteChar (c : ascii) : string :=
  let n := Js.code c in
  if (n =? 34)%N then Js.backslash ++ Js.dquote
  else if (n =? 92)%N then Js.backslash ++ Js.backslash
  else if (n =? 8)%N then Js.backslash ++ "b"
  else if (n =? 12)%N then Js.backslash ++ "f"
  else if (n =? 10)%N then Js.backslash ++ "n"
  else if (n =? 13)%N then Js.backslash ++ "r"
  else if (n =? 9)%N then Js.backslash ++ "t"
  else if (n <? 32)%N then
    Js.backslash ++ "u00" ++ String (hexDigit (n / 16)) (String (hexDigit (n mod 16)) EmptyString)
  else String c EmptyString.

Fixpoint quoteBody (s : string) : string :=
  match s with
  | EmptyString => EmptyString
  | String c s' => quoteChar c ++ quoteBody s'
  end.

Definition quote (s : string) : string := Js.dquote ++ quoteBody s ++ Js.dquote.

(** A natural number in decimal. *)
Definition decimal (n : N) : string := NilEmpty.string_of_uint (N.to_uint n).

(** [JSON.stringify(v)] without indentation: no white space is written
    between the tokens, and the properties keep their order. *)
Fixpoint stringify (v : value) : string :=
  match v with
  | Str s => quote s
  | Num n => decimal n
  | Arr items =>
      "[" ++ Js.join "," (map stringify items) ++ "]"
  | Obj fields =>
      "{" ++ Js.join "," (map (fun kv => quote (fst kv) ++ ":" ++ stringify (snd kv)) fields) ++ "}"
  end.

End JSON.

(** ** Records of the gate *)

(** [Intent] of [models/Intent]: the gate builds records with [id] and
    [owned_scope] only, and records with every field, so all fields but [id]
    are optional ([None] is [undefined]). *)
Record Intent : Type := mkIntent {
  id : string;
  name : option string;
  owned_scope : option (list string);
  constraints : option (list string);
  acceptance_criteria : option (list string)
}.

Inductive MutationClass : Type := AST_REFACTOR | INTENT_EVOLUTION.

(** The argument of the post-hook ([interface WriteFileSchema]). *)
Record WriteFileSchema : Type := mkWriteFile {
  filePath : string;
  content : string;
  intent_id : string;
  mutation_class : MutationClass
}.

Inductive Classification : Type := Safe | Destructive.

(** A computation that may stop at a modal warning of the editor and go on
    with the button the user picked ([None]: the dialog was dismissed). *)
Inductive Interaction (A : Type) : Type :=
| Done (r : Result A)
| ShowWarningMessage (message : string) (items : list string)
    (k : option string -> Interaction A).
Arguments Done {A} r.
Arguments ShowWarningMessage {A} message items k.

(** Run an interaction against a user who answers every warning with
    [answer]; the messages shown are returned with the result. *)
Fixpoint runInteraction {A} (answer : string -> option string) (i : Interaction A)
    : Result A * list string :=
  match i with
  | Done r => (r, [])
  | ShowWarningMessage message items k =>
      let '(r, shown) := runInteraction answer (k (answer message)) in
      (r, message :: shown)
  end.

(** ** PreHook *)

Module PreHook.

(** *** The intent registry: [extractIntentBlock]

    The regular expressions of the extractor, node by node. *)

Import RegExp.

(** [/\n\s*-\s+id:\s*/] *)
Definition entrySeparator : RegExp.t :=
  {| nodes := lit Js.lf ++ [Atom Space Star] ++ lit "-" ++ [Atom Space Plus]
              ++ lit "id:" ++ [Atom Space Star];
     ignoreCase := false |}.

(** [/^Q?([^Q]+)Q?/], with Q for the double quote. *)
Definition entryId : RegExp.t :=
  {| nodes := [AssertStart; Atom (Chr Js.dquoteChar) Opt; GroupOpen;
               Atom (NoneOf [Js.dquoteChar]) Plus; GroupClose;
               Atom (Chr Js.dquoteChar) Opt];
     ignoreCase := false |}.

(** [/\n\s*name:\s*Q?([^\Q\n]+)Q?/i] with Q for the double quote, and
    the same for any other scalar key. *)
Definition scalarField (key : string) : RegExp.t :=
  {| nodes := lit Js.lf ++ [Atom Space Star] ++ lit (key ++ ":") ++ [Atom Space Star]
              ++ [Atom (Chr Js.dquoteChar) Opt; GroupOpen;
                  Atom (NoneOf [Js.dquoteChar; Js.lfChar]) Plus; GroupClose;
                  Atom (Chr Js.dquoteChar) Opt];
     ignoreCase := true |}.

(** [/owned_scope:\s*\n([\s\S]*?)\n\s*[a-z_]+:/i]: the block up to the next key. *)
Definition blockBeforeKey (key : string) : RegExp.t :=
  {| nodes := lit (key ++ ":") ++ [Atom Space Star] ++ lit Js.lf
              ++ [GroupOpen; Atom Any LazyStar; GroupClose]
              ++ lit Js.lf ++ [Atom Space Star]
              ++ [Atom (OneOf [("a", "z"); ("_", "_")]%char) Plus] ++ lit ":";
     ignoreCase := true |}.

(** [/owned_scope:\s*\n(A)$/i] with A for the greedy [[\s\S]*]: the block
    up to the end of the entry. *)
Definition blockToEnd (key : string) : RegExp.t :=
  {| nodes := lit (key ++ ":") ++ [Atom Space Star] ++ lit Js.lf
              ++ [GroupOpen; Atom Any Star; GroupClose; AssertEnd];
     ignoreCase := true |}.

(** [/-\s*Q?([^\Q\n]+)Q?/], with Q for the double quote. *)
Definition listItem : RegExp.t :=
  {| nodes := lit "-" ++ [Atom Space Star]
              ++ [Atom (Chr Js.dquoteChar) Opt; GroupOpen;
                  Atom (NoneOf [Js.dquoteChar; Js.lfChar]) Plus; GroupClose;
                  Atom (Chr Js.dquoteChar) Opt];
     ignoreCase := false |}.

(** [a || b] on captures: an absent or an empty first capture gives the second. *)
Definition orElse (a b : option string) : option string :=
  if Js.truthy a then a else b.

(** The items of the list under [key]: the loop over the lines of the block. *)
Definition listField (key entry : string) : list string :=
  let block := orElse (group1 (blockBeforeKey key) entry) (group1 (blockToEnd key) entry) in
  if Js.truthy block then
    omap (fun line => let m := group1 listItem line in if Js.truthy m then m else None)
         (Js.splitChar Js.lfChar (default EmptyString block))
  else [].

(** The body of the loop over the entries. [status] is read by the source
    and not put in the record. *)
Fixpoint findEntry (entries : list string) (id : string) : option Intent :=
  match entries with
  | [] => None
  | entry :: rest =>
      if bool_decide (group1 entryId entry = Some id) then
        Some {| id := id;
                name := group1 (scalarField "name") entry;
                owned_scope := Some (listField "owned_scope" entry);
                constraints := Some (listField "constraints" entry);
                acceptance_criteria := Some (listField "acceptance_criteria" entry) |}
      else findEntry rest id
  end.

(** [extractIntentBlock(yaml, id)]; [None] is [null]. *)
Definition extractIntentBlock (yaml id : string) : option Intent :=
  findEntry (tail (RegExp.split entrySeparator yaml)) id.

(** *** Intent validation *)

(** [path.join(cwd, ".orchestration", "active_intents.yaml")], as a key of
    the workspace. *)
Definition intentsFile : string := ".orchestration/active_intents.yaml".

(** The record returned when the registry has no entry for the id or
    cannot be read. *)
Definition permissiveStub (activeIntentId : string) : Intent :=
  {| id := activeIntentId; name := None; owned_scope := Some ["**"];
     constraints := None; acceptance_criteria := None |}.

(** [validate(activeIntentId)]; the argument may be [null] at run time.
    Both copies of the method agree, up to the API that reads the file. *)
Definition validate (activeIntentId : option string) : M Intent :=
  fun w =>
    match activeIntentId with
    | None => (Throw MissingIntent, w)
    | Some i =>
        if negb (Js.truthy activeIntentId) || Nat.eqb (String.length (Js.trim i)) 0
        then (Throw MissingIntent, w)
        else
          match workspace w !! intentsFile with
          | Some yaml =>
              match extractIntentBlock yaml i with
              | Some block => (Ok block, w)
              | None => (Ok (permissiveStub i), w)
              end
          | None => (Ok (permissiveStub i), w)
          end
    end.

(** *** Command classification and authorization *)

Definition safeCommands : list string := ["read_file"; "list_files"].
Definition destructiveCommands : list string :=
  ["write_file"; "delete_file"; "execute_command"].

Definition classifyCommand (command : string) : Result Classification :=
  if Js.includes safeCommands command then Ok Safe
  else if Js.includes destructiveCommands command then Ok Destructive
  else Throw (UnknownCommand command).

Definition warningText (command : string) : string :=
  "The command " ++ Js.dquote ++ command ++ Js.dquote
  ++ " is classified as Destructive. Do you want to proceed?".

(** [authorizeCommand(command)]: the promise resolves to a boolean, or is
    rejected with the error of the classification. *)
Definition authorizeCommand (command : string) : Interaction bool :=
  match classifyCommand command with
  | Throw e => Done (Throw e)
  | Ok Destructive =>
      ShowWarningMessage (warningText command) ["Approve"; "Reject"]
        (fun userResponse => Done (Ok (bool_decide (userResponse = Some "Approve"))))
  | Ok Safe => Done (Ok true)
  end.

(** *** Scope enforcement *)

(** [pattern.replace(/\*\*/g, ".*")]: every [**], left to right. *)
Fixpoint replaceDoubleStar (s : string) : string :=
  match s with
  | String "*" (String "*" s') => ".*" ++ replaceDoubleStar s'
  | String c s' => String c (replaceDoubleStar s')
  | EmptyString => EmptyString
  end.

(** [.replace(/\*/g, "[^/]*")]: every [*], those just written included. *)
Fixpoint replaceStar (s : string) : string :=
  match s with
  | String "*" s' => "[^/]*" ++ replaceStar s'
  | String c s' => String c (replaceStar s')
  | EmptyString => EmptyString
  end.

(** The source text handed to [new RegExp] for one pattern. *)
Definition scopeRegExpSource (pattern : string) : string :=
  "^" ++ replaceStar (replaceDoubleStar pattern) ++ "$".

(** The callback of [owned_scope.some]. *)
Definition patternAllows (host : Host) (filePath pattern : string) : Result bool :=
  let source := scopeRegExpSource pattern in
  match RegExp.parse source with
  | Some regex => Ok (RegExp.test regex filePath)
  | None => regExpTest host source filePath
  end.

(** [Array.prototype.some]: patterns are tried in order, the first that
    allows the path ends the search, and an error ends it too. *)
Fixpoint some (host : Host) (filePath : string) (patterns : list string) : Result bool :=
  match patterns with
  | [] => Ok false
  | pattern :: rest =>
      match patternAllows host filePath pattern with
      | Ok true => Ok true
      | Ok false => some host filePath rest
      | Throw e => Throw e
      end
  end.

(** [enforceScope(filePath, intent)]. *)
Definition enforceScope (host : Host) (filePath : string) (intent : Intent) : Result unit :=
  match owned_scope intent with
  | None => Throw (UndefinedScope (id intent))
  | Some patterns =>
      match some host filePath patterns with
      | Ok true => Ok tt
      | Ok false => Throw (ScopeViolation (id intent) filePath)
      | Throw e => Throw e
      end
  end.

(** *** Content hash, trace and optimistic locking *)

Definition generateContentHash (content : string) : string :=
  Sha256.hex (Sha256.digest (Sha256.utf8 content)).

(** The object literal [traceEntry] of the post-hook. *)
Definition traceEntry (uuid timestamp : string) (writeFileData : WriteFileSchema)
    : JSON.value :=
  let contentHash := generateContentHash (content writeFileData) in
  JSON.Obj
    [("id", JSON.Str uuid);
     ("timestamp", JSON.Str timestamp);
     ("vcs", JSON.Obj [("revision_id", JSON.Str "git_sha_placeholder")]);
     ("files", JSON.Arr
        [JSON.Obj
           [("relative_path", JSON.Str (filePath writeFileData));
            ("conversations", JSON.Arr
               [JSON.Obj
                  [("url", JSON.Str "session_log_placeholder");
                   ("contributor", JSON.Obj
                      [("entity_type", JSON.Str "AI");
                       ("model_identifier", JSON.Str "claude-3-5-sonnet")]);
                   ("ranges", JSON.Arr
                      [JSON.Obj
                         [("start_line", JSON.Num 0);
                          ("end_line", JSON.Num 0);
                          ("content_hash", JSON.Str contentHash)]]);
                   ("related", JSON.Arr
                      [JSON.Obj
                         [("type", JSON.Str "specification");
                          ("value", JSON.Str (intent_id writeFileData))]])]])]])].

(** The line appended for one entry. *)
Definition traceLine (uuid timestamp : string) (writeFileData : WriteFileSchema) : string :=
  JSON.stringify (traceEntry uuid timestamp writeFileData) ++ Js.lf.

(** [postWriteFileHook(writeFileData)]: the entry is built, which reads the
    random source and the clock, and then [appendFileSync] adds its line to
    the trace file; when that throws, the error is the hook's. *)
Definition postWriteFileHook (host : Host) (writeFileData : WriteFileSchema) : M unit :=
  fun w =>
    let line := traceLine (randomUUID host (tick w)) (toISOString host (tick w))
                          writeFileData in
    appendFileSync traceFilePath line
      {| activeIntentId := activeIntentId w; workspace := workspace w;
         directories := directories w; tick := S (tick w) |}.

(** [enforceConcurrencyControl(filePath, initialHash)]: [readFileSync]
    throws when there is no file at the path. *)
Definition enforceConcurrencyControl (filePath initialHash : string) : M unit :=
  fun w =>
    match workspace w !! filePath with
    | None => (Throw (NoSuchFile filePath), w)
    | Some currentContent =>
        let currentHash := generateContentHash currentContent in
        if bool_decide (currentHash <> initialHash)
        then (Throw (StaleFile filePath), w)
        else (Ok tt, w)
    end.

End PreHook.

(** ** The gatekeeper: the strict selection

    [selectActiveIntent(intentId)] of the gatekeeper module reads the
    registry and stores the id only when the registry has it; failures are
    reported in the returned record, nothing is thrown. *)

Record SelectionReport : Type := mkReport { success : bool; message : string }.

Definition selectActiveIntent (intentId : string) : M SelectionReport :=
  fun w =>
    match workspace w !! PreHook.intentsFile with
    | None =>
        (Ok {| success := false;
               message := "Failed to activate intent: " ++ "cannot read the registry" |}, w)
    | Some yaml =>
        match PreHook.extractIntentBlock yaml intentId with
        | None =>
            (Ok {| success := false;
                   message := "Failed to activate intent: " ++ "Intent ID " ++ intentId
                              ++ " not found in active_intents.yaml" |}, w)
        | Some _ =>
            (Ok {| success := true;
                   message := "Intent " ++ intentId ++ " activated successfully." |},
             {| activeIntentId := Some intentId; workspace := workspace w;
                directories := directories w; tick := tick w |})
        end
    end.

(** ** SelectActiveIntentTool *)

Module SelectActiveIntentTool.

(** The session state the tool writes through [provider.contextProxy]. *)
Record ContextProxy : Type := mkProxy {
  proxyActiveIntentId : option string;
  isIntentVerified : bool
}.

(** The tool's own copy of the extractor: an empty text has no entry, and
    the record carries no acceptance criteria. *)
Fixpoint findEntry (entries : list string) (id : string) : option Intent :=
  match entries with
  | [] => None
  | entry :: rest =>
      if bool_decide (RegExp.group1 PreHook.entryId entry = Some id) then
        Some {| id := id;
                name := RegExp.group1 (PreHook.scalarField "name") entry;
                owned_scope := Some (PreHook.listField "owned_scope" entry);
                constraints := Some (PreHook.listField "constraints" entry);
                acceptance_criteria := None |}
      else findEntry rest id
  end.

Definition extractIntentBlock (yaml id : string) : option Intent :=
  match yaml with
  | EmptyString => None
  | _ => findEntry (tail (RegExp.split PreHook.entrySeparator yaml)) id
  end.

(** [list?.length ? list.join(",") : "(none)"] *)
Definition joinOrNone (l : option (list string)) : string :=
  match l with
  | Some (x :: r) => Js.join "," (x :: r)
  | _ => "(none)"
  end.

(** The stub the tool falls back to. *)
Definition toolStub (intentId : string) : Intent :=
  {| id := intentId; name := None; owned_scope := Some ["**"];
     constraints := Some []; acceptance_criteria := None |}.

Definition xmlOf (intent : Intent) : string :=
  Js.join " "
    ["<intent_context>"; "<id>" ++ id intent ++ "</id>";
     "<scope>" ++ joinOrNone (owned_scope intent) ++ "</scope>";
     "<constraints>" ++ joinOrNone (constraints intent) ++ "</constraints>";
     "</intent_context>"].

(** [execute(params, task, callbacks)], for a task whose provider is alive:
    the text pushed as the tool result and the session state left behind.
    A registry that cannot be read counts as the empty text. *)
Definition execute (intent_id : option string) (files : gmap string string)
    (proxy : ContextProxy) : string * ContextProxy :=
  match intent_id with
  | Some (String c s) =>
      let intentId := String c s in
      let raw := default EmptyString (files !! PreHook.intentsFile) in
      let intent := default (toolStub intentId) (extractIntentBlock raw intentId) in
      (xmlOf intent,
       {| proxyActiveIntentId := Some (id intent); isIntentVerified := true |})
  | _ => ("<intent_context>error: missing intent_id</intent_context>", proxy)
  end.

End SelectActiveIntentTool.

(** ** The orchestrator *)

(** The files and the directories of the working directory. *)
Definition FileSystem : Type := (gmap string string * gset string)%type.

(** A wrapped action is handed the files and directories, the trace file
    like any other; it either fails, and then no mutation has occurred, or
    returns its result with the files and directories it left. *)
Definition Action (A : Type) : Type := FileSystem -> Result (A * FileSystem).

Inductive GateFailure : Type :=
| GateError (e : JsError)
| AuthorizationDenied (command : string).

(** How an invocation ends. [LedgerWriteFailure] is the typed error of the
    logger: the action has run and the append of its entry failed. *)
Inductive Outcome (A : Type) : Type :=
| DONE (result : A)
| BLOCKED (reason : GateFailure)
| FAILED (e : JsError)
| LedgerWriteFailure (e : JsError).
Arguments DONE {A} result.
Arguments BLOCKED {A} reason.
Arguments FAILED {A} e.
Arguments LedgerWriteFailure {A} e.

(** What a request tells the hooks about its mutation: the command it
    stands for, the target path and the final content. *)
Record Meta : Type := mkMeta {
  command : string;
  target : string;
  finalContent : string;
  mutationClass : MutationClass
}.

Definition withWorkspace (files : gmap string string) (w : World) : World :=
  {| activeIntentId := activeIntentId w; workspace := files;
     directories := directories w; tick := tick w |}.

Definition fileSystem (w : World) : FileSystem := (workspace w, directories w).

Definition withFileSystem (fs : FileSystem) (w : World) : World :=
  {| activeIntentId := activeIntentId w; workspace := fst fs;
     directories := snd fs; tick := tick w |}.

(** Modelled from the spec: [HookEngine.executeWithHooks], whose source file
    is not among the sources. One invocation walks the states of the
    specification, REQUESTED, INTENT_CHECK, SCOPE_CHECK, AUTHORIZATION (the
    prompt is shown for a Destructive command only), EXECUTING, LOGGING,
    DONE; it ends in BLOCKED when a gate step fails, in FAILED when the
    wrapped action fails, and in the typed error [LedgerWriteFailure] when
    the action has run and the logger fails, which is surfaced to the
    caller with the mutation left in place. The gate steps and the logger
    are the functions of [PreHook]; [answer] is the external approval
    decision. The architecture notes of the repository hold a sketch of the
    function that runs [validate] only and logs only when the request names
    a path and a content that is not empty; what is stated below about the
    ledger rests on the logger and on the wrapped action alone. *)
Definition executeWithHooks {A} (host : Host) (answer : string -> option string)
    (action : Action A) (intentId : option string) (meta : Meta)
    : World -> Outcome A * World :=
  fun w =>
    match fst (PreHook.validate intentId w) with
    | Throw e => (BLOCKED (GateError e), w)
    | Ok intent =>
        match PreHook.enforceScope host (target meta) intent with
        | Throw e => (BLOCKED (GateError e), w)
        | Ok _ =>
            match fst (runInteraction answer (PreHook.authorizeCommand (command meta))) with
            | Throw e => (BLOCKED (GateError e), w)
            | Ok false => (BLOCKED (AuthorizationDenied (command meta)), w)
            | Ok true =>
                match action (fileSystem w) with
                | Throw e => (FAILED e, w)
                | Ok (result, fs) =>
                    match PreHook.postWriteFileHook host
                            {| filePath := target meta; content := finalContent meta;
                               intent_id := id intent;
                               mutation_class := mutationClass meta |}
                            (withFileSystem fs w) with
                    | (Ok _, w') => (DONE result, w')
                    | (Throw e, w') => (LedgerWriteFailure e, w')
                    end
                end
            end
        end
    end.

(** One governed request: the action, the intent id it cites and its
    metadata. *)
Record Request (A : Type) : Type := mkRequest {
  reqAction : Action A;
  reqIntentId : option string;
  reqMeta : Meta
}.
Arguments mkRequest {A} reqAction reqIntentId reqMeta.
Arguments reqAction {A} r.
Arguments reqIntentId {A} r.
Arguments reqMeta {A} r.

(** A sequence of governed requests, one after the other. *)
Fixpoint runAll {A} (host : Host) (answer : string -> option string)
    (reqs : list (Request A)) (w : World) : list (Outcome A) * World :=
  match reqs with
  | [] => ([], w)
  | r :: rest =>
      let '(o, w1) := executeWithHooks host answer (reqAction r) (reqIntentId r) (reqMeta r) w in
      let '(os, w2) := runAll host answer rest w1 in
      (o :: os, w2)
  end.

Definition isDone {A} (o : Outcome A) : bool :=
  match o with DONE _ => true | _ => false end.

(** The invocations whose wrapped action has run and mutated the
    workspace: the logged ones and those the logger failed on. *)
Definition hasMutated {A} (o : Outcome A) : bool :=
  match o with DONE _ | LedgerWriteFailure _ => true | _ => false end.

(** ** Reading the ledger *)

(** The number of entries of the trace file: one per line feed. *)
Fixpoint entryCount (ledger : string) : nat :=
  match ledger with
  | EmptyString => 0
  | String c s => (if Ascii.eqb c Js.lfChar then 1 else 0) + entryCount s
  end.

(** The entries of the trace file, in order: its lines, without the piece
    that follows the last line feed. *)
Definition entries (ledger : string) : list string :=
  removelast (Js.splitChar Js.lfChar ledger).

(** ** Sessions sharing the gatekeeper *)

(** What a session does to the gatekeeper: select an intent or ask the
    pre-hook about a tool. The session that acts is a label on the event;
    the gatekeeper functions take no session argument. *)
Inductive SessionOp : Type :=
| SelectIntent (intent_id : string)
| CallTool (toolName : string).

Inductive Observation : Type :=
| Selected (context : Result string)
| Gated (verdict : Result unit).

Definition Event : Type := (nat * SessionOp)%type.

Definition stepEvent (e : Event) (w : World) : (nat * Observation) * World :=
  match snd e with
  | SelectIntent i =>
      let '(r, w') := select_active_intent i w in ((fst e, Selected r), w')
  | CallTool t =>
      let '(r, w') := executePreHook t tt w in ((fst e, Gated r), w')
  end.

(** The events of all sessions, interleaved in the order they happen. *)
Fixpoint runEvents (es : list Event) (w : World) : list (nat * Observation) * World :=
  match es with
  | [] => ([], w)
  | e :: rest =>
      let '(o, w1) := stepEvent e w in
      let '(os, w2) := runEvents rest w1 in
      (o :: os, w2)
  end.

(** What session [s] observes, and the events that are its own. *)
Definition view (s : nat) (obs : list (nat * Observation)) : list Observation :=
  map snd (List.filter (fun o => Nat.eqb (fst o) s) obs).

Definition ownEvents (s : nat) (es : list Event) : list Event :=
  List.filter (fun e => Nat.eqb (fst e) s) es.

(** The id stored by the last selection among the events, whoever made it. *)
Fixpoint lastSelected (es : list Event) (current : option string) : option string :=
  match es with
  | [] => current
  | (_, SelectIntent i) :: rest => lastSelected rest (Some i)
  | (_, CallTool _) :: rest => lastSelected rest current
  end.

(** A tool that overwrites a file, followed by the post-hook for it: what a
    caller sequences after the pre-hook. *)
Definition overwrite (path text : string) : M string :=
  fun w => (Ok "written",
            {| activeIntentId := activeIntentId w;
               workspace := <[path := text]> (workspace w);
               directories := directories w; tick := tick w |}).

Definition writeThenLog (host : Host) (d : WriteFileSchema) : M string :=
  let! result := overwrite (filePath d) (content d) in
  PreHook.postWriteFileHook host d ;;
  ret result.

Definition isSome {A} (o : option A) : bool :=
  match o with Some _ => true | None => false end.

(** What the backtracking search looks for, said without the search: the
    input from index [pos] on starts with a text the nodes describe. Each
    atom takes a run of characters of its class, as long as its quantifier
    allows; the anchors and the group marks take nothing. *)
Definition runLengthOk (q : RegExp.Quant) (n : nat) : Prop :=
  match q with
  | RegExp.One => n = 1
  | RegExp.Star | RegExp.LazyStar => True
  | RegExp.Plus => 1 <= n
  | RegExp.Opt => n <= 1
  end.

Fixpoint Accepts (ic : bool) (r : list RegExp.Node) (s : string) (pos : nat) : Prop :=
  match r with
  | [] => True
  | RegExp.AssertStart :: r' => pos = 0 /\ Accepts ic r' s pos
  | RegExp.AssertEnd :: r' => s = EmptyString /\ Accepts ic r' s pos
  | RegExp.GroupOpen :: r' => Accepts ic r' s pos
  | RegExp.GroupClose :: r' => Accepts ic r' s pos
  | RegExp.Atom cl q :: r' =>
      exists taken rest : string,
        s = taken ++ rest
        /\ Js.allChars (RegExp.classMatches ic cl) taken = true
        /\ runLengthOk q (String.length taken)
        /\ Accepts ic r' rest (pos + String.length taken)
  end.

Definition notSlash (c : ascii) : bool := negb (Ascii.eqb "/" c).

(** The intent of the specification's example. *)
Definition INT_001 : Intent :=
  {| id := "INT-001"; name := None; owned_scope := Some ["src/core/**"];
     constraints := None; acceptance_criteria := None |}.

(** A registry with one entry, for INT-001, in the layout the extractor
    reads. *)
Definition sampleRegistry : string :=
  Js.join Js.lf
    ["active_intents:";
     "  - id: " ++ Js.dquote ++ "INT-001" ++ Js.dquote;
     "    name: " ++ Js.dquote ++ "Core refactor" ++ Js.dquote;
     "    status: active";
     "    owned_scope:";
     "      - " ++ Js.dquote ++ "src/core/**" ++ Js.dquote;
     "    constraints:";
     "      - " ++ Js.dquote ++ "No public API change" ++ Js.dquote;
     "    acceptance_criteria:";
     "      - " ++ Js.dquote ++ "Unit tests pass" ++ Js.dquote].

Definition sampleFiles : gmap string string :=
  {[ PreHook.intentsFile := sampleRegistry ]}.

(** A registry whose entry for INT-001 owns everything and has no
    constraints. *)
Definition wideRegistry : string :=
  Js.join Js.lf
    ["active_intents:";
     "  - id: " ++ Js.dquote ++ "INT-001" ++ Js.dquote;
     "    owned_scope:";
     "      - " ++ Js.dquote ++ "**" ++ Js.dquote].

(** A registry whose entry for INT-001 owns the files of [src/core] and
    those of the orchestration directory. *)
Definition ledgerOwnerRegistry : string :=
  Js.join Js.lf
    ["active_intents:";
     "  - id: " ++ Js.dquote ++ "INT-001" ++ Js.dquote;
     "    owned_scope:";
     "      - " ++ Js.dquote ++ "src/core/*" ++ Js.dquote;
     "      - " ++ Js.dquote ++ ".orchestration/*" ++ Js.dquote].

(** Two contents that differ in the line ending only, and two that differ
    in trailing blanks only. *)
Definition crChar : ascii := ascii_of_nat 13.
Definition unixText : string := "let x = 1;" ++ Js.lf.
Definition dosText : string := "let x = 1;" ++ String crChar Js.lf.
Definition paddedText : string := "let x = 1;  " ++ Js.lf.

(** The trace file that holds given entries: each entry followed by a line
    feed. *)
Definition ledgerText (es : list string) : string :=
  String.concat EmptyString (map (fun e => e ++ Js.lf) es).

(** The entry written for a request when the clock reads [t]: the post-hook
    is handed the target and the final content of the request and the id it
    cites. *)
Definition entryOfRequest {A} (host : Host) (t : nat) (r : Request A) : string :=
  JSON.stringify
    (PreHook.traceEntry (randomUUID host t) (toISOString host t)
       {| filePath := target (reqMeta r); content := finalContent (reqMeta r);
          intent_id := default EmptyString (reqIntentId r);
          mutation_class := mutationClass (reqMeta r) |}).

(** The entries a run leaves in the ledger, read off its outcomes: one for
    each request that ended in DONE, in the order of the requests. The
    logger reads the clock whether its append succeeds or not. *)
Fixpoint loggedLines {A} (host : Host) (t : nat) (reqs : list (Request A))
    (outs : list (Outcome A)) : list string :=
  match reqs, outs with
  | r :: reqs', o :: outs' =>
      match o with
      | DONE _ => entryOfRequest host t r :: loggedLines host (S t) reqs' outs'
      | LedgerWriteFailure _ => loggedLines host (S t) reqs' outs'
      | _ => loggedLines host t reqs' outs'
      end
  | _, _ => []
  end.

(** A wrapped action that leaves the trace file as it is, whatever else it
    does to the files and directories. *)
Definition keepsTraceFile {A} (action : Action A) : Prop :=
  forall fs result fs',
    action fs = Ok (result, fs') -> fst fs' !! traceFilePath = fst fs !! traceFilePath.

(** [a] is an initial part of [b]. *)
Definition isPrefixOf (a b : string) : Prop := exists rest, b = a ++ rest.

(** A pattern made of ordinary characters and single stars: no [**] and no
    character that is special in a regular expression. *)
Fixpoint plainPattern (s : string) : bool :=
  match s with
  | String "*" (String "*" _) => false
  | String "*" s' => plainPattern s'
  | String c s' => negb (RegExp.isMeta c) && plainPattern s'
  | EmptyString => true
  end.

(** The calls the governance code offers, and a run of them. A workspace
    change stands for whatever a tool does to the files and directories. *)
Inductive HookCall : Type :=
| CallExecutePreHook (toolName : string)
| CallSelect (intent_id : string)
| CallSelectStrict (intentId : string)
| CallValidate (activeIntentId : option string)
| CallConcurrencyControl (filePath initialHash : string)
| CallPostWriteFileHook (writeFileData : WriteFileSchema)
| CallWorkspace (change : FileSystem -> FileSystem).

Definition runCall (host : Host) (c : HookCall) (w : World) : World :=
  match c with
  | CallExecutePreHook t => snd (executePreHook t tt w)
  | CallSelect i => snd (select_active_intent i w)
  | CallSelectStrict i => snd (selectActiveIntent i w)
  | CallValidate i => snd (PreHook.validate i w)
  | CallConcurrencyControl p h => snd (PreHook.enforceConcurrencyControl p h w)
  | CallPostWriteFileHook d => snd (PreHook.postWriteFileHook host d w)
  | CallWorkspace change => withFileSystem (change (fileSystem w)) w
  end.

(** A call that leaves the trace file and its directory in place: every
    call of the code does, a workspace change must be known to. *)
Definition keepsLedger (c : HookCall) : Prop :=
  match c with
  | CallWorkspace change =>
      forall fs,
        fst (change fs) !! traceFilePath = fst fs !! traceFilePath
        /\ (directoryExistsIn (fst fs) (snd fs) orchestrationDir = true ->
            directoryExistsIn (fst (change fs)) (snd (change fs)) orchestrationDir = true)
  | _ => True
  end.

Definition runCalls (host : Host) (cs : list HookCall) (w : World) : World :=
  fold_left (fun v c => runCall host c v) cs w.

Definition isPostWrite (c : HookCall) : bool :=
  match c with CallPostWriteFileHook _ => true | _ => false end.

(** A host and a run of five requests, to try the orchestrator on. *)
Definition demoHost : Host :=
  {| randomUUID := fun n => "uuid-" ++ NilEmpty.string_of_uint (Nat.to_uint n);
     toISOString := fun n => "2026-01-01T00:00:0" ++ NilEmpty.string_of_uint (Nat.to_uint n) ++ ".000Z";
     regExpTest := fun source _ => Throw (InvalidRegExp source) |}.

Definition approve : string -> option string := fun _ => Some "Approve".

(** A tool that writes a file, whatever the path: the file is created or
    overwritten, and with it the directories on its path. *)
Definition writeAction (path text : string) : Action string :=
  fun fs => Ok ("written", (<[path := text]> (fst fs), snd fs)).

Definition failingAction : Action string :=
  fun _ => Throw (ActionError "disk full").

Definition demoMeta (path text : string) : Meta :=
  {| command := "write_file"; target := path; finalContent := text;
     mutationClass := AST_REFACTOR |}.

Definition demoRequests : list (Request string) :=
  [ mkRequest (writeAction "src/core/a.ts" "one") None (demoMeta "src/core/a.ts" "one");
    mkRequest (writeAction "src/core/a.ts" "two") (Some "INT-001")
              (demoMeta "src/core/a.ts" "two");
    mkRequest (writeAction "docs/readme.txt" "three") (Some "INT-001")
              (demoMeta "docs/readme.txt" "three");
    mkRequest failingAction (Some "INT-001") (demoMeta "src/core/b.ts" "four");
    mkRequest (writeAction "src/core/c.ts" "five") (Some "INT-001")
              (demoMeta "src/core/c.ts" "five") ].

(** ** The words of the specification

    Definitions that follow the specification, to set beside the ones
    taken from the code. *)

Module Spec.

(** Per-session active intent, as a noninterference statement over two
    runs: what a session observes does not depend on the events of the
    other sessions. *)
Definition SessionIsolation : Prop :=
  forall (s : nat) (es : list Event) (files : gmap string string),
    view s (fst (runEvents es (initialWorld files)))
    = view s (fst (runEvents (ownEvents s es) (initialWorld files))).

Inductive GlobToken : Type :=
| DoubleStar                      (* zero or more path segments *)
| SingleStar                      (* the characters of one path segment *)
| Literal (c : ascii).            (* the character itself *)

Fixpoint tokens (pattern : string) : list GlobToken :=
  match pattern with
  | String "*" (String "*" s') => DoubleStar :: tokens s'
  | String "*" s' => SingleStar :: tokens s'
  | String c s' => Literal c :: tokens s'
  | EmptyString => []
  end.

Definition nodeOf (t : GlobToken) : RegExp.Node :=
  match t with
  | DoubleStar => RegExp.Atom RegExp.Any RegExp.Star
  | SingleStar => RegExp.Atom (RegExp.NoneOf ["/"%char]) RegExp.Star
  | Literal c => RegExp.Atom (RegExp.Chr c) RegExp.One
  end.

(** The pattern semantics of the scope matcher, in the specification's
    words: [**] matches zero or more path segments, so any text, separators
    included; [*] the characters of one segment, so any text without a
    separator; every other character itself. The whole path is matched. *)
Definition globMatches (pattern path : string) : bool :=
  match RegExp.matchFrom false (map nodeOf (tokens pattern) ++ [RegExp.AssertEnd])
                         path 0 None None with
  | Some _ => true
  | None => false
  end.

(** A path is authorized when any of the patterns matches it. *)
Definition matches (path : string) (patterns : list string) : bool :=
  existsb (fun pattern => globMatches pattern path) patterns.

(** Modelled from the spec: the normalisation applied before hashing, of
    which the code has none. By the example the specification gives, a line
    ends with LF only and carries no trailing blanks. *)
Definition isBlank (c : ascii) : bool :=
  let n := Js.code c in ((n =? 32) || (n =? 9) || (n =? 13))%N.

Fixpoint stripTrailingBlanks (line : string) : string :=
  match line with
  | EmptyString => EmptyString
  | String c s =>
      match stripTrailingBlanks s with
      | EmptyString => if isBlank c then EmptyString else String c EmptyString
      | t => String c t
      end
  end.

Definition normalize (content : string) : string :=
  Js.join Js.lf (map stripTrailingBlanks (Js.splitChar Js.lfChar content)).

(** The invariants of the ledger, over the runs of the orchestrator: every
    invocation whose action mutated the workspace adds exactly one entry and
    no other invocation adds any, and what the ledger held stays at its
    start. *)
Definition LedgerOneEntryPerMutation : Prop :=
  forall (A : Type) (host : Host) (answer : string -> option string)
         (reqs : list (Request A)) (w : World),
    entryCount (traceFile (snd (runAll host answer reqs w)))
    = entryCount (traceFile w)
      + length (List.filter hasMutated (fst (runAll host answer reqs w))).

Definition LedgerMonotonic : Prop :=
  forall (A : Type) (host : Host) (answer : string -> option string)
         (reqs : list (Request A)) (w : World),
    isPrefixOf (traceFile w) (traceFile (snd (runAll host answer reqs w))).

(** A Destructive command fails, with an error, exactly when the decision
    is a rejection. *)
Definition DenialIsAnError : Prop :=
  forall (command : string) (answer : string -> option string),
    PreHook.classifyCommand command = Ok Destructive ->
    (answer (PreHook.warningText command) = Some "Reject"
     <-> exists e, fst (runInteraction answer (PreHook.authorizeCommand command)) = Throw e).

End Spec.
(** ** The lesson log *)

(** [PreHook.recordLesson(lesson)]: [appendFileSync] on [CLAUDE.md] in the
    working directory, which creates the file when there is none. The time
    stamp is read from the host's clock. *)
Definition lessonFilePath : string := "CLAUDE.md".

Definition lessonEntry (timestamp lesson : string) : string :=
  "### Lesson Learned (" ++ timestamp ++ ")" ++ Js.lf ++ Js.lf ++ lesson ++ Js.lf ++ Js.lf.

Definition recordLesson (host : Host) (lesson : string) : M unit :=
  fun w =>
    let lessonEntry := lessonEntry (toISOString host (tick w)) lesson in
    appendFileSync lessonFilePath lessonEntry
      {| activeIntentId := activeIntentId w; workspace := workspace w;
         directories := directories w; tick := S (tick w) |}.

(** Lessons recorded one after the other, and the text they add when the
    first of them is written at clock reading [t]. *)
Definition recordLessons (host : Host) (lessons : list string) (w : World) : World :=
  fold_left (fun v lesson => snd (recordLesson host lesson v)) lessons w.

Fixpoint lessonEntries (host : Host) (t : nat) (lessons : list string) : string :=
  match lessons with
  | [] => EmptyString
  | lesson :: rest => lessonEntry (toISOString host t) lesson ++ lessonEntries host (S t) rest
  end.

(** ** The task's pending tool results *)

Module Task.

(** [Anthropic.ToolResultBlockParam], and the blocks [userMessageContent]
    holds: text, image and tool-result blocks. *)
Record ToolResultBlockParam : Type := mkToolResult {
  tool_use_id : string;
  resultContent : string;
  is_error : bool
}.

Inductive ContentBlock : Type :=
| TextBlock (text : string)
| ImageBlock (data : string)
| ToolResultBlock (toolResult : ToolResultBlockParam).

(** The test handed to [find]:
    [block.type === "tool_result" && block.tool_use_id === toolResult.tool_use_id]. *)
Definition isResultFor (toolResult : ToolResultBlockParam) (block : ContentBlock) : bool :=
  match block with
  | ToolResultBlock r => String.eqb (tool_use_id r) (tool_use_id toolResult)
  | _ => false
  end.

(** [pushToolResultToUserContent(toolResult)]: the value returned and
    [userMessageContent] as the call leaves it. *)
Definition pushToolResultToUserContent (toolResult : ToolResultBlockParam)
    (userMessageContent : list ContentBlock) : bool * list ContentBlock :=
  match List.find (isResultFor toolResult) userMessageContent with
  | Some existingResult => (false, userMessageContent)
  | None => (true, (userMessageContent ++ [ToolResultBlock toolResult])%list)
  end.

(** The ids of the tool results among the blocks, in order. *)
Definition resultIds (blocks : list ContentBlock) : list string :=
  omap (fun block => match block with
                     | ToolResultBlock r => Some (tool_use_id r)
                     | _ => None
                     end) blocks.

(** Tool results pushed one after the other. *)
Definition pushAll (toolResults : list ToolResultBlockParam) (blocks : list ContentBlock)
    : list ContentBlock :=
  fold_left (fun l r => snd (pushToolResultToUserContent r l)) toolResults blocks.

End Task.

(** ** Notions the properties are stated with *)

(** The tools the pre-hook looks at. *)
Definition gatedTool (toolName : string) : bool :=
  String.eqb toolName "write_to_file" || String.eqb toolName "execute_command".

Definition notQuote (c : ascii) : bool := negb (Ascii.eqb Js.dquoteChar c).

Definition notLf (c : ascii) : bool := negb (Ascii.eqb c Js.lfChar).

(** The longest initial part of a string made of characters that pass the
    test, and what follows it. *)
Fixpoint takeWhile (p : ascii -> bool) (s : string) : string :=
  match s with
  | String c s' => if p c then String c (takeWhile p s') else EmptyString
  | EmptyString => EmptyString
  end.

Fixpoint dropWhile (p : ascii -> bool) (s : string) : string :=
  match s with
  | String c s' => if p c then dropWhile p s' else s
  | EmptyString => EmptyString
  end.

(** The id an entry of the registry starts with, read without a search: one
    opening quote is skipped when characters other than a quote follow it,
    and the id runs up to the next quote or to the end of the entry. *)
Definition leadingId (entry : string) : option string :=
  let body :=
    match entry with
    | String c s => if Ascii.eqb Js.dquoteChar c then s else entry
    | EmptyString => EmptyString
    end in
  match takeWhile notQuote body with
  | EmptyString => None
  | i => Some i
  end.

(** A record of the registry without its acceptance criteria: what the
    tool's copy of the extractor returns. *)
Definition withoutCriteria (r : Intent) : Intent :=
  {| id := id r; name := name r; owned_scope := owned_scope r;
     constraints := constraints r; acceptance_criteria := None |}.

(** A text as the extractor captures it for a name or a list item: not
    empty, without double quote and without line feed. *)
Definition fieldChar (c : ascii) : bool :=
  negb (Ascii.eqb c Js.dquoteChar) && negb (Ascii.eqb c Js.lfChar).

Definition cleanText (s : string) : Prop :=
  s <> EmptyString /\ Js.allChars fieldChar s = true.

(** A match reported [n] places further on, and the expressions whose
    match does not depend on the index it is tried at: those with no start
    anchor and no group mark. *)
Definition shifted (n : nat) (m : option RegExp.MatchState) : option RegExp.MatchState :=
  option_map (fun m => {| RegExp.endIndex := n + RegExp.endIndex m;
                          RegExp.groupStart := RegExp.groupStart m;
                          RegExp.groupEnd := RegExp.groupEnd m |}) m.

Definition positionFree (r : list RegExp.Node) : bool :=
  forallb (fun node => match node with
                       | RegExp.Atom _ _ | RegExp.AssertEnd => true
                       | _ => false
                       end) r.

(** A text without any character that is special in a regular expression. *)
Definition literalText (s : string) : bool :=
  Js.allChars (fun c => negb (RegExp.isMeta c)) s.

(** A lowercase hexadecimal digit. *)
Definition isLowerHex (c : ascii) : bool :=
  RegExp.inRange "0" "9" c || RegExp.inRange "a" "f" c.

(** * Properties *)

(** ** The host's primitives on small inputs *)

Example trim_blanks :
  Js.trim "  INT-001 " = "INT-001"
  /\ Js.trim ("   " ++ Js.lf) = EmptyString
  /\ Js.trim "a b" = "a b".
Proof. repeat split. Qed.

Example split_lines :
  Js.splitChar Js.lfChar ("a" ++ Js.lf ++ Js.lf ++ "b") = ["a"; EmptyString; "b"]
  /\ Js.splitChar Js.lfChar EmptyString = [EmptyString].
Proof. repeat split. Qed.

Example join_items :
  Js.join "," ["a"; "b"; "c"] = "a,b,c" /\ Js.join "," [] = EmptyString.
Proof. repeat split. Qed.

(** The id of an entry: a quoted id is read up to the closing quote, an
    unquoted one runs on to the next quote of the entry or to its end. *)
Example entryId_capture :
  RegExp.group1 PreHook.entryId (Js.dquote ++ "INT-001" ++ Js.dquote ++ Js.lf ++ "  name: x")
  = Some "INT-001"
  /\ RegExp.group1 PreHook.entryId ("INT-002" ++ Js.lf ++ "  name: x")
     = Some ("INT-002" ++ Js.lf ++ "  name: x")
  /\ RegExp.group1 PreHook.entryId EmptyString = None.
Proof. repeat split. Qed.

(** A greedy quantifier gives characters back, a lazy one takes as few as
    it can. *)
Example greedy_and_lazy :
  RegExp.group1 (PreHook.blockToEnd "k") ("k:" ++ Js.lf ++ "- a" ++ Js.lf ++ "z: 1")
  = Some ("- a" ++ Js.lf ++ "z: 1")
  /\ RegExp.group1 (PreHook.blockBeforeKey "k") ("k:" ++ Js.lf ++ "- a" ++ Js.lf ++ "z: 1")
     = Some "- a"
  /\ RegExp.group1 (PreHook.scalarField "name") (Js.lf ++ "  NAME:   Docs")
     = Some "Docs".
Proof. repeat split. Qed.

Example split_entries :
  RegExp.split PreHook.entrySeparator
    ("intents:" ++ Js.lf ++ " - id: A" ++ Js.lf ++ "   x: 1" ++ Js.lf ++ " -  id:B")
  = ["intents:"; "A" ++ Js.lf ++ "   x: 1"; "B"].
Proof. reflexivity. Qed.

Example stringify_values :
  JSON.stringify (JSON.Obj [("a", JSON.Num 0); ("b", JSON.Arr [JSON.Str "x"; JSON.Num 12])])
  = "{" ++ Js.dquote ++ "a" ++ Js.dquote ++ ":0," ++ Js.dquote ++ "b" ++ Js.dquote
    ++ ":[" ++ Js.dquote ++ "x" ++ Js.dquote ++ ",12]}"
  /\ JSON.quote ("a" ++ Js.lf ++ "b") = Js.dquote ++ "a" ++ Js.backslash ++ "nb" ++ Js.dquote
  /\ JSON.quote (String (ascii_of_nat 1) EmptyString)
     = Js.dquote ++ Js.backslash ++ "u0001" ++ Js.dquote.
Proof. repeat split. Qed.

(** The constants of SHA-256, as the standard lists them. *)
Example sha256_constants :
  hd 0%N Sha256.K = 0x428a2f98%N /\ last Sha256.K = Some 0xc67178f2%N
  /\ length Sha256.K = 64 /\ hd 0%N Sha256.H0 = 0x6a09e667%N.
Proof. repeat split. Qed.

(** ** Strings *)

Lemma append_nil_l (a : string) : EmptyString ++ a = a.
Proof. reflexivity. Qed.

Lemma append_cons (c : ascii) (a b : string) : String c a ++ b = String c (a ++ b).
Proof. reflexivity. Qed.

Lemma append_assoc (a b c : string) : (a ++ b) ++ c = a ++ (b ++ c).
Proof. induction a as [|x a IH]; [reflexivity | now rewrite !append_cons, IH]. Qed.

Lemma append_nil_r (a : string) : a ++ EmptyString = a.
Proof. induction a as [|x a IH]; [reflexivity | now rewrite append_cons, IH]. Qed.

(** ** The monad *)

Section MonadLaws.

Context {A B : Type}.

Lemma bind_ret (a : A) (k : A -> M B) (w : World) : bind (ret a) k w = k a w.
Proof. reflexivity. Qed.

(** Nothing sequenced after a throw runs: the result does not mention [k]. *)
Lemma bind_throw (e : JsError) (k : A -> M B) (w : World) :
  bind (throw e) k w = (Throw e, w).
Proof. reflexivity. Qed.

Lemma bind_thrown (m : M A) (k : A -> M B) (e : JsError) (w w' : World) :
  m w = (Throw e, w') -> bind m k w = (Throw e, w').
Proof. intros H. unfold bind. now rewrite H. Qed.

Lemma bind_returned (m : M A) (k : A -> M B) (a : A) (w w' : World) :
  m w = (Ok a, w') -> bind m k w = k a w'.
Proof. intros H. unfold bind. now rewrite H. Qed.

End MonadLaws.

(** ** The pre-hook of the gatekeeper *)

Lemma truthy_false_cases (v : option string) :
  Js.truthy v = false <-> v = None \/ v = Some EmptyString.
Proof.
  destruct v as [[|c s]|]; simpl; split; intros H; auto; try discriminate.
  - destruct H as [H|H]; discriminate.
Qed.

Lemma executePreHook_world {P} (toolName : string) (params : P) (w : World) :
  snd (executePreHook toolName params w) = w.
Proof.
  unfold executePreHook.
  destruct (_ || _); [destruct (negb _)|]; reflexivity.
Qed.

(** A mutating tool passes the pre-hook once a non-empty id is stored. *)
Lemma executePreHook_passes_with_intent {P} (toolName : string) (params : P) (w : World) :
  Js.truthy (activeIntentId w) = true ->
  executePreHook toolName params w = (Ok tt, w).
Proof.
  intros H. unfold executePreHook. rewrite H. simpl.
  now destruct (_ || _).
Qed.

(** C1. A [write_to_file] or [execute_command] request made while no active
    intent is stored ([activeIntentId] is [null], or empty) is stopped by the
    pre-hook, which throws the error that reports the missing intent (the
    governance violation), before the wrapped action: whatever is sequenced
    after the pre-hook is not run, the world is left as it was, and the
    ledger holds as many entries as before. *)
Theorem executePreHook_blocks_without_intent :
  forall (P A : Type) (toolName : string) (params : P) (action : M A) (w : World),
    toolName = "write_to_file" \/ toolName = "execute_command" ->
    Js.truthy (activeIntentId w) = false ->
    executePreHook toolName params w = (Throw GovernanceViolation, w)
    /\ (executePreHook toolName params ;; action) w = (Throw GovernanceViolation, w)
    /\ entryCount (traceFile (snd ((executePreHook toolName params ;; action) w)))
       = entryCount (traceFile w).
Proof.
  intros P A toolName params action w Htool Hnone.
  assert (Hpre : executePreHook toolName params w = (Throw GovernanceViolation, w)).
  { unfold executePreHook. rewrite Hnone. simpl.
    destruct Htool as [-> | ->]; reflexivity. }
  split; [exact Hpre|].
  rewrite (bind_thrown _ _ _ _ _ Hpre). split; reflexivity.
Qed.

Lemma executePreHook_blocks_without_intent_witness :
  let d := {| filePath := "src/core/a.ts"; content := "changed";
              intent_id := "INT-001"; mutation_class := AST_REFACTOR |} in
  (executePreHook "write_to_file" d ;; writeThenLog demoHost d) (initialWorld sampleFiles)
  = (Throw GovernanceViolation, initialWorld sampleFiles).
Proof.
  intros d.
  apply (executePreHook_blocks_without_intent WriteFileSchema string "write_to_file" d
           (writeThenLog demoHost d) (initialWorld sampleFiles)).
  - left; reflexivity.
  - reflexivity.
Defined.

(** The same request after a selection: the pre-hook passes, the file is
    written and the post-hook adds one entry. *)
Lemma hooked_write_after_selection :
  let d := {| filePath := "src/core/a.ts"; content := "changed";
              intent_id := "INT-001"; mutation_class := AST_REFACTOR |} in
  let run := (select_active_intent "INT-001" ;;
              executePreHook "write_to_file" d ;;
              writeThenLog demoHost d) (initialWorld sampleFiles) in
  fst run = Ok "written"
  /\ workspace (snd run) !! "src/core/a.ts" = Some "changed"
  /\ entryCount (traceFile (snd run)) = 1.
Proof. repeat split; vm_compute; reflexivity. Qed.

(** C10. The pre-hook looks for an active intent only when the tool is
    [write_to_file] or [execute_command]: for any other tool name it
    returns without error, whether or not an intent is selected. *)
Theorem executePreHook_ignores_other_tools :
  forall (P : Type) (toolName : string) (params : P) (w : World),
    toolName <> "write_to_file" ->
    toolName <> "execute_command" ->
    executePreHook toolName params w = (Ok tt, w).
Proof.
  intros P toolName params w H1 H2. unfold executePreHook.
  apply String.eqb_neq in H1. apply String.eqb_neq in H2.
  now rewrite H1, H2.
Qed.

Lemma executePreHook_ignores_other_tools_witness :
  executePreHook "apply_diff" tt (initialWorld ∅) = (Ok tt, initialWorld ∅)
  /\ executePreHook "delete_file" tt (initialWorld ∅) = (Ok tt, initialWorld ∅).
Proof.
  split.
  - apply (executePreHook_ignores_other_tools unit "apply_diff" tt (initialWorld ∅));
      discriminate.
  - apply (executePreHook_ignores_other_tools unit "delete_file" tt (initialWorld ∅));
      discriminate.
Defined.

(** ** Command classification *)

Lemma includes_In (l : list string) (x : string) :
  Js.includes l x = true <-> In x l.
Proof.
  unfold Js.includes. rewrite existsb_exists. split.
  - intros [y [Hy Heq]]. apply String.eqb_eq in Heq. now subst.
  - intros H. exists x. split; [assumption | apply String.eqb_refl].
Qed.

Lemma includes_not_In (l : list string) (x : string) :
  Js.includes l x = false <-> ~ In x l.
Proof.
  rewrite <- includes_In. destruct (Js.includes l x); split; intros H;
    try reflexivity; try discriminate; try congruence.
Qed.

Lemma classifyCommand_safe (c : string) :
  PreHook.classifyCommand c = Ok Safe <-> In c PreHook.safeCommands.
Proof.
  unfold PreHook.classifyCommand. rewrite <- includes_In.
  destruct (Js.includes PreHook.safeCommands c); [tauto|].
  destruct (Js.includes PreHook.destructiveCommands c); split; intros H; discriminate.
Qed.

Lemma classifyCommand_destructive (c : string) :
  PreHook.classifyCommand c = Ok Destructive <-> In c PreHook.destructiveCommands.
Proof.
  unfold PreHook.classifyCommand. split.
  - destruct (Js.includes PreHook.safeCommands c); [discriminate|].
    destruct (Js.includes PreHook.destructiveCommands c) eqn:E; [|discriminate].
    intros _. now apply includes_In.
  - intros H.
    assert (Hs : Js.includes PreHook.safeCommands c = false).
    { simpl in H. decompose [or] H; subst; try reflexivity; contradiction. }
    rewrite Hs. apply includes_In in H. now rewrite H.
Qed.

(** C7. The classification reads a closed table: [read_file] is Safe,
    [delete_file] is Destructive, and a name in neither list, such as
    [frobnicate], makes [classifyCommand] throw the unknown-command error. *)
Theorem classifyCommand_closed_table :
  PreHook.classifyCommand "read_file" = Ok Safe
  /\ PreHook.classifyCommand "delete_file" = Ok Destructive
  /\ PreHook.classifyCommand "frobnicate" = Throw (UnknownCommand "frobnicate")
  /\ (forall c : string,
        ~ In c PreHook.safeCommands -> ~ In c PreHook.destructiveCommands ->
        PreHook.classifyCommand c = Throw (UnknownCommand c))
  /\ (forall c : string,
        In c PreHook.safeCommands \/ In c PreHook.destructiveCommands \/
        PreHook.classifyCommand c = Throw (UnknownCommand c)).
Proof.
  split; [reflexivity|]. split; [reflexivity|]. split; [reflexivity|]. split.
  - intros c Hs Hd. unfold PreHook.classifyCommand.
    apply includes_not_In in Hs. apply includes_not_In in Hd. now rewrite Hs, Hd.
  - intros c. unfold PreHook.classifyCommand.
    destruct (Js.includes PreHook.safeCommands c) eqn:Es.
    + left. now apply includes_In.
    + destruct (Js.includes PreHook.destructiveCommands c) eqn:Ed.
      * right; left. now apply includes_In.
      * right; right. reflexivity.
Qed.

Lemma classifyCommand_closed_table_witness :
  PreHook.classifyCommand "rm -rf" = Throw (UnknownCommand "rm -rf").
Proof.
  destruct classifyCommand_closed_table as (_ & _ & _ & Hunknown & _).
  apply Hunknown; simpl; intros H; decompose [or] H; try discriminate; assumption.
Defined.

(** ** Authorization *)

(** C9. A command classified Safe is granted at once: the computation is
    finished with [true] and shows no warning. A command classified
    Destructive stops at the modal warning with the buttons Approve and
    Reject, and resumes with the answer: it returns [true] for Approve and
    [false], the denial, for every other answer, Reject and a dismissed
    dialog alike. The denial is a value: nothing is thrown. *)
Theorem authorizeCommand_by_classification :
  forall command : string,
    (PreHook.classifyCommand command = Ok Safe ->
       PreHook.authorizeCommand command = Done (Ok true)
       /\ forall answer, runInteraction answer (PreHook.authorizeCommand command)
                         = (Ok true, []))
    /\ (PreHook.classifyCommand command = Ok Destructive ->
          PreHook.authorizeCommand command
          = ShowWarningMessage (PreHook.warningText command) ["Approve"; "Reject"]
              (fun userResponse => Done (Ok (bool_decide (userResponse = Some "Approve"))))
          /\ forall answer,
               snd (runInteraction answer (PreHook.authorizeCommand command))
               = [PreHook.warningText command]
               /\ (fst (runInteraction answer (PreHook.authorizeCommand command)) = Ok true
                   <-> answer (PreHook.warningText command) = Some "Approve")
               /\ (fst (runInteraction answer (PreHook.authorizeCommand command)) = Ok false
                   <-> answer (PreHook.warningText command) <> Some "Approve")
               /\ (answer (PreHook.warningText command) = Some "Reject" ->
                   fst (runInteraction answer (PreHook.authorizeCommand command)) = Ok false)).
Proof.
  intros command. unfold PreHook.authorizeCommand. split; intros ->.
  - split; reflexivity.
  - split; [reflexivity|]. intros answer. simpl.
    split; [reflexivity|].
    case_bool_decide as Hd.
    + rewrite Hd. repeat split; intros; congruence.
    + repeat split; intros; congruence.
Qed.

Lemma authorizeCommand_by_classification_witness :
  PreHook.authorizeCommand "read_file" = Done (Ok true)
  /\ fst (runInteraction (fun _ => Some "Reject") (PreHook.authorizeCommand "delete_file"))
     = Ok false.
Proof.
  split.
  - apply (proj1 (authorizeCommand_by_classification "read_file")). reflexivity.
  - destruct (proj2 (authorizeCommand_by_classification "delete_file") eq_refl) as [_ H].
    apply (H (fun _ => Some "Reject")). reflexivity.
Defined.

(** C9, as the specification states it, does not hold: a rejected
    Destructive command does not fail. For [delete_file] answered with
    Reject the call returns [false], and no error is thrown. *)
Lemma denial_is_not_an_error :
  PreHook.classifyCommand "delete_file" = Ok Destructive
  /\ fst (runInteraction (fun _ => Some "Reject") (PreHook.authorizeCommand "delete_file"))
     = Ok false
  /\ ~ Spec.DenialIsAnError.
Proof.
  split; [reflexivity|]. split; [reflexivity|]. intros H.
  destruct (proj1 (H "delete_file" (fun _ => Some "Reject") eq_refl) eq_refl) as [e He].
  discriminate He.
Qed.

(** X20. An unlisted command is not prompted for: the classification error
    is what the caller gets. *)
Lemma authorizeCommand_unknown (command : string) :
  ~ In command PreHook.safeCommands -> ~ In command PreHook.destructiveCommands ->
  PreHook.authorizeCommand command = Done (Throw (UnknownCommand command)).
Proof.
  intros Hs Hd. unfold PreHook.authorizeCommand, PreHook.classifyCommand.
  apply includes_not_In in Hs. apply includes_not_In in Hd. now rewrite Hs, Hd.
Qed.

(** ** One active intent for the whole process *)

Lemma stepEvent_activeIntentId (e : Event) (w : World) :
  activeIntentId (snd (stepEvent e w)) = lastSelected [e] (activeIntentId w).
Proof.
  destruct e as [s [i|t]]; unfold stepEvent; simpl.
  - reflexivity.
  - pose proof (executePreHook_world t tt w) as H.
    destruct (executePreHook t tt w) as [r w']. simpl in *. now subst.
Qed.

Lemma runEvents_activeIntentId (es : list Event) (w : World) :
  activeIntentId (snd (runEvents es w)) = lastSelected es (activeIntentId w).
Proof.
  revert w. induction es as [|e es IH]; intros w; [reflexivity|].
  simpl. pose proof (stepEvent_activeIntentId e w) as He.
  destruct (stepEvent e w) as [o w1]. specialize (IH w1).
  destruct (runEvents es w1) as [os w2]. simpl in *.
  rewrite IH, He. destruct e as [s [i|t]]; reflexivity.
Qed.

Lemma lastSelected_app (es1 es2 : list Event) (current : option string) :
  lastSelected (es1 ++ es2) current = lastSelected es2 (lastSelected es1 current).
Proof.
  revert current. induction es1 as [|[s [i|t]] es1 IH]; intros current; simpl; auto.
Qed.

(** C8, as the code has it. The active intent is one variable of the
    gatekeeper module, shared by every caller in the process: after any
    interleaving of events, the pre-hook evaluated for any session [b] reads
    the id stored by the last selection of any session, so a selection made
    by session [a] decides the verdict session [b] gets. *)
Theorem active_intent_is_process_wide :
  forall (es : list Event) (w : World) (a b : nat) (i toolName : string),
    activeIntentId (snd (runEvents es w)) = lastSelected es (activeIntentId w)
    /\ activeIntentId (snd (runEvents (es ++ [(a, SelectIntent i)]) w)) = Some i
    /\ fst (stepEvent (b, CallTool toolName) (snd (runEvents es w)))
       = (b, Gated (if (String.eqb toolName "write_to_file"
                        || String.eqb toolName "execute_command")
                       && negb (Js.truthy (lastSelected es (activeIntentId w)))
                    then Throw GovernanceViolation else Ok tt)).
Proof.
  intros es w a b i toolName. split; [apply runEvents_activeIntentId|]. split.
  - rewrite runEvents_activeIntentId, lastSelected_app. reflexivity.
  - pose proof (runEvents_activeIntentId es w) as H.
    destruct (runEvents es w) as [os w']. simpl in *.
    unfold stepEvent, executePreHook. simpl. rewrite H.
    destruct (_ || _); simpl; [|reflexivity].
    destruct (Js.truthy _); reflexivity.
Qed.

(** C8, as stated, fails: session 1 selects nothing, and its write is let
    through as soon as session 0 has selected an intent. *)
Lemma session_isolation_fails : ~ Spec.SessionIsolation.
Proof.
  intros H.
  specialize (H 1 [(0, SelectIntent "INT-A"); (1, CallTool "write_to_file")] ∅).
  vm_compute in H. discriminate H.
Qed.

(** ** The backtracking search finds a match exactly when there is one *)

Section Search.

Variables (ic : bool) (cl : RegExp.CharClass) (k : RegExp.Cont).

Lemma greedyLoop_some (s : string) (pos : nat) (gs ge : option nat) :
  isSome (RegExp.greedyLoop ic cl k s pos gs ge) = true <->
  exists taken rest : string,
    s = taken ++ rest
    /\ Js.allChars (RegExp.classMatches ic cl) taken = true
    /\ isSome (k rest (pos + String.length taken) gs ge) = true.
Proof.
  revert pos. induction s as [|c s IH]; intros pos; cbn [RegExp.greedyLoop].
  - split.
    + intros H. exists EmptyString, EmptyString. cbn [Js.allChars String.length]. now rewrite Nat.add_0_r.
    + intros (taken & rest & Hs & _ & Hk).
      destruct taken; [|discriminate Hs]. rewrite append_nil_l in Hs. subst rest.
      cbn [String.length] in Hk. now rewrite Nat.add_0_r in Hk.
  - destruct (RegExp.classMatches ic cl c) eqn:Hc.
    + destruct (RegExp.greedyLoop ic cl k s (S pos) gs ge) as [m|] eqn:Hloop.
      * split; [intros _ | reflexivity].
        destruct (proj1 (IH (S pos))) as (taken & rest & -> & Hall & Hk);
          [now rewrite Hloop|].
        exists (String c taken), rest. cbn [Js.allChars String.length].
        rewrite Hc, Hall, Nat.add_succ_r. auto.
      * split.
        -- intros H. exists EmptyString, (String c s). cbn [Js.allChars String.length]. now rewrite Nat.add_0_r.
        -- intros (taken & rest & Hs & Hall & Hk). destruct taken as [|c' taken].
           ++ rewrite append_nil_l in Hs. subst rest. cbn [String.length] in Hk. now rewrite Nat.add_0_r in Hk.
           ++ rewrite append_cons in Hs. injection Hs as -> ->.
              cbn [Js.allChars] in Hall. apply andb_prop in Hall as [_ Hall].
              cbn [String.length] in Hk. rewrite Nat.add_succ_r in Hk.
              assert (Hsome : isSome (RegExp.greedyLoop ic cl k (taken ++ rest) (S pos) gs ge)
                              = true) by (apply IH; eauto).
              rewrite Hloop in Hsome. discriminate Hsome.
    + split.
      * intros H. exists EmptyString, (String c s). cbn [Js.allChars String.length]. now rewrite Nat.add_0_r.
      * intros (taken & rest & Hs & Hall & Hk). destruct taken as [|c' taken].
        -- rewrite append_nil_l in Hs. subst rest. cbn [String.length] in Hk. now rewrite Nat.add_0_r in Hk.
        -- rewrite append_cons in Hs. injection Hs as -> ->.
           cbn [Js.allChars] in Hall. rewrite Hc in Hall. discriminate Hall.
Qed.

Lemma lazyLoop_some (s : string) (pos : nat) (gs ge : option nat) :
  isSome (RegExp.lazyLoop ic cl k s pos gs ge) = true <->
  exists taken rest : string,
    s = taken ++ rest
    /\ Js.allChars (RegExp.classMatches ic cl) taken = true
    /\ isSome (k rest (pos + String.length taken) gs ge) = true.
Proof.
  revert pos. induction s as [|c s IH]; intros pos; cbn [RegExp.lazyLoop].
  - destruct (k EmptyString pos gs ge) as [m|] eqn:Hk0.
    + split; [intros _ | reflexivity].
      exists EmptyString, EmptyString. cbn [Js.allChars String.length]. now rewrite Nat.add_0_r, Hk0.
    + split; [discriminate|].
      intros (taken & rest & Hs & _ & Hk).
      destruct taken; [|discriminate Hs]. rewrite append_nil_l in Hs. subst rest.
      cbn in Hk. rewrite Nat.add_0_r, Hk0 in Hk. discriminate Hk.
  - destruct (k (String c s) pos gs ge) as [m|] eqn:Hk0.
    + split; [intros _ | reflexivity].
      exists EmptyString, (String c s). cbn [Js.allChars String.length]. now rewrite Nat.add_0_r, Hk0.
    + destruct (RegExp.classMatches ic cl c) eqn:Hc.
      * rewrite (IH (S pos)). split.
        -- intros (taken & rest & -> & Hall & Hk).
           exists (String c taken), rest. cbn [Js.allChars String.length].
           rewrite Hc, Hall, Nat.add_succ_r. auto.
        -- intros (taken & rest & Hs & Hall & Hk). destruct taken as [|c' taken].
           ++ rewrite append_nil_l in Hs. subst rest. cbn [String.length] in Hk.
              rewrite Nat.add_0_r, Hk0 in Hk. discriminate Hk.
           ++ rewrite append_cons in Hs. injection Hs as -> ->.
              cbn [Js.allChars] in Hall. apply andb_prop in Hall as [_ Hall].
              cbn [String.length] in Hk. rewrite Nat.add_succ_r in Hk. eauto.
      * split; [discriminate|].
        intros (taken & rest & Hs & Hall & Hk). destruct taken as [|c' taken].
        -- rewrite append_nil_l in Hs. subst rest. cbn [String.length] in Hk.
           rewrite Nat.add_0_r, Hk0 in Hk. discriminate Hk.
        -- rewrite append_cons in Hs. injection Hs as -> ->.
           cbn [Js.allChars] in Hall. rewrite Hc in Hall. discriminate Hall.
Qed.

End Search.

Lemma split_nil (taken rest : string) :
  EmptyString = taken ++ rest -> taken = EmptyString /\ rest = EmptyString.
Proof.
  intros H. destruct taken; [rewrite append_nil_l in H; auto | discriminate H].
Qed.

Lemma split_cons (c : ascii) (s taken rest : string) :
  String c s = taken ++ rest ->
  (taken = EmptyString /\ rest = String c s)
  \/ (exists t, taken = String c t /\ s = t ++ rest).
Proof.
  intros H. destruct taken as [|c' t]; [left | right].
  - rewrite append_nil_l in H. auto.
  - rewrite append_cons in H. injection H as -> ->. eauto.
Qed.

(** The search from an index succeeds exactly on the inputs [Accepts]
    describes. *)
Lemma matchFrom_accepts (ic : bool) (r : list RegExp.Node) (s : string) (pos : nat)
    (gs ge : option nat) :
  isSome (RegExp.matchFrom ic r s pos gs ge) = true <-> Accepts ic r s pos.
Proof.
  revert s pos gs ge. induction r as [|node r IH]; intros s pos gs ge.
  - cbn. tauto.
  - destruct node as [cl q| | | |]; cbn [RegExp.matchFrom Accepts].
    + assert (Hzero : isSome (RegExp.matchFrom ic r s pos gs ge) = true ->
                      exists taken rest : string,
                        s = taken ++ rest
                        /\ Js.allChars (RegExp.classMatches ic cl) taken = true
                        /\ String.length taken = 0
                        /\ Accepts ic r rest (pos + String.length taken)).
      { intros H. apply IH in H. exists EmptyString, s.
        cbn [Js.allChars String.length]. rewrite Nat.add_0_r. auto. }
      assert (Hloop : (exists taken rest : string,
                         s = taken ++ rest
                         /\ Js.allChars (RegExp.classMatches ic cl) taken = true
                         /\ isSome (RegExp.matchFrom ic r rest (pos + String.length taken) gs ge)
                            = true)
                      <-> (exists taken rest : string,
                             s = taken ++ rest
                             /\ Js.allChars (RegExp.classMatches ic cl) taken = true
                             /\ True
                             /\ Accepts ic r rest (pos + String.length taken))).
      { split.
        - intros (taken & rest & Hs & Hall & Hk). apply IH in Hk. eauto 8.
        - intros (taken & rest & Hs & Hall & _ & H). exists taken, rest.
          repeat split; auto. now apply IH. }
      destruct q; cbn [runLengthOk].
      * (* One *)
        destruct s as [|c s].
        { split; [discriminate|]. intros (taken & rest & Hs & _ & Hlen & _).
          apply split_nil in Hs as [-> _]. discriminate Hlen. }
        destruct (RegExp.classMatches ic cl c) eqn:Hc.
        -- rewrite IH. split.
           ++ intros H. exists (String c EmptyString), s.
              cbn [Js.allChars String.length]. rewrite Hc, Nat.add_1_r. auto.
           ++ intros (taken & rest & Hs & _ & Hlen & H).
              apply split_cons in Hs as [[-> _] | (t & -> & ->)]; [discriminate Hlen|].
              destruct t; [|discriminate Hlen].
              rewrite append_nil_l. cbn [String.length] in H. now rewrite Nat.add_1_r in H.
        -- split; [discriminate|]. intros (taken & rest & Hs & Hall & Hlen & _).
           apply split_cons in Hs as [[-> _] | (t & -> & _)]; [discriminate Hlen|].
           cbn [Js.allChars] in Hall. rewrite Hc in Hall. discriminate.
      * (* Star *)
        rewrite greedyLoop_some. exact Hloop.
      * (* Plus *)
        destruct s as [|c s].
        { split; [discriminate|]. intros (taken & rest & Hs & _ & Hlen & _).
          apply split_nil in Hs as [-> _]. cbn in Hlen. lia. }
        destruct (RegExp.classMatches ic cl c) eqn:Hc.
        -- rewrite greedyLoop_some. split.
           ++ intros (taken & rest & -> & Hall & Hk). apply IH in Hk.
              exists (String c taken), rest. cbn [Js.allChars String.length].
              rewrite Hc, Hall, Nat.add_succ_r. repeat split; auto. lia.
           ++ intros (taken & rest & Hs & Hall & Hlen & H).
              apply split_cons in Hs as [[-> _] | (t & -> & ->)]; [cbn in Hlen; lia|].
              cbn [Js.allChars] in Hall. apply andb_prop in Hall as [_ Hall].
              cbn [String.length] in H. rewrite Nat.add_succ_r in H.
              exists t, rest. repeat split; auto. now apply IH.
        -- split; [discriminate|]. intros (taken & rest & Hs & Hall & Hlen & _).
           apply split_cons in Hs as [[-> _] | (t & -> & _)]; [cbn in Hlen; lia|].
           cbn [Js.allChars] in Hall. rewrite Hc in Hall. discriminate.
      * (* Opt *)
        assert (Hnone : isSome (RegExp.matchFrom ic r s pos gs ge) = true ->
                        exists taken rest : string,
                          s = taken ++ rest
                          /\ Js.allChars (RegExp.classMatches ic cl) taken = true
                          /\ String.length taken <= 1
                          /\ Accepts ic r rest (pos + String.length taken)).
        { intros H. destruct (Hzero H) as (taken & rest & Hs & Hall & Hlen & Hacc).
          exists taken, rest. repeat split; auto. lia. }
        assert (Hback : forall rest,
                   Accepts ic r rest (pos + 0) -> s = rest ->
                   isSome (RegExp.matchFrom ic r s pos gs ge) = true).
        { intros rest H ->. rewrite Nat.add_0_r in H. now apply IH. }
        destruct s as [|c s].
        { split; [exact Hnone|]. intros (taken & rest & Hs & _ & _ & H).
          apply split_nil in Hs as [-> ->]. now apply (Hback EmptyString). }
        destruct (RegExp.classMatches ic cl c) eqn:Hc.
        -- destruct (RegExp.matchFrom ic r s (S pos) gs ge) as [m|] eqn:Hone.
           ++ split; [intros _ | reflexivity].
              exists (String c EmptyString), s. cbn [Js.allChars String.length].
              rewrite Hc, Nat.add_1_r. repeat split; auto.
              apply (IH s (S pos) gs ge). now rewrite Hone.
           ++ split; [exact Hnone|]. intros (taken & rest & Hs & Hall & Hlen & H).
              apply split_cons in Hs as [[-> ->] | (t & -> & ->)].
              ** now apply (Hback (String c s)).
              ** destruct t; [|cbn in Hlen; lia].
                 cbn [String.length] in H. rewrite Nat.add_1_r in H.
                 rewrite append_nil_l in Hone.
                 apply (IH rest (S pos) gs ge) in H. rewrite Hone in H. discriminate.
        -- split; [exact Hnone|]. intros (taken & rest & Hs & Hall & Hlen & H).
           apply split_cons in Hs as [[-> ->] | (t & -> & _)].
           ++ now apply (Hback (String c s)).
           ++ cbn [Js.allChars] in Hall. rewrite Hc in Hall. discriminate.
      * (* LazyStar *)
        rewrite lazyLoop_some. exact Hloop.
    + apply IH.
    + apply IH.
    + destruct (Nat.eqb pos 0) eqn:Hp.
      * apply Nat.eqb_eq in Hp. rewrite IH. tauto.
      * apply Nat.eqb_neq in Hp. split; [discriminate | tauto].
    + destruct s; [rewrite IH; tauto|]. split; [discriminate|]. intros [H _]. discriminate.
Qed.

(** [test] of an expression anchored at the start. *)
Lemma test_anchored_accepts (re : RegExp.t) (r : list RegExp.Node) (s : string) :
  RegExp.nodes re = RegExp.AssertStart :: r ->
  RegExp.test re s = true <-> Accepts (RegExp.ignoreCase re) r s 0.
Proof.
  intros Hre. unfold RegExp.test, RegExp.exec.
  rewrite <- (matchFrom_accepts (RegExp.ignoreCase re) r s 0 None None).
  destruct s as [|c s]; cbn [RegExp.execFrom]; unfold RegExp.matchAt; rewrite Hre;
    cbn [RegExp.matchFrom Nat.eqb].
  - destruct (RegExp.matchFrom _ r _ _ _ _); cbn; tauto.
  - destruct (RegExp.matchFrom _ r _ _ _ _); cbn; [tauto|].
    assert (Hnone : RegExp.execFrom re s 1 = None).
    { clear -Hre. generalize 0. induction s as [|d s IH]; intros n;
        cbn [RegExp.execFrom]; unfold RegExp.matchAt; rewrite Hre; cbn; [reflexivity|].
      apply IH. }
    rewrite Hnone. tauto.
Qed.

(** ** The regular-expression engine *)

(** An expression that starts with [^] matches at index 0 or nowhere. *)
Lemma execFrom_anchored (re : RegExp.t) (r : list RegExp.Node) (s : string) (n : nat) :
  RegExp.nodes re = RegExp.AssertStart :: r ->
  RegExp.execFrom re s (S n) = None.
Proof.
  intros Hre. revert n. induction s as [|c s IH]; intros n; simpl.
  - unfold RegExp.matchAt. rewrite Hre. reflexivity.
  - unfold RegExp.matchAt. rewrite Hre. simpl. apply IH.
Qed.

Lemma test_anchored (re : RegExp.t) (r : list RegExp.Node) (s : string) :
  RegExp.nodes re = RegExp.AssertStart :: r ->
  RegExp.test re s = isSome (RegExp.matchFrom (RegExp.ignoreCase re) r s 0 None None).
Proof.
  intros Hre. unfold RegExp.test, RegExp.exec.
  destruct s as [|c s]; simpl; unfold RegExp.matchAt; rewrite Hre; simpl.
  - now destruct (RegExp.matchFrom _ r _ _ _ _).
  - destruct (RegExp.matchFrom _ r _ _ _ _); [reflexivity|].
    now rewrite (execFrom_anchored re r s 0 Hre).
Qed.

(** A greedy class followed by [$] matches exactly when the class holds of
    every character left. *)
Lemma greedyLoop_to_end (ic : bool) (cl : RegExp.CharClass) (s : string)
    (pos : nat) (gs ge : option nat) :
  isSome (RegExp.greedyLoop ic cl (RegExp.matchFrom ic [RegExp.AssertEnd]) s pos gs ge)
  = Js.allChars (RegExp.classMatches ic cl) s.
Proof.
  revert pos. induction s as [|c s IH]; intros pos; simpl; [reflexivity|].
  destruct (RegExp.classMatches ic cl c); simpl; [|reflexivity].
  specialize (IH (S pos)).
  destruct (RegExp.greedyLoop _ _ _ s _ _ _); simpl in *; congruence.
Qed.

(** ** Scope enforcement *)

(** The two replacements, one after the other, turn [**] into a dot
    followed by the class of [*]: the star written by the first replacement
    is rewritten by the second. *)
Lemma scopeRegExpSource_double_star :
  PreHook.scopeRegExpSource "**" = "^.[^/]*$"
  /\ PreHook.scopeRegExpSource "src/core/**" = "^src/core/.[^/]*$"
  /\ PreHook.scopeRegExpSource "*" = "^[^/]*$".
Proof. repeat split. Qed.

(** What the pattern [**] allows: a path of at least one character with no
    separator after the first one. *)
Lemma double_star_allows (host : Host) (filePath : string) :
  PreHook.patternAllows host filePath "**"
  = Ok (match filePath with
        | String c s => negb (Js.isLineTerminator c) && Js.allChars notSlash s
        | EmptyString => false
        end).
Proof.
  unfold PreHook.patternAllows.
  set (rest := [RegExp.Atom RegExp.Dot RegExp.One;
                RegExp.Atom (RegExp.NoneOf ["/"%char]) RegExp.Star; RegExp.AssertEnd]).
  change (RegExp.parse (PreHook.scopeRegExpSource "**"))
    with (Some {| RegExp.nodes := RegExp.AssertStart :: rest; RegExp.ignoreCase := false |}).
  cbv beta iota. f_equal.
  rewrite (test_anchored
             {| RegExp.nodes := RegExp.AssertStart :: rest; RegExp.ignoreCase := false |}
             rest filePath eq_refl).
  subst rest. simpl.
  destruct filePath as [|c s]; [reflexivity|].
  destruct (Js.isLineTerminator c); simpl; [reflexivity|].
  rewrite greedyLoop_to_end. simpl.
  induction s as [|d s IH]; simpl; [reflexivity|].
  unfold notSlash at 1. unfold RegExp.sameChar. now rewrite orb_false_r, IH.
Qed.

Lemma some_true_iff (host : Host) (filePath : string) (patterns : list string) :
  PreHook.some host filePath patterns = Ok true <->
  exists before pattern after,
    patterns = (before ++ pattern :: after)%list
    /\ PreHook.patternAllows host filePath pattern = Ok true
    /\ Forall (fun p => PreHook.patternAllows host filePath p = Ok false) before.
Proof.
  induction patterns as [|p ps IH]; simpl.
  - split; [discriminate|]. intros (b & q & a & H & _). destruct b; discriminate.
  - destruct (PreHook.patternAllows host filePath p) as [[|]|e] eqn:E.
    + split; [|reflexivity]. intros _. exists [], p, ps. repeat split; auto.
    + rewrite IH. split.
      * intros (b & q & a & -> & Hq & Hb). exists (p :: b), q, a. repeat split; auto.
      * intros (b & q & a & Heq & Hq & Hb). destruct b as [|p' b].
        -- simpl in Heq. injection Heq as -> ->. congruence.
        -- simpl in Heq. injection Heq as -> ->. inversion Hb; subst.
           exists b, q, a. repeat split; auto.
    + split; [discriminate|]. intros (b & q & a & Heq & Hq & Hb).
      destruct b as [|p' b]; simpl in Heq; injection Heq as -> ->.
      * congruence.
      * inversion Hb; subst. congruence.
Qed.

(** When every pattern is inside the modelled fragment, [some] is the
    disjunction over the patterns. *)
Lemma some_is_or (host : Host) (filePath : string) (patterns : list string) :
  Forall (fun p => RegExp.parse (PreHook.scopeRegExpSource p) <> None) patterns ->
  PreHook.some host filePath patterns
  = Ok (existsb (fun p => match PreHook.patternAllows host filePath p with
                          | Ok true => true
                          | _ => false
                          end) patterns).
Proof.
  induction 1 as [|p ps Hp _ IH]; simpl; [reflexivity|].
  assert (Hok : exists b, PreHook.patternAllows host filePath p = Ok b).
  { unfold PreHook.patternAllows.
    destruct (RegExp.parse (PreHook.scopeRegExpSource p)) as [re|]; [eauto|congruence]. }
  destruct Hok as [[|] ->]; simpl; [reflexivity|]. now rewrite IH.
Qed.

(** [enforceScope] succeeds exactly when the scope is defined and [some]
    finds a pattern that allows the path. *)
Lemma enforceScope_ok_iff (host : Host) (filePath : string) (intent : Intent) :
  PreHook.enforceScope host filePath intent = Ok tt <->
  exists patterns, owned_scope intent = Some patterns
                   /\ PreHook.some host filePath patterns = Ok true.
Proof.
  unfold PreHook.enforceScope. destruct (owned_scope intent) as [ps|].
  - destruct (PreHook.some host filePath ps) as [[|]|e] eqn:E; split;
      try discriminate; try (intros (ps' & [= <-] & H); congruence).
    intros _. eauto.
  - split; [discriminate|]. intros (ps & H & _). discriminate.
Qed.

Lemma enforceScope_violation_iff (host : Host) (filePath : string) (intent : Intent) :
  PreHook.enforceScope host filePath intent = Throw (ScopeViolation (id intent) filePath) <->
  exists patterns, owned_scope intent = Some patterns
                   /\ (PreHook.some host filePath patterns = Ok false
                       \/ PreHook.some host filePath patterns
                          = Throw (ScopeViolation (id intent) filePath)).
Proof.
  unfold PreHook.enforceScope. destruct (owned_scope intent) as [ps|].
  - destruct (PreHook.some host filePath ps) as [[|]|e] eqn:E;
      (split; [intros H | intros (ps' & [= <-] & [H|H])]);
      try discriminate; try congruence; try (injection H as ->); eauto 6.
  - split; [discriminate|]. intros (ps & H & _). discriminate.
Qed.

(** The examples of the specification hold on the code: with the scope
    [src/core/**], a file directly under [src/core] is allowed and a file
    under [docs] is a scope violation. *)
Lemma enforceScope_examples (host : Host) :
  PreHook.enforceScope host "src/core/foo.txt" INT_001 = Ok tt
  /\ PreHook.enforceScope host "docs/readme.txt" INT_001
     = Throw (ScopeViolation "INT-001" "docs/readme.txt").
Proof. split; reflexivity. Qed.

(** A single star stays inside one path segment. *)
Lemma single_star_examples (host : Host) :
  PreHook.patternAllows host "src/hooks/PreHook.ts" "src/hooks/*.ts" = Ok true
  /\ PreHook.patternAllows host "src/hooks/engines/PreHook.ts" "src/hooks/*.ts" = Ok false.
Proof. split; reflexivity. Qed.

(** A dot of the pattern is not a literal: it is left in the source as the
    wildcard of the regular expression. *)
Lemma dot_is_a_wildcard (host : Host) :
  PreHook.patternAllows host "src/aXts" "src/a.ts" = Ok true
  /\ Spec.globMatches "src/a.ts" "src/aXts" = false.
Proof. split; reflexivity. Qed.

(** C3. With the scope [src/core/**] of intent INT-001, the code throws the
    scope violation for [src/core/sub/foo.txt], a path two segments below
    [src/core], and for [src/core/] itself, although [**] is to match zero
    or more path segments and the specification's reading of the pattern
    accepts both paths. *)
Theorem enforceScope_rejects_nested_path :
  forall host : Host,
    PreHook.enforceScope host "src/core/sub/foo.txt" INT_001
    = Throw (ScopeViolation "INT-001" "src/core/sub/foo.txt")
    /\ PreHook.enforceScope host "src/core/" INT_001
       = Throw (ScopeViolation "INT-001" "src/core/")
    /\ Spec.matches "src/core/sub/foo.txt" ["src/core/**"] = true
    /\ Spec.matches "src/core/" ["src/core/**"] = true.
Proof. intros host. repeat split. Qed.

(** ** Patterns on which the code and the specification agree *)

Ltac each_char c H :=
  destruct c as [[] [] [] [] [] [] [] []];
  try (vm_compute in H; discriminate H).

Lemma parseGo_plain_char (c : ascii) (rest : string) (acc : list RegExp.Node) :
  RegExp.isMeta c = false ->
  RegExp.parseGo (String c rest) acc
  = RegExp.parseGo rest (RegExp.Atom (RegExp.Chr c) RegExp.One :: acc).
Proof. intros H. each_char c H; reflexivity. Qed.

Lemma tokens_plain_char (c : ascii) (rest : string) :
  RegExp.isMeta c = false ->
  Spec.tokens (String c rest) = Spec.Literal c :: Spec.tokens rest.
Proof. intros H. each_char c H; reflexivity. Qed.

Lemma replaceStar_plain_char (c : ascii) (rest : string) :
  RegExp.isMeta c = false ->
  PreHook.replaceStar (String c rest) = String c (PreHook.replaceStar rest).
Proof. intros H. each_char c H; reflexivity. Qed.

Lemma replaceDoubleStar_plain_char (c : ascii) (rest : string) :
  RegExp.isMeta c = false ->
  PreHook.replaceDoubleStar (String c rest) = String c (PreHook.replaceDoubleStar rest).
Proof. intros H. each_char c H; reflexivity. Qed.

Lemma plainPattern_plain_char (c : ascii) (rest : string) :
  RegExp.isMeta c = false ->
  plainPattern (String c rest) = plainPattern rest.
Proof. intros H. each_char c H; reflexivity. Qed.

(** The first character of a plain pattern: a star not followed by a star,
    or an ordinary character. *)
Lemma plainPattern_cases (c : ascii) (s : string) :
  plainPattern (String c s) = true ->
  (c = "*"%char /\ plainPattern s = true
   /\ (s = EmptyString \/ exists d s', s = String d s' /\ RegExp.isMeta d = false))
  \/ (RegExp.isMeta c = false /\ plainPattern s = true).
Proof.
  destruct (RegExp.isMeta c) eqn:Hmeta.
  - destruct (Ascii.eqb c "*") eqn:Hstar.
    + apply Ascii.eqb_eq in Hstar. subst c. intros H. left. split; [reflexivity|].
      destruct s as [|d s']; [auto|].
      destruct (RegExp.isMeta d) eqn:Hd.
      * destruct (Ascii.eqb d "*") eqn:Hd2.
        -- apply Ascii.eqb_eq in Hd2. subst d. discriminate H.
        -- exfalso. revert H Hd Hd2. clear.
           intros H Hd Hd2. each_char d Hd; try discriminate Hd2; discriminate H.
      * split; [|right; eauto].
        revert H. each_char d Hd; intros H; exact H.
    + intros H. exfalso. revert H Hmeta Hstar. clear.
      intros H Hmeta Hstar.
      destruct c as [[] [] [] [] [] [] [] []];
        try discriminate Hmeta; try discriminate Hstar; discriminate H.
  - intros H. right. split; [reflexivity|].
    now rewrite plainPattern_plain_char in H.
Qed.

Lemma tokens_star_then_plain (d : ascii) (s : string) :
  RegExp.isMeta d = false ->
  Spec.tokens (String "*" (String d s)) = Spec.SingleStar :: Spec.tokens (String d s).
Proof. intros H. each_char d H; reflexivity. Qed.

Lemma replaceDoubleStar_star_then_plain (d : ascii) (s : string) :
  RegExp.isMeta d = false ->
  PreHook.replaceDoubleStar (String "*" (String d s))
  = String "*" (PreHook.replaceDoubleStar (String d s)).
Proof. intros H. each_char d H; reflexivity. Qed.

(** The first replacement leaves a plain pattern as it is. *)
Lemma replaceDoubleStar_plain (s : string) :
  plainPattern s = true -> PreHook.replaceDoubleStar s = s.
Proof.
  induction s as [|c s IH]; [reflexivity|]. intros H.
  destruct (plainPattern_cases c s H) as [(-> & Hs & [-> | (d & s' & -> & Hd)]) | [Hc Hs]].
  - reflexivity.
  - now rewrite replaceDoubleStar_star_then_plain, IH.
  - now rewrite replaceDoubleStar_plain_char, IH.
Qed.

Lemma tokens_star (s : string) :
  plainPattern (String "*" s) = true ->
  Spec.tokens (String "*" s) = Spec.SingleStar :: Spec.tokens s.
Proof.
  intros H.
  destruct (plainPattern_cases _ _ H) as [(_ & _ & [-> | (d & s' & -> & Hd)]) | [Hc _]].
  - reflexivity.
  - now apply tokens_star_then_plain.
  - discriminate Hc.
Qed.

(** The source written for a plain pattern is read back as the nodes of the
    specification's tokens. *)
Lemma parseGo_plain (s : string) (acc : list RegExp.Node) :
  plainPattern s = true ->
  RegExp.parseGo (PreHook.replaceStar s ++ "$") acc
  = Some (rev acc ++ map Spec.nodeOf (Spec.tokens s) ++ [RegExp.AssertEnd])%list.
Proof.
  revert acc. induction s as [|c s IH]; intros acc H; [reflexivity|].
  destruct (plainPattern_cases c s H) as [(-> & Hs & _) | [Hc Hs]].
  - rewrite (tokens_star s H).
    change (RegExp.parseGo (PreHook.replaceStar (String "*" s) ++ "$") acc)
      with (RegExp.parseGo (PreHook.replaceStar s ++ "$")
              (RegExp.Atom (RegExp.NoneOf ["/"%char]) RegExp.Star :: acc)).
    rewrite (IH _ Hs). cbn [rev map Spec.nodeOf]. now rewrite <- app_assoc.
  - rewrite (replaceStar_plain_char c s Hc), (tokens_plain_char c s Hc), append_cons.
    rewrite (parseGo_plain_char c _ acc Hc), (IH _ Hs).
    cbn [rev map Spec.nodeOf]. now rewrite <- app_assoc.
Qed.

(** For a plain pattern the callback of [some] computes the match of the
    specification. *)
Lemma patternAllows_plain (host : Host) (filePath pattern : string) :
  plainPattern pattern = true ->
  PreHook.patternAllows host filePath pattern = Ok (Spec.globMatches pattern filePath).
Proof.
  intros H. unfold PreHook.patternAllows, PreHook.scopeRegExpSource, RegExp.parse.
  rewrite (replaceDoubleStar_plain _ H).
  change (RegExp.parseGo ("^" ++ PreHook.replaceStar pattern ++ "$") [])
    with (RegExp.parseGo (PreHook.replaceStar pattern ++ "$") [RegExp.AssertStart]).
  rewrite (parseGo_plain _ _ H). cbn [option_map rev app].
  set (rest := (map Spec.nodeOf (Spec.tokens pattern) ++ [RegExp.AssertEnd])%list).
  f_equal.
  rewrite (test_anchored
             {| RegExp.nodes := RegExp.AssertStart :: rest; RegExp.ignoreCase := false |}
             rest filePath eq_refl).
  cbn [RegExp.ignoreCase]. unfold Spec.globMatches, isSome. reflexivity.
Qed.

Lemma some_plain (host : Host) (filePath : string) (patterns : list string) :
  forallb plainPattern patterns = true ->
  PreHook.some host filePath patterns = Ok (Spec.matches filePath patterns).
Proof.
  induction patterns as [|p ps IH]; [reflexivity|].
  cbn [forallb]. intros [Hp Hps]%andb_prop.
  cbn [PreHook.some]. rewrite (patternAllows_plain host filePath p Hp).
  unfold Spec.matches. cbn [existsb].
  destruct (Spec.globMatches p filePath); [reflexivity|]. now apply IH.
Qed.

(** X13. On scopes made of plain patterns, [enforceScope] succeeds exactly when
    the path matches one of the patterns in the specification's reading,
    and throws the scope violation otherwise. *)
Lemma enforceScope_plain (host : Host) (filePath : string) (intent : Intent)
    (patterns : list string) :
  owned_scope intent = Some patterns ->
  forallb plainPattern patterns = true ->
  (PreHook.enforceScope host filePath intent = Ok tt
   <-> Spec.matches filePath patterns = true)
  /\ (PreHook.enforceScope host filePath intent = Throw (ScopeViolation (id intent) filePath)
      <-> Spec.matches filePath patterns = false).
Proof.
  intros Hscope Hplain. unfold PreHook.enforceScope.
  rewrite Hscope, (some_plain host filePath patterns Hplain).
  destruct (Spec.matches filePath patterns); split; split; intros; congruence.
Qed.

Lemma enforceScope_plain_example (host : Host) :
  PreHook.enforceScope host "src/hooks/PreHook.ts"
    {| id := "INT-002"; name := None; owned_scope := Some ["docs/*"; "src/hooks/*-ts"];
       constraints := None; acceptance_criteria := None |}
  = Throw (ScopeViolation "INT-002" "src/hooks/PreHook.ts")
  /\ PreHook.enforceScope host "src/hooks/PreHook-ts"
       {| id := "INT-002"; name := None; owned_scope := Some ["docs/*"; "src/hooks/*-ts"];
          constraints := None; acceptance_criteria := None |}
     = Ok tt.
Proof. split; reflexivity. Qed.

(** ** Intent resolution *)

Lemma sampleRegistry_entry :
  PreHook.extractIntentBlock sampleRegistry "INT-001"
  = Some {| id := "INT-001"; name := Some "Core refactor";
            owned_scope := Some ["src/core/**"];
            constraints := Some ["No public API change"];
            acceptance_criteria := Some ["Unit tests pass"] |}
  /\ PreHook.extractIntentBlock sampleRegistry "INT-404" = None.
Proof. split; vm_compute; reflexivity. Qed.

Lemma validate_world (i : option string) (w : World) :
  snd (PreHook.validate i w) = w.
Proof.
  unfold PreHook.validate. destruct i as [s|]; [|reflexivity].
  destruct (_ || _); [reflexivity|].
  destruct (workspace w !! PreHook.intentsFile) as [yaml|]; [|reflexivity].
  destruct (PreHook.extractIntentBlock yaml s); reflexivity.
Qed.

(** An absent id, and an id that is empty once trimmed, are refused. *)
Lemma validate_missing (i : option string) (w : World) :
  i = None \/ (exists s, i = Some s /\ Js.trim s = EmptyString) ->
  PreHook.validate i w = (Throw MissingIntent, w).
Proof.
  intros [-> | (s & -> & Htrim)]; [reflexivity|].
  unfold PreHook.validate. rewrite Htrim. simpl. now rewrite orb_true_r.
Qed.

Lemma trim_nonempty_truthy (s : string) :
  Js.trim s <> EmptyString -> Js.truthy (Some s) = true.
Proof. destruct s; [intros H; now contradiction H | reflexivity]. Qed.

Lemma length_zero_empty (s : string) :
  Nat.eqb (String.length s) 0 = true <-> s = EmptyString.
Proof. destruct s; simpl; split; intros; congruence. Qed.

(** An id the registry does not have, or a registry that cannot be read,
    gives the stub instead of an error. *)
Lemma validate_degraded (s : string) (w : World) :
  Js.trim s <> EmptyString ->
  (workspace w !! PreHook.intentsFile = None
   \/ exists yaml, workspace w !! PreHook.intentsFile = Some yaml
                   /\ PreHook.extractIntentBlock yaml s = None) ->
  PreHook.validate (Some s) w = (Ok (PreHook.permissiveStub s), w).
Proof.
  intros Htrim Hreg. unfold PreHook.validate.
  rewrite (trim_nonempty_truthy s Htrim). simpl.
  destruct (Nat.eqb (String.length (Js.trim s)) 0) eqn:E.
  { apply length_zero_empty in E. contradiction. }
  destruct Hreg as [-> | (yaml & -> & ->)]; reflexivity.
Qed.

Lemma validate_resolved (s yaml : string) (block : Intent) (w : World) :
  Js.trim s <> EmptyString ->
  workspace w !! PreHook.intentsFile = Some yaml ->
  PreHook.extractIntentBlock yaml s = Some block ->
  PreHook.validate (Some s) w = (Ok block, w).
Proof.
  intros Htrim Hfile Hblock. unfold PreHook.validate.
  rewrite (trim_nonempty_truthy s Htrim). simpl.
  destruct (Nat.eqb (String.length (Js.trim s)) 0) eqn:E.
  { apply length_zero_empty in E. contradiction. }
  now rewrite Hfile, Hblock.
Qed.

(** A record read from the registry carries the three lists, empty or not. *)
Lemma findEntry_fields (es : list string) (i : string) (r : Intent) :
  PreHook.findEntry es i = Some r ->
  id r = i /\ owned_scope r <> None /\ constraints r <> None
  /\ acceptance_criteria r <> None.
Proof.
  induction es as [|e es IH]; simpl; [discriminate|].
  case_bool_decide; [|exact IH].
  intros [= <-]. simpl. repeat split; discriminate.
Qed.

(** X5. The stub can be told from a resolved record in the result of
    [validate]: the stub has no [constraints] and no [acceptance_criteria]
    field, a resolved record has both. *)
Lemma validate_stub_distinguishable (i : option string) (r : Intent) (w w' : World) :
  PreHook.validate i w = (Ok r, w') ->
  (constraints r = None
   /\ (exists s, i = Some s /\ r = PreHook.permissiveStub s)
   /\ (workspace w !! PreHook.intentsFile = None
       \/ exists yaml s, i = Some s /\ workspace w !! PreHook.intentsFile = Some yaml
                         /\ PreHook.extractIntentBlock yaml s = None))
  \/ (constraints r <> None
      /\ exists yaml s, i = Some s /\ workspace w !! PreHook.intentsFile = Some yaml
                        /\ PreHook.extractIntentBlock yaml s = Some r).
Proof.
  unfold PreHook.validate. destruct i as [s|]; [|discriminate].
  destruct (_ || _); [discriminate|].
  destruct (workspace w !! PreHook.intentsFile) as [yaml|] eqn:Hfile.
  - destruct (PreHook.extractIntentBlock yaml s) as [block|] eqn:Hblock.
    + intros [= <- <-]. right. split; [|eauto].
      now apply (findEntry_fields _ _ _ Hblock).
    + intros [= <- <-]. left. repeat split; eauto 8.
  - intros [= <- <-]. left. repeat split; eauto.
Qed.

(** X12. What the scope of the stub allows: paths of one segment only, that
    is a first character that is no line terminator and then no separator. *)
Lemma permissiveStub_scope (host : Host) (i filePath : string) :
  PreHook.enforceScope host filePath (PreHook.permissiveStub i) = Ok tt <->
  exists c s, filePath = String c s /\ Js.isLineTerminator c = false
              /\ Js.allChars notSlash s = true.
Proof.
  unfold PreHook.enforceScope.
  change (owned_scope (PreHook.permissiveStub i)) with (Some ["**"]).
  cbn [PreHook.some]. rewrite double_star_allows.
  change (id (PreHook.permissiveStub i)) with i.
  destruct filePath as [|c s].
  - split; [discriminate|]. intros (c & s & H & _). discriminate.
  - destruct (Js.isLineTerminator c) eqn:Ec; simpl.
    + split; [discriminate|]. intros (c' & s' & [= <- <-] & H & _). congruence.
    + destruct (Js.allChars notSlash s) eqn:Es; split; try discriminate; eauto.
      intros (c' & s' & [= <- <-] & _ & H). congruence.
Qed.

(** C4. For the id INT-404, which the registry does not list, [validate]
    returns the stub with scope [**] instead of failing, and an absent or
    blank id is refused; but the stub's scope does not match everything:
    [enforceScope] throws the scope violation for [src/core/foo.txt], and
    for any path with a separator after its first character. *)
Theorem permissive_stub_rejects_paths :
  forall host : Host,
    let w := initialWorld sampleFiles in
    PreHook.validate None w = (Throw MissingIntent, w)
    /\ PreHook.validate (Some "   ") w = (Throw MissingIntent, w)
    /\ PreHook.validate (Some "INT-404") w = (Ok (PreHook.permissiveStub "INT-404"), w)
    /\ owned_scope (PreHook.permissiveStub "INT-404") = Some ["**"]
    /\ PreHook.enforceScope host "src/core/foo.txt" (PreHook.permissiveStub "INT-404")
       = Throw (ScopeViolation "INT-404" "src/core/foo.txt")
    /\ PreHook.enforceScope host "README.md" (PreHook.permissiveStub "INT-404") = Ok tt.
Proof.
  intros host w. subst w. repeat split; vm_compute; reflexivity.
Qed.

(** ** The tool's own fallback *)

(** In the text the tool pushes, the stub and a registry entry with the same
    scope and no constraints read the same. *)
Lemma tool_stub_not_distinguishable (proxy : SelectActiveIntentTool.ContextProxy) :
  fst (SelectActiveIntentTool.execute (Some "INT-001") {[ PreHook.intentsFile := wideRegistry ]} proxy)
  = fst (SelectActiveIntentTool.execute (Some "INT-001") ∅ proxy).
Proof. vm_compute. reflexivity. Qed.

(** The tool has its own check of the id: an absent or empty id is answered
    with an error text, nothing is thrown and nothing is stored; a blank id
    is not trimmed and gets the stub. *)
Lemma tool_missing_and_blank_id (files : gmap string string)
    (proxy : SelectActiveIntentTool.ContextProxy) :
  SelectActiveIntentTool.execute None files proxy
  = ("<intent_context>error: missing intent_id</intent_context>", proxy)
  /\ SelectActiveIntentTool.execute (Some EmptyString) files proxy
     = ("<intent_context>error: missing intent_id</intent_context>", proxy)
  /\ SelectActiveIntentTool.execute (Some "  ") ∅ proxy
     = (SelectActiveIntentTool.xmlOf (SelectActiveIntentTool.toolStub "  "),
        {| SelectActiveIntentTool.proxyActiveIntentId := Some "  ";
           SelectActiveIntentTool.isIntentVerified := true |}).
Proof. repeat split. Qed.

(** ** The content hash *)

(** The digest is the SHA-256 of the standard: the test vectors. *)
Lemma generateContentHash_vectors :
  PreHook.generateContentHash EmptyString
  = "e3b0c44298fc1c149afbf4c8996fb92427ae41e4649b934ca495991b7852b855"
  /\ PreHook.generateContentHash "abc"
     = "ba7816bf8f01cfea414140de5dae2223b00361a396177a9cb410ff61f20015ad".
Proof. split; vm_compute; reflexivity. Qed.

(** The hash is a function of the content. *)
Lemma generateContentHash_deterministic (c1 c2 : string) :
  c1 = c2 -> PreHook.generateContentHash c1 = PreHook.generateContentHash c2.
Proof. now intros ->. Qed.

(** The hash has 64 hexadecimal digits. *)
Lemma hexWord_length (x : N) : String.length (Sha256.hexWord x) = 8.
Proof. reflexivity. Qed.

Lemma generateContentHash_length (c : string) :
  String.length (PreHook.generateContentHash c) = 64.
Proof.
  unfold PreHook.generateContentHash, Sha256.digest.
  destruct (Sha256.absorb _ _ _ _). reflexivity.
Qed.

(** C5. The hash is computed over the content as it is, with no
    normalisation: a text with CRLF line ends and the same text with LF line
    ends, equal once normalised, get different hashes, and so do a text
    with trailing blanks and the text without them. *)
Theorem generateContentHash_hashes_raw_content :
  Spec.normalize dosText = Spec.normalize unixText
  /\ Spec.normalize paddedText = Spec.normalize unixText
  /\ PreHook.generateContentHash unixText
     = "4c2e6a8978be608645aa7a4732a66dff996b24a6f5be1703b2fa8a2c1b198baa"
  /\ PreHook.generateContentHash dosText
     = "52e842520f34f0660973e15917653f4774b12c42087b6ce7f6676506cca90e8d"
  /\ PreHook.generateContentHash dosText <> PreHook.generateContentHash unixText
  /\ PreHook.generateContentHash paddedText <> PreHook.generateContentHash unixText.
Proof.
  repeat split; try (vm_compute; reflexivity);
    intros H; vm_compute in H; discriminate H.
Qed.

(** ** Optimistic locking *)

Lemma enforceConcurrencyControl_world (path expected : string) (w : World) :
  snd (PreHook.enforceConcurrencyControl path expected w) = w.
Proof.
  unfold PreHook.enforceConcurrencyControl.
  destruct (workspace w !! path); [case_bool_decide|]; reflexivity.
Qed.

(** With no file at the path the check fails on the read, and the error is
    not the stale-file error. *)
Lemma enforceConcurrencyControl_missing_file (path expected : string) (w : World) :
  workspace w !! path = None ->
  PreHook.enforceConcurrencyControl path expected w = (Throw (NoSuchFile path), w).
Proof. intros H. unfold PreHook.enforceConcurrencyControl. now rewrite H. Qed.

(** C6. The check hashes the content now stored at the path and throws the
    stale-file error exactly when that hash differs from the expected one;
    it succeeds exactly when they are equal. Hence, once a write has
    replaced the content by one with another hash, a commit that still holds
    the old snapshot fails, and a commit with the snapshot taken again
    succeeds. *)
Theorem enforceConcurrencyControl_detects_stale :
  forall (w : World) (path expected current : string),
    workspace w !! path = Some current ->
    (PreHook.enforceConcurrencyControl path expected w = (Throw (StaleFile path), w)
     <-> PreHook.generateContentHash current <> expected)
    /\ (PreHook.enforceConcurrencyControl path expected w = (Ok tt, w)
        <-> PreHook.generateContentHash current = expected)
    /\ forall written : string,
         let snapshot := PreHook.generateContentHash current in
         let fresh := PreHook.generateContentHash written in
         let w' := withWorkspace (<[path := written]> (workspace w)) w in
         fresh <> snapshot ->
         PreHook.enforceConcurrencyControl path snapshot w = (Ok tt, w)
         /\ PreHook.enforceConcurrencyControl path snapshot w' = (Throw (StaleFile path), w')
         /\ PreHook.enforceConcurrencyControl path fresh w' = (Ok tt, w').
Proof.
  intros w path expected current Hfile.
  assert (Hcheck : forall (v : World) (c h : string),
             workspace v !! path = Some c ->
             PreHook.enforceConcurrencyControl path h v
             = if bool_decide (PreHook.generateContentHash c <> h)
               then (Throw (StaleFile path), v) else (Ok tt, v)).
  { intros v c h Hv. unfold PreHook.enforceConcurrencyControl. now rewrite Hv. }
  split; [|split].
  - rewrite (Hcheck w current expected Hfile). case_bool_decide; split; intros; congruence.
  - rewrite (Hcheck w current expected Hfile).
    destruct (decide (PreHook.generateContentHash current = expected)) as [He|He].
    + rewrite bool_decide_eq_false_2 by (intros Hn; now apply Hn). tauto.
    + rewrite bool_decide_eq_true_2 by assumption. split; intros; congruence.
  - intros written snapshot fresh w' Hne.
    assert (Hw' : workspace w' !! path = Some written) by apply lookup_insert_eq.
    rewrite (Hcheck w current snapshot Hfile), (Hcheck w' written snapshot Hw'),
            (Hcheck w' written fresh Hw').
    subst snapshot fresh. repeat split.
    + rewrite bool_decide_eq_false_2; [reflexivity | intros Hn; now apply Hn].
    + rewrite bool_decide_eq_true_2; [reflexivity | assumption].
    + rewrite bool_decide_eq_false_2; [reflexivity | intros Hn; now apply Hn].
Qed.

Lemma enforceConcurrencyControl_detects_stale_witness :
  let w := initialWorld {[ "src/core/foo.txt" := unixText ]} in
  let w' := withWorkspace (<["src/core/foo.txt" := paddedText]> (workspace w)) w in
  PreHook.enforceConcurrencyControl "src/core/foo.txt"
    (PreHook.generateContentHash unixText) w' = (Throw (StaleFile "src/core/foo.txt"), w')
  /\ PreHook.enforceConcurrencyControl "src/core/foo.txt"
       (PreHook.generateContentHash paddedText) w' = (Ok tt, w').
Proof.
  intros w w'.
  destruct (enforceConcurrencyControl_detects_stale w "src/core/foo.txt"
              (PreHook.generateContentHash unixText) unixText) as (_ & _ & H).
  - apply lookup_singleton_eq.
  - destruct (H paddedText) as (_ & Hstale & Hfresh).
    + intros E. vm_compute in E. discriminate E.
    + split; [exact Hstale | exact Hfresh].
Defined.

(** ** The trace file *)

Lemma entryCount_app (a b : string) :
  entryCount (a ++ b) = entryCount a + entryCount b.
Proof. induction a as [|c a IH]; simpl; [reflexivity | rewrite IH; lia]. Qed.

(** Induction on JSON values, with the hypothesis for every item of an
    array and every property of an object. *)
Lemma value_induction (P : JSON.value -> Prop) :
  (forall s, P (JSON.Str s)) ->
  (forall n, P (JSON.Num n)) ->
  (forall items, Forall P items -> P (JSON.Arr items)) ->
  (forall fields, Forall (fun kv => P (snd kv)) fields -> P (JSON.Obj fields)) ->
  forall v, P v.
Proof.
  intros HStr HNum HArr HObj.
  fix IH 1. intros [s|n|items|fields].
  - apply HStr.
  - apply HNum.
  - apply HArr. induction items as [|v items IHitems]; constructor; [apply IH | assumption].
  - apply HObj. induction fields as [|[k v] fields IHfields]; constructor;
      [apply IH | assumption].
Qed.

Lemma quoteChar_no_lf (c : ascii) : entryCount (JSON.quoteChar c) = 0.
Proof.
  destruct c as [[] [] [] [] [] [] [] []]; vm_compute; reflexivity.
Qed.

Lemma quote_no_lf (s : string) : entryCount (JSON.quote s) = 0.
Proof.
  unfold JSON.quote. rewrite !entryCount_app. simpl.
  induction s as [|c s IH]; simpl; [reflexivity|].
  rewrite entryCount_app, quoteChar_no_lf. simpl. lia.
Qed.

Lemma decimal_no_lf (n : N) : entryCount (JSON.decimal n) = 0.
Proof.
  unfold JSON.decimal. induction (N.to_uint n); simpl; auto.
Qed.

Lemma join_no_lf (sep : string) (l : list string) :
  entryCount sep = 0 -> Forall (fun s => entryCount s = 0) l ->
  entryCount (Js.join sep l) = 0.
Proof.
  intros Hsep. induction 1 as [|x l Hx Hl IH]; [reflexivity|].
  simpl. destruct l as [|y l]; [assumption|].
  rewrite !entryCount_app, Hx, Hsep, IH. reflexivity.
Qed.

(** The text of a value holds no line feed: one value is one line. *)
Lemma stringify_no_lf (v : JSON.value) : entryCount (JSON.stringify v) = 0.
Proof.
  induction v as [s|n|items IH|fields IH] using value_induction.
  - apply quote_no_lf.
  - apply decimal_no_lf.
  - cbn [JSON.stringify]. rewrite !entryCount_app, join_no_lf; [reflexivity..|].
    apply List.Forall_map. exact IH.
  - cbn [JSON.stringify]. rewrite !entryCount_app, join_no_lf; [reflexivity..|].
    apply List.Forall_map. eapply List.Forall_impl; [|exact IH].
    intros [k v] Hv. cbn [fst snd] in *.
    now rewrite !entryCount_app, quote_no_lf, Hv.
Qed.

(** The line written for an entry is one entry of the ledger. *)
Lemma traceLine_one_entry (uuid timestamp : string) (d : WriteFileSchema) :
  entryCount (PreHook.traceLine uuid timestamp d) = 1.
Proof.
  unfold PreHook.traceLine. now rewrite entryCount_app, stringify_no_lf.
Qed.

(** *** Files and directories *)

Lemma dirname_traceFilePath : dirname traceFilePath = orchestrationDir.
Proof. reflexivity. Qed.

Lemma directoryExistsIn_spec (files : gmap string string) (dirs : gset string) (dir : string) :
  directoryExistsIn files dirs dir = true
  <-> dir = EmptyString \/ dir ∈ dirs
      \/ exists p c, files !! p = Some c /\ inDirectory dir p = true.
Proof.
  destruct dir as [|x dir]; [split; auto|].
  cbn [directoryExistsIn]. rewrite orb_true_iff, bool_decide_eq_true, existsb_exists.
  split.
  - intros [H | (p & Hin & Hp)]; [auto|]. right. right.
    apply in_map_iff in Hin as ([p' c] & <- & Hin).
    apply list_elem_of_In, elem_of_map_to_list in Hin. eauto.
  - intros [H | [H | (p & c & Hp & Hin)]]; [discriminate | auto |]. right.
    exists p. split; [|exact Hin].
    apply in_map_iff. exists (p, c). split; [reflexivity|].
    now apply list_elem_of_In, elem_of_map_to_list.
Qed.

(** A directory that holds a file exists, and writing a file removes no
    directory. *)
Lemma directoryExistsIn_lookup (files : gmap string string) (dirs : gset string)
    (dir p c : string) :
  files !! p = Some c -> inDirectory dir p = true -> directoryExistsIn files dirs dir = true.
Proof. intros Hp Hin. apply directoryExistsIn_spec. eauto 6. Qed.

Lemma directoryExistsIn_insert (files : gmap string string) (dirs : gset string)
    (dir p c : string) :
  directoryExistsIn files dirs dir = true ->
  directoryExistsIn (<[p := c]> files) dirs dir = true.
Proof.
  rewrite !directoryExistsIn_spec. intros [H | [H | (q & d & Hq & Hin)]]; auto.
  right. right. destruct (decide (q = p)) as [-> | Hne].
  - exists p, c. split; [apply lookup_insert_eq | exact Hin].
  - exists q, d. split; [now rewrite lookup_insert_ne | exact Hin].
Qed.

(** *** The post-hook *)

(** The two ways the post-hook ends: with the directory of the trace file
    in place its line is added at the end of the file, which is created
    when there is none; without it the call throws and no file changes. The
    clock has been read in both cases. *)
Lemma postWriteFileHook_cases (host : Host) (d : WriteFileSchema) (w : World) :
  (directoryExists w orchestrationDir = true
   /\ PreHook.postWriteFileHook host d w
      = (Ok tt,
         {| activeIntentId := activeIntentId w;
            workspace :=
              <[traceFilePath :=
                  traceFile w
                  ++ PreHook.traceLine (randomUUID host (tick w)) (toISOString host (tick w)) d]>
                (workspace w);
            directories := directories w; tick := S (tick w) |}))
  \/ (directoryExists w orchestrationDir = false
      /\ PreHook.postWriteFileHook host d w
         = (Throw (NoSuchFile traceFilePath),
            {| activeIntentId := activeIntentId w; workspace := workspace w;
               directories := directories w; tick := S (tick w) |})).
Proof.
  unfold PreHook.postWriteFileHook, appendFileSync. rewrite dirname_traceFilePath.
  unfold directoryExists. cbn [workspace directories activeIntentId tick].
  destruct (directoryExistsIn (workspace w) (directories w) orchestrationDir);
    [left | right]; split; reflexivity.
Qed.

Lemma traceFile_insert (line : string) (w : World) (a : option string) (t : nat) :
  traceFile {| activeIntentId := a; workspace := <[traceFilePath := line]> (workspace w);
               directories := directories w; tick := t |} = line.
Proof. unfold traceFile. cbn [workspace]. now rewrite lookup_insert_eq. Qed.

(** The post-hook appends one line and touches nothing else but the clock. *)
Lemma postWriteFileHook_appends (host : Host) (d : WriteFileSchema) (w : World) :
  directoryExists w orchestrationDir = true ->
  exists w',
    PreHook.postWriteFileHook host d w = (Ok tt, w')
    /\ traceFile w' = traceFile w
                      ++ PreHook.traceLine (randomUUID host (tick w)) (toISOString host (tick w)) d
    /\ entryCount (traceFile w') = S (entryCount (traceFile w))
    /\ tick w' = S (tick w)
    /\ activeIntentId w' = activeIntentId w
    /\ (forall path, path <> traceFilePath -> workspace w' !! path = workspace w !! path)
    /\ directoryExists w' orchestrationDir = true.
Proof.
  intros Hdir.
  destruct (postWriteFileHook_cases host d w) as [[_ ->] | [H _]]; [|congruence].
  eexists. split; [reflexivity|]. rewrite traceFile_insert.
  cbn [tick activeIntentId workspace]. repeat split.
  - rewrite entryCount_app, traceLine_one_entry. lia.
  - intros path Hpath. now rewrite lookup_insert_ne.
  - unfold directoryExists in *. cbn [workspace directories].
    now apply directoryExistsIn_insert.
Qed.

(** Without the directory the post-hook fails and the files stay. *)
Lemma postWriteFileHook_fails (host : Host) (d : WriteFileSchema) (w : World) :
  directoryExists w orchestrationDir = false ->
  fst (PreHook.postWriteFileHook host d w) = Throw (NoSuchFile traceFilePath)
  /\ workspace (snd (PreHook.postWriteFileHook host d w)) = workspace w
  /\ directories (snd (PreHook.postWriteFileHook host d w)) = directories w
  /\ traceFile (snd (PreHook.postWriteFileHook host d w)) = traceFile w.
Proof.
  intros Hdir.
  destruct (postWriteFileHook_cases host d w) as [[H _] | [_ ->]]; [congruence|].
  repeat split.
Qed.

Lemma concat_cons (l : string) (ls : list string) :
  String.concat EmptyString (l :: ls) = l ++ String.concat EmptyString ls.
Proof.
  destruct ls; simpl; [now rewrite append_nil_r | reflexivity].
Qed.

Lemma ledgerText_cons (e : string) (es : list string) :
  ledgerText (e :: es) = (e ++ Js.lf) ++ ledgerText es.
Proof. unfold ledgerText. cbn [map]. apply concat_cons. Qed.

Lemma ledgerText_app (es1 es2 : list string) :
  ledgerText (es1 ++ es2) = ledgerText es1 ++ ledgerText es2.
Proof.
  induction es1 as [|e es1 IH]; [reflexivity|].
  change ((e :: es1) ++ es2)%list with (e :: (es1 ++ es2))%list.
  rewrite !ledgerText_cons, IH. symmetry. apply append_assoc.
Qed.

Lemma entryCount_ledgerText (es : list string) :
  Forall (fun e => entryCount e = 0) es ->
  entryCount (ledgerText es) = length es.
Proof.
  induction 1 as [|e es He _ IH]; [reflexivity|].
  rewrite ledgerText_cons, !entryCount_app, He, IH. reflexivity.
Qed.

(** Reading the lines back. *)
Lemma rev_app_acc (s acc : string) :
  String.rev_app s acc = String.rev_app s EmptyString ++ acc.
Proof.
  revert acc. induction s as [|c s IH]; intros acc; [reflexivity|].
  cbn [String.rev_app]. rewrite (IH (String c acc)), (IH (String c EmptyString)).
  now rewrite append_assoc.
Qed.

Lemma rev_cons (c : ascii) (s : string) :
  String.rev (String c s) = String.rev s ++ String c EmptyString.
Proof. unfold String.rev. cbn [String.rev_app]. apply rev_app_acc. Qed.

Lemma splitCharGo_line (sep : ascii) (line rest piece : string) :
  Js.allChars (fun c => negb (Ascii.eqb c sep)) line = true ->
  Js.splitCharGo sep (line ++ String sep rest) piece
  = (String.rev piece ++ line) :: Js.splitCharGo sep rest EmptyString.
Proof.
  revert piece. induction line as [|c line IH]; intros piece Hline.
  - change (EmptyString ++ String sep rest) with (String sep rest).
    cbn [Js.splitCharGo]. now rewrite Ascii.eqb_refl, append_nil_r.
  - cbn [Js.allChars] in Hline. apply andb_prop in Hline as [Hc Hline].
    rewrite append_cons. cbn [Js.splitCharGo].
    apply negb_true_iff in Hc. rewrite Hc, (IH _ Hline), rev_cons, append_assoc.
    reflexivity.
Qed.

Lemma no_lf_allChars (s : string) :
  entryCount s = 0 -> Js.allChars (fun c => negb (Ascii.eqb c Js.lfChar)) s = true.
Proof.
  induction s as [|c s IH]; [reflexivity|]. cbn [entryCount Js.allChars].
  destruct (Ascii.eqb c Js.lfChar); [discriminate|]. intros H. now rewrite IH.
Qed.

Lemma splitChar_ledgerText (es : list string) :
  Forall (fun e => entryCount e = 0) es ->
  Js.splitChar Js.lfChar (ledgerText es) = (es ++ [EmptyString])%list.
Proof.
  unfold Js.splitChar. induction 1 as [|e es He _ IH]; [reflexivity|].
  rewrite ledgerText_cons, append_assoc.
  change (Js.lf ++ ledgerText es) with (String Js.lfChar (ledgerText es)).
  rewrite (splitCharGo_line _ _ _ _ (no_lf_allChars e He)), IH. reflexivity.
Qed.

(** A trace file made of entries reads back as these entries. *)
Lemma entries_ledgerText (es : list string) :
  Forall (fun e => entryCount e = 0) es ->
  entries (ledgerText es) = es.
Proof.
  intros H. unfold entries. rewrite (splitChar_ledgerText es H).
  apply removelast_last.
Qed.

(** ** The orchestrator *)

Lemma validate_id (i : option string) (r : Intent) (w : World) :
  fst (PreHook.validate i w) = Ok r -> i = Some (id r).
Proof.
  unfold PreHook.validate. destruct i as [s|]; [|discriminate].
  destruct (_ || _); [discriminate|].
  destruct (workspace w !! PreHook.intentsFile) as [yaml|]; [|now intros [= <-]].
  destruct (PreHook.extractIntentBlock yaml s) as [block|] eqn:Hblock; [|now intros [= <-]].
  intros [= <-]. f_equal. symmetry. apply (findEntry_fields _ _ _ Hblock).
Qed.

Lemma ledgerText_one (e : string) : ledgerText [e] = e ++ Js.lf.
Proof. rewrite ledgerText_cons. apply append_nil_r. Qed.

(** One invocation and the ledger, for an action that leaves the trace
    file alone: DONE appends the line of the request; BLOCKED and FAILED
    leave the world as it was; [LedgerWriteFailure] means that the directory
    of the trace file was missing when the logger ran, and the ledger is as
    before. *)
Lemma executeWithHooks_step {A} (host : Host) (answer : string -> option string)
    (r : Request A) (w : World) :
  keepsTraceFile (reqAction r) ->
  let o := fst (executeWithHooks host answer (reqAction r) (reqIntentId r) (reqMeta r) w) in
  let w' := snd (executeWithHooks host answer (reqAction r) (reqIntentId r) (reqMeta r) w) in
  (isDone o = true ->
     traceFile w' = traceFile w ++ entryOfRequest host (tick w) r ++ Js.lf
     /\ tick w' = S (tick w))
  /\ (hasMutated o = false -> w' = w)
  /\ (forall e, o = LedgerWriteFailure e ->
        e = NoSuchFile traceFilePath
        /\ directoryExists w' orchestrationDir = false
        /\ traceFile w' = traceFile w
        /\ tick w' = S (tick w))
  /\ (hasMutated o = true ->
        exists result fs,
          reqAction r (fileSystem w) = Ok (result, fs)
          /\ directories w' = snd fs
          /\ forall path, path <> traceFilePath -> workspace w' !! path = fst fs !! path).
Proof.
  intros Hkeeps. unfold executeWithHooks.
  destruct (fst (PreHook.validate (reqIntentId r) w)) as [intent|e] eqn:Hvalid;
    [|repeat split; discriminate].
  destruct (PreHook.enforceScope host (target (reqMeta r)) intent) as [[]|e];
    [|repeat split; discriminate].
  destruct (fst (runInteraction answer _)) as [[|]|e]; [|repeat split; discriminate..].
  destruct (reqAction r (fileSystem w)) as [[result fs]|e] eqn:Haction;
    [|repeat split; discriminate].
  specialize (Hkeeps _ _ _ Haction). cbn [fileSystem fst] in Hkeeps.
  assert (Hfile : traceFile (withFileSystem fs w) = traceFile w).
  { unfold traceFile, withFileSystem. cbn [workspace]. now rewrite Hkeeps. }
  set (d := {| filePath := target (reqMeta r); content := finalContent (reqMeta r);
               intent_id := id intent; mutation_class := mutationClass (reqMeta r) |}).
  destruct (postWriteFileHook_cases host d (withFileSystem fs w)) as [[Hdir ->] | [Hdir ->]];
    cbn [fst snd isDone hasMutated].
  - split; [|split; [discriminate | split; [discriminate|]]].
    + intros _.
      rewrite traceFile_insert, Hfile. cbn [tick withFileSystem]. split; [|reflexivity].
      unfold PreHook.traceLine, entryOfRequest.
      now rewrite (validate_id _ _ _ Hvalid).
    + intros _. exists result, fs. split; [reflexivity|]. split; [reflexivity|].
      intros path Hpath. cbn [workspace withFileSystem]. now rewrite lookup_insert_ne.
  - split; [discriminate|]. split; [discriminate|]. split.
    + intros e [= <-].
      split; [reflexivity|]. split; [exact Hdir|]. split; [exact Hfile | reflexivity].
    + intros _. exists result, fs. repeat split.
Qed.

(** The wrapped action runs only after every gate step has passed. *)
Lemma executeWithHooks_blocked_skips_action {A} (host : Host)
    (answer : string -> option string) (action action' : Action A)
    (intentId : option string) (meta : Meta) (w : World) (reason : GateFailure) :
  fst (executeWithHooks host answer action intentId meta w) = BLOCKED reason ->
  executeWithHooks host answer action' intentId meta w = (BLOCKED reason, w).
Proof.
  unfold executeWithHooks.
  destruct (fst (PreHook.validate intentId w)) as [intent|e]; [|intros [= <-]; reflexivity].
  destruct (PreHook.enforceScope host (target meta) intent) as [[]|e];
    [|intros [= <-]; reflexivity].
  destruct (fst (runInteraction answer _)) as [[|]|e]; [|intros [= <-]; reflexivity..].
  destruct (action (fileSystem w)) as [[result fs]|e]; [|discriminate].
  destruct (PreHook.postWriteFileHook _ _ _) as [[|] ?]; discriminate.
Qed.

(** Without a selected intent the invocation is BLOCKED with the
    missing-intent error and the world, ledger included, is unchanged. *)
Lemma executeWithHooks_blocked_without_intent {A} (host : Host)
    (answer : string -> option string) (action : Action A) (meta : Meta)
    (files : gmap string string) :
  let w := initialWorld files in
  executeWithHooks host answer action (activeIntentId w) meta w
  = (BLOCKED (GateError MissingIntent), w).
Proof. reflexivity. Qed.

Lemma runAll_length {A} (host : Host) (answer : string -> option string)
    (reqs : list (Request A)) (w : World) :
  length (fst (runAll host answer reqs w)) = length reqs.
Proof.
  revert w. induction reqs as [|r reqs IH]; intros w; [reflexivity|]. simpl.
  destruct (executeWithHooks _ _ _ _ _ w) as [o w1]. specialize (IH w1).
  destruct (runAll host answer reqs w1). simpl in *. now rewrite IH.
Qed.

Lemma runAll_app {A} (host : Host) (answer : string -> option string)
    (r1 r2 : list (Request A)) (w : World) :
  snd (runAll host answer (r1 ++ r2) w)
  = snd (runAll host answer r2 (snd (runAll host answer r1 w))).
Proof.
  revert w. induction r1 as [|r r1 IH]; intros w; [reflexivity|]. simpl.
  destruct (executeWithHooks _ _ _ _ _ w) as [o w1]. specialize (IH w1).
  destruct (runAll host answer (r1 ++ r2) w1), (runAll host answer r1 w1). simpl in *.
  exact IH.
Qed.

Lemma loggedLines_no_lf {A} (host : Host) (reqs : list (Request A)) :
  forall t outs, Forall (fun e => entryCount e = 0) (loggedLines host t reqs outs).
Proof.
  induction reqs as [|r reqs IH]; intros t outs; [constructor|].
  destruct outs as [|o outs]; [constructor|]. cbn [loggedLines].
  destruct o; try apply IH. constructor; [apply stringify_no_lf | apply IH].
Qed.

Lemma loggedLines_length {A} (host : Host) (reqs : list (Request A)) :
  forall t outs,
    length outs = length reqs ->
    length (loggedLines host t reqs outs) = length (List.filter isDone outs).
Proof.
  induction reqs as [|r reqs IH]; intros t outs Hlen.
  - destruct outs; [reflexivity | discriminate].
  - destruct outs as [|o outs]; [discriminate|]. injection Hlen as Hlen.
    cbn [loggedLines List.filter]. destruct o; cbn [isDone length]; now rewrite IH.
Qed.

(** The ledger after a run of actions that leave the trace file alone: the
    ledger before, followed by one line for each request that ended in
    DONE, in the order of the requests. *)
Lemma runAll_ledger {A} (host : Host) (answer : string -> option string)
    (reqs : list (Request A)) (w : World) :
  Forall (fun r => keepsTraceFile (reqAction r)) reqs ->
  traceFile (snd (runAll host answer reqs w))
  = traceFile w ++ ledgerText (loggedLines host (tick w) reqs (fst (runAll host answer reqs w))).
Proof.
  intros Hreqs. revert w. induction Hreqs as [|r reqs Hr _ IH]; intros w.
  - cbn. now rewrite append_nil_r.
  - cbn [runAll].
    pose proof (executeWithHooks_step host answer r w Hr) as (Hdone & Hstop & Hfail & _).
    destruct (executeWithHooks host answer (reqAction r) (reqIntentId r) (reqMeta r) w)
      as [o w1]. cbn [fst snd] in Hdone, Hstop, Hfail.
    specialize (IH w1). destruct (runAll host answer reqs w1) as [os w2].
    cbn [fst snd] in *. rewrite IH. cbn [loggedLines].
    destruct o as [result | reason | e | e].
    + destruct (Hdone eq_refl) as [-> ->].
      now rewrite ledgerText_cons, !append_assoc.
    + now rewrite (Hstop eq_refl).
    + now rewrite (Hstop eq_refl).
    + destruct (Hfail e eq_refl) as (_ & _ & -> & ->). reflexivity.
Qed.

(** C2. For every sequence of governed requests whose wrapped actions leave
    the trace file as it is: an invocation that ends in DONE appends
    exactly one line, the entry of its request, to the ledger; one that ends
    BLOCKED or FAILED leaves the ledger, and the rest of the world, as it
    was; one whose action has run and whose append fails ends in
    [LedgerWriteFailure], which happens when the directory of the trace file
    does not exist, and adds nothing; in both cases in which the action has
    run, what it did to the other files is left in place. After the run the ledger is the ledger
    before it followed by one entry per DONE request, in the order of the
    requests, so a ledger that held the entries [old] reads back as [old]
    followed by the new entries and the entry count has grown by the number
    of DONE requests; and the ledger after any initial part of the run is an
    initial part of the ledger after the whole run, so no entry is altered
    or removed and the count never decreases. *)
Theorem ledger_one_entry_per_done_request :
  forall (A : Type) (host : Host) (answer : string -> option string)
         (reqs : list (Request A)) (w : World),
    Forall (fun r => keepsTraceFile (reqAction r)) reqs ->
    let outs := fst (runAll host answer reqs w) in
    let w' := snd (runAll host answer reqs w) in
    length outs = length reqs
    /\ (forall (r : Request A) (v : World),
          keepsTraceFile (reqAction r) ->
          let o := fst (executeWithHooks host answer (reqAction r) (reqIntentId r)
                          (reqMeta r) v) in
          let v' := snd (executeWithHooks host answer (reqAction r) (reqIntentId r)
                           (reqMeta r) v) in
          (isDone o = true ->
             traceFile v' = traceFile v ++ entryOfRequest host (tick v) r ++ Js.lf
             /\ entryCount (traceFile v') = S (entryCount (traceFile v)))
          /\ (hasMutated o = false -> v' = v)
          /\ (forall e, o = LedgerWriteFailure e ->
                e = NoSuchFile traceFilePath
                /\ directoryExists v' orchestrationDir = false
                /\ traceFile v' = traceFile v)
          /\ (hasMutated o = true ->
                exists result fs,
                  reqAction r (fileSystem v) = Ok (result, fs)
                  /\ directories v' = snd fs
                  /\ forall path, path <> traceFilePath ->
                                  workspace v' !! path = fst fs !! path))
    /\ traceFile w' = traceFile w ++ ledgerText (loggedLines host (tick w) reqs outs)
    /\ length (loggedLines host (tick w) reqs outs) = length (List.filter isDone outs)
    /\ (forall old : list string,
          Forall (fun e => entryCount e = 0) old ->
          traceFile w = ledgerText old ->
          entries (traceFile w') = (old ++ loggedLines host (tick w) reqs outs)%list)
    /\ entryCount (traceFile w') = entryCount (traceFile w) + length (List.filter isDone outs)
    /\ (forall k : nat,
          let wk := snd (runAll host answer (firstn k reqs) w) in
          isPrefixOf (traceFile wk) (traceFile w')
          /\ entryCount (traceFile wk) <= entryCount (traceFile w')).
Proof.
  intros A host answer reqs w Hreqs outs w'. subst outs w'.
  pose proof (runAll_length host answer reqs w) as Hlen.
  pose proof (runAll_ledger host answer reqs w Hreqs) as Hfile.
  split; [exact Hlen|]. split; [|split; [exact Hfile|split; [|split; [|split]]]].
  - intros r v Hr.
    pose proof (executeWithHooks_step host answer r v Hr) as (Hdone & Hstop & Hfail & Hrun).
    split; [|split; [exact Hstop|split; [|exact Hrun]]].
    + intros Ho. destruct (Hdone Ho) as [Hv _]. split; [exact Hv|].
      rewrite Hv, !entryCount_app. unfold entryOfRequest.
      rewrite stringify_no_lf. change (entryCount Js.lf) with 1. lia.
    + intros e He. destruct (Hfail e He) as (H1 & H2 & H3 & _). auto.
  - now apply loggedLines_length.
  - intros old Hold Hw. rewrite Hfile, Hw, <- ledgerText_app.
    apply entries_ledgerText, Forall_app. split; [exact Hold | apply loggedLines_no_lf].
  - rewrite Hfile, entryCount_app, entryCount_ledgerText by apply loggedLines_no_lf.
    now rewrite loggedLines_length.
  - intros k wk. subst wk.
    assert (Hskip : Forall (fun r => keepsTraceFile (reqAction r)) (skipn k reqs)).
    { rewrite <- (firstn_skipn k reqs) in Hreqs. now apply Forall_app in Hreqs. }
    rewrite <- (firstn_skipn k reqs) at 2 4. rewrite runAll_app.
    rewrite (runAll_ledger host answer (skipn k reqs) _ Hskip).
    split; [eexists; reflexivity|]. rewrite entryCount_app. lia.
Qed.

Lemma writeAction_keepsTraceFile (path text : string) :
  path <> traceFilePath -> keepsTraceFile (writeAction path text).
Proof.
  intros Hpath fs result fs' [= _ <-]. cbn [fst]. now apply lookup_insert_ne.
Qed.

Lemma ledger_one_entry_per_done_request_witness :
  let w := initialWorld sampleFiles in
  let run := runAll demoHost approve demoRequests w in
  map isDone (fst run) = [false; true; false; false; true]
  /\ entryCount (traceFile (snd run)) = 2.
Proof.
  intros w run. split; [vm_compute; reflexivity|].
  destruct (ledger_one_entry_per_done_request string demoHost approve demoRequests w)
    as (_ & _ & _ & _ & _ & Hcount & _).
  - repeat constructor; try (apply writeAction_keepsTraceFile; discriminate).
    intros fs result fs' H. discriminate H.
  - subst run. rewrite Hcount. vm_compute. reflexivity.
Defined.

(** The second request of the run, on its own: it passes the gate, writes
    the file and leaves one line in the ledger; the first one is stopped
    before its action, with nothing written. *)
Lemma executeWithHooks_examples :
  let w := initialWorld sampleFiles in
  executeWithHooks demoHost approve (writeAction "src/core/a.ts" "one") None
    (demoMeta "src/core/a.ts" "one") w = (BLOCKED (GateError MissingIntent), w)
  /\ fst (executeWithHooks demoHost approve (writeAction "src/core/a.ts" "two")
            (Some "INT-001") (demoMeta "src/core/a.ts" "two") w) = DONE "written"
  /\ workspace (snd (executeWithHooks demoHost approve (writeAction "src/core/a.ts" "two")
                       (Some "INT-001") (demoMeta "src/core/a.ts" "two") w))
     !! "src/core/a.ts" = Some "two"
  /\ fst (executeWithHooks demoHost (fun _ => Some "Reject")
            (writeAction "src/core/a.ts" "two") (Some "INT-001")
            (demoMeta "src/core/a.ts" "two") w) = BLOCKED (AuthorizationDenied "write_file").
Proof. repeat split; vm_compute; reflexivity. Qed.

(** *** Where the invariants of the ledger fail *)

(** In a working directory without [.orchestration] the registry cannot be
    read, so the stub is returned and a top-level path passes the gate; the
    action writes its file and then the append fails: the mutation is in
    place and the ledger has no entry for it. *)
Lemma unrecorded_mutation :
  let request := mkRequest (writeAction "notes.txt" "one") (Some "INT-001")
                           (demoMeta "notes.txt" "one") in
  let run := runAll demoHost approve [request] (initialWorld ∅) in
  fst run = [LedgerWriteFailure (NoSuchFile traceFilePath)]
  /\ workspace (snd run) !! "notes.txt" = Some "one"
  /\ workspace (snd run) !! traceFilePath = None.
Proof. repeat split; vm_compute; reflexivity. Qed.

(** The trace file is a file like any other, and the gate treats it as
    one: when the scope of the intent covers it, a request to write it
    passes, its action takes the earlier entries away, and the entry of
    that very request is then the only one. *)
Lemma ledger_overwritten :
  let first := mkRequest (writeAction "src/core/a.ts" "one") (Some "INT-001")
                         (demoMeta "src/core/a.ts" "one") in
  let second := mkRequest (writeAction traceFilePath EmptyString) (Some "INT-001")
                          (demoMeta traceFilePath EmptyString) in
  let w := initialWorld {[ PreHook.intentsFile := ledgerOwnerRegistry ]} in
  let w1 := snd (runAll demoHost approve [first] w) in
  let run := runAll demoHost approve [second] w1 in
  entries (traceFile w1) = [entryOfRequest demoHost 0 first]
  /\ map isDone (fst run) = [true]
  /\ entries (traceFile (snd run)) = [entryOfRequest demoHost 1 second].
Proof. repeat split; vm_compute; reflexivity. Qed.

(** C2, as the specification states it, does not hold of the runs of the
    orchestrator: the count of entries falls short of the count of
    mutations when an append fails, as in [unrecorded_mutation], and what
    the ledger held does not stay when an action writes to the trace file,
    as in [ledger_overwritten]. *)
Lemma ledger_invariants_fail :
  ~ Spec.LedgerOneEntryPerMutation /\ ~ Spec.LedgerMonotonic.
Proof.
  split; intros H.
  - specialize (H string demoHost approve
                  [mkRequest (writeAction "notes.txt" "one") (Some "INT-001")
                             (demoMeta "notes.txt" "one")]
                  (initialWorld ∅)).
    vm_compute in H. discriminate H.
  - specialize (H string demoHost approve
                  [mkRequest (writeAction traceFilePath EmptyString) (Some "INT-001")
                             (demoMeta traceFilePath EmptyString)]
                  (snd (runAll demoHost approve
                          [mkRequest (writeAction "src/core/a.ts" "one") (Some "INT-001")
                                     (demoMeta "src/core/a.ts" "one")]
                          (initialWorld {[ PreHook.intentsFile := ledgerOwnerRegistry ]})))).
    destruct H as [rest H]. vm_compute in H. discriminate H.
Qed.

(** ** The ledger under the calls of the code

    Of the calls of the code only the post-hook writes to the trace file,
    and it writes at the end. *)

Lemma selectActiveIntent_world (i : string) (w : World) :
  workspace (snd (selectActiveIntent i w)) = workspace w
  /\ directories (snd (selectActiveIntent i w)) = directories w.
Proof.
  unfold selectActiveIntent.
  destruct (workspace w !! PreHook.intentsFile) as [yaml|]; [|now split].
  destruct (PreHook.extractIntentBlock yaml i); now split.
Qed.

Lemma runCall_ledger (host : Host) (c : HookCall) (w : World) :
  keepsLedger c ->
  directoryExists w orchestrationDir = true ->
  directoryExists (runCall host c w) orchestrationDir = true
  /\ ((isPostWrite c = false /\ traceFile (runCall host c w) = traceFile w)
      \/ (isPostWrite c = true
          /\ exists line, entryCount line = 1
                          /\ traceFile (runCall host c w) = traceFile w ++ line)).
Proof.
  intros Hc Hdir. destruct c; cbn [runCall isPostWrite].
  - rewrite executePreHook_world. split; [exact Hdir | now left].
  - split; [exact Hdir | now left].
  - destruct (selectActiveIntent_world intentId w) as [Hw Hd].
    unfold directoryExists, traceFile in *. rewrite Hw, Hd. split; [exact Hdir | now left].
  - rewrite validate_world. split; [exact Hdir | now left].
  - rewrite enforceConcurrencyControl_world. split; [exact Hdir | now left].
  - destruct (postWriteFileHook_appends host writeFileData w Hdir)
      as (w' & -> & Hfile & _ & _ & _ & _ & Hdir').
    cbn [snd]. split; [exact Hdir' | right]. split; [reflexivity|].
    eexists. split; [apply traceLine_one_entry | exact Hfile].
  - destruct (Hc (fileSystem w)) as [Hfile Hkeep].
    unfold directoryExists, traceFile, withFileSystem. cbn [workspace directories].
    split; [now apply Hkeep | left]. split; [reflexivity|]. now rewrite Hfile.
Qed.

(** X19. Take any calls of the governance code, in any order, mixed with
    changes of the files that leave the trace file and its directory in
    place, and let the directory exist at the start: what the trace file
    held stays at its start, and it gains one entry per call of the
    post-hook and none otherwise. *)
Lemma runCalls_ledger (host : Host) (cs : list HookCall) (w : World) :
  Forall keepsLedger cs ->
  directoryExists w orchestrationDir = true ->
  isPrefixOf (traceFile w) (traceFile (runCalls host cs w))
  /\ entryCount (traceFile (runCalls host cs w))
     = entryCount (traceFile w) + length (List.filter isPostWrite cs).
Proof.
  intros Hcs. revert w. induction Hcs as [|c cs Hc _ IH]; intros w Hdir.
  - split; [exists EmptyString; now rewrite append_nil_r | simpl; lia].
  - unfold runCalls in *. cbn [fold_left List.filter].
    destruct (runCall_ledger host c w Hc Hdir)
      as [Hdir' [[Hp Hf] | [Hp (line & Hline & Hf)]]];
      destruct (IH (runCall host c w) Hdir') as [[rest Hrest] Hcount]; rewrite Hp.
    + rewrite Hf in *. split; [now exists rest | exact Hcount].
    + rewrite Hf in *. split.
      * exists (line ++ rest). now rewrite <- append_assoc.
      * rewrite Hcount, entryCount_app, Hline. simpl. lia.
Qed.

Lemma runCalls_ledger_witness :
  let d := {| filePath := "src/core/a.ts"; content := "one";
              intent_id := "INT-001"; mutation_class := AST_REFACTOR |} in
  let calls := [CallSelect "INT-001"; CallExecutePreHook "write_to_file";
                CallWorkspace (fun fs => (<["src/core/a.ts" := "one"]> (fst fs), snd fs));
                CallPostWriteFileHook d; CallPostWriteFileHook d] in
  entryCount (traceFile (runCalls demoHost calls (initialWorld sampleFiles))) = 2.
Proof.
  intros d calls.
  destruct (runCalls_ledger demoHost calls (initialWorld sampleFiles)) as [_ H].
  - repeat constructor.
    + cbn [fst]. now rewrite lookup_insert_ne.
    + cbn [fst snd]. apply directoryExistsIn_insert.
  - vm_compute. reflexivity.
  - exact H.
Defined.

(** * Further properties of the code *)

(** ** Selecting an intent *)

Lemma gatedTool_cases (toolName : string) :
  gatedTool toolName = true
  <-> toolName = "write_to_file" \/ toolName = "execute_command".
Proof.
  unfold gatedTool. rewrite orb_true_iff, !String.eqb_eq. tauto.
Qed.

(** X1. [select_active_intent] stores whatever id it is handed, without
    looking at the registry: [getActiveIntentId] then returns that id, and
    the pre-hook lets a gated tool through exactly when the id is not the
    empty string. Files and trace are left alone. *)
Theorem select_active_intent_stores_any_id (intent_id toolName : string) (w : World) :
  fst (select_active_intent intent_id w)
  = Ok ("<intent_context id=" ++ Js.dquote ++ intent_id ++ Js.dquote ++ " />")
  /\ fst (getActiveIntentId (snd (select_active_intent intent_id w))) = Ok (Some intent_id)
  /\ workspace (snd (select_active_intent intent_id w)) = workspace w
  /\ traceFile (snd (select_active_intent intent_id w)) = traceFile w
  /\ (fst (executePreHook toolName tt (snd (select_active_intent intent_id w))) = Ok tt
      <-> gatedTool toolName = false \/ intent_id <> EmptyString).
Proof.
  repeat split; unfold executePreHook; cbn [snd select_active_intent activeIntentId];
    fold (gatedTool toolName).
  - destruct (gatedTool toolName); [|auto].
    destruct intent_id; cbn; [discriminate|]. intros _. right. discriminate.
  - intros [-> | Hid]; [reflexivity|].
    destruct (gatedTool toolName); [|reflexivity].
    destruct intent_id; [contradiction|reflexivity].
Qed.

(** ** Intent validation *)

(** X4. [validate] fails in one way only: it throws the missing-intent
    error exactly when the id is absent or blank. For every other id it
    returns a record, whether the registry can be read or not, and the
    record carries the id as it was given (the trimmed text is used for the
    emptiness test only). It never changes the state. *)
Theorem validate_fails_only_on_blank_id (i : option string) (w : World) :
  (fst (PreHook.validate i w) = Throw MissingIntent
   <-> i = None \/ exists s, i = Some s /\ Js.trim s = EmptyString)
  /\ (forall e, fst (PreHook.validate i w) = Throw e -> e = MissingIntent)
  /\ (forall r, fst (PreHook.validate i w) = Ok r -> i = Some (id r))
  /\ snd (PreHook.validate i w) = w.
Proof.
  split; [|split; [|split; [|apply validate_world]]].
  - split.
    + intros H. destruct i as [s|]; [right | now left].
      exists s. split; [reflexivity|].
      destruct (string_dec (Js.trim s) EmptyString) as [E|E]; [exact E|].
      exfalso. revert H. unfold PreHook.validate.
      rewrite (trim_nonempty_truthy s E). cbn [negb orb].
      destruct (Nat.eqb (String.length (Js.trim s)) 0) eqn:E0.
      { apply length_zero_empty in E0. contradiction. }
      destruct (workspace w !! PreHook.intentsFile) as [yaml|]; [|discriminate].
      destruct (PreHook.extractIntentBlock yaml s); discriminate.
    + intros H. now rewrite (validate_missing i w H).
  - intros e. unfold PreHook.validate. destruct i as [s|]; [|now intros [= <-]].
    destruct (_ || _); [now intros [= <-]|].
    destruct (workspace w !! PreHook.intentsFile) as [yaml|]; [|discriminate].
    destruct (PreHook.extractIntentBlock yaml s); discriminate.
  - intros r. unfold PreHook.validate. destruct i as [s|]; [|discriminate].
    destruct (_ || _); [discriminate|].
    destruct (workspace w !! PreHook.intentsFile) as [yaml|]; [|now intros [= <-]].
    destruct (PreHook.extractIntentBlock yaml s) as [block|] eqn:Hblock; [|now intros [= <-]].
    intros [= <-]. f_equal. symmetry. apply (findEntry_fields _ _ _ Hblock).
Qed.

Lemma validate_stub_distinguishable_witness :
  let resolved := {| id := "INT-001"; name := Some "Core refactor";
                     owned_scope := Some ["src/core/**"];
                     constraints := Some ["No public API change"];
                     acceptance_criteria := Some ["Unit tests pass"] |} in
  PreHook.validate (Some "INT-404") (initialWorld sampleFiles)
  = (Ok (PreHook.permissiveStub "INT-404"), initialWorld sampleFiles)
  /\ constraints (PreHook.permissiveStub "INT-404") = None
  /\ PreHook.validate (Some "INT-001") (initialWorld sampleFiles)
     = (Ok resolved, initialWorld sampleFiles)
  /\ constraints resolved <> None.
Proof.
  intros resolved.
  assert (Hstub : PreHook.validate (Some "INT-404") (initialWorld sampleFiles)
                  = (Ok (PreHook.permissiveStub "INT-404"), initialWorld sampleFiles))
    by reflexivity.
  assert (Hres : PreHook.validate (Some "INT-001") (initialWorld sampleFiles)
                 = (Ok resolved, initialWorld sampleFiles)) by reflexivity.
  split; [exact Hstub | split; [| split; [exact Hres|]]].
  - destruct (validate_stub_distinguishable _ _ _ _ Hstub) as [[H _] | [H _]];
      [exact H | now contradiction H].
  - destruct (validate_stub_distinguishable _ _ _ _ Hres) as [[H _] | [H _]];
      [discriminate H | exact H].
Defined.

(** ** Reading the registry *)

(** A greedy loop whose continuation cannot fail takes the longest run. *)
Lemma greedyLoop_total (ic : bool) (cl : RegExp.CharClass) (p : ascii -> bool)
    (k : RegExp.Cont) :
  (forall c, RegExp.classMatches ic cl c = p c) ->
  (forall s pos gs ge, k s pos gs ge <> None) ->
  forall s pos gs ge,
    RegExp.greedyLoop ic cl k s pos gs ge
    = k (dropWhile p s) (pos + String.length (takeWhile p s)) gs ge.
Proof.
  intros Hp Hk s. induction s as [|c s IH]; intros pos gs ge; cbn [RegExp.greedyLoop].
  - cbn. now rewrite Nat.add_0_r.
  - rewrite Hp. cbn [dropWhile takeWhile]. destruct (p c).
    + rewrite IH. cbn [String.length]. rewrite Nat.add_succ_r. cbn [Nat.add].
      destruct (k _ _ gs ge) eqn:E; [reflexivity | now apply Hk in E].
    + cbn. now rewrite Nat.add_0_r.
Qed.

Lemma append_length (a b : string) :
  String.length (a ++ b) = String.length a + String.length b.
Proof.
  induction a as [|c a IH]; [now rewrite append_nil_l|].
  rewrite append_cons. cbn [String.length]. now rewrite IH.
Qed.

Lemma substring_takeWhile (p : ascii -> bool) (s : string) :
  substring 0 (String.length (takeWhile p s)) s = takeWhile p s.
Proof.
  induction s as [|c s IH]; [reflexivity|]. cbn [takeWhile].
  destruct (p c); [|reflexivity]. cbn [String.length substring]. now rewrite IH.
Qed.

Lemma takeWhile_all (p : ascii -> bool) (s : string) :
  Js.allChars p s = true -> takeWhile p s = s.
Proof.
  induction s as [|c s IH]; [reflexivity|]. cbn [Js.allChars takeWhile].
  intros [Hc Hs]%andb_prop. now rewrite Hc, IH.
Qed.

Lemma takeWhile_allChars (p : ascii -> bool) (s : string) :
  Js.allChars p (takeWhile p s) = true.
Proof.
  induction s as [|c s IH]; [reflexivity|]. cbn [takeWhile].
  destruct (p c) eqn:E; [|reflexivity]. cbn [Js.allChars]. now rewrite E, IH.
Qed.

Lemma takeWhile_dropWhile (p : ascii -> bool) (s : string) :
  s = takeWhile p s ++ dropWhile p s.
Proof.
  induction s as [|c s IH]; [reflexivity|]. cbn [takeWhile dropWhile].
  destruct (p c); [|reflexivity]. now rewrite append_cons, <- IH.
Qed.

Lemma dropWhile_head (p : ascii -> bool) (s : string) :
  dropWhile p s = EmptyString \/ exists c r, dropWhile p s = String c r /\ p c = false.
Proof.
  induction s as [|c s IH]; [now left|]. cbn [dropWhile].
  destruct (p c) eqn:E; [exact IH | right; eauto].
Qed.

Lemma takeWhile_app (p : ascii -> bool) (i rest : string) :
  Js.allChars p i = true ->
  (rest = EmptyString \/ exists c r, rest = String c r /\ p c = false) ->
  takeWhile p (i ++ rest) = i.
Proof.
  intros Hi Hrest. induction i as [|c i IH].
  - rewrite append_nil_l. destruct Hrest as [-> | (c & r & -> & Hc)]; [reflexivity|].
    cbn. now rewrite Hc.
  - cbn [Js.allChars] in Hi. apply andb_prop in Hi as [Hc Hi].
    rewrite append_cons. cbn [takeWhile]. now rewrite Hc, IH.
Qed.

Lemma classMatches_notQuote (c : ascii) :
  RegExp.classMatches false (RegExp.NoneOf [Js.dquoteChar]) c = notQuote c.
Proof. unfold notQuote. cbn. now rewrite orb_false_r. Qed.

(** The end of the id expression, the closing mark and the optional quote,
    cannot fail. *)
Lemma entryId_close (s : string) (pos : nat) (gs ge : option nat) :
  exists e,
    RegExp.matchFrom false [RegExp.GroupClose; RegExp.Atom (RegExp.Chr Js.dquoteChar) RegExp.Opt]
      s pos gs ge
    = Some {| RegExp.endIndex := e; RegExp.groupStart := gs; RegExp.groupEnd := Some pos |}.
Proof.
  cbn [RegExp.matchFrom]. destruct s as [|c s]; [eauto|].
  destruct (RegExp.classMatches _ _ c); eauto.
Qed.

Local Notation "'entryIdGroup'" :=
  [RegExp.GroupOpen; RegExp.Atom (RegExp.NoneOf [Js.dquoteChar]) RegExp.Plus;
   RegExp.GroupClose; RegExp.Atom (RegExp.Chr Js.dquoteChar) RegExp.Opt]
  (only parsing).

(** The group of the id expression, tried at index [pos]: the longest run
    of characters other than a quote, which must not be empty. *)
Lemma entryId_group (s : string) (pos : nat) (ge : option nat) :
  match takeWhile notQuote s with
  | EmptyString => RegExp.matchFrom false entryIdGroup s pos None ge = None
  | i =>
      exists e,
        RegExp.matchFrom false entryIdGroup s pos None ge
        = Some {| RegExp.endIndex := e; RegExp.groupStart := Some pos;
                  RegExp.groupEnd := Some (pos + String.length i) |}
  end.
Proof.
  destruct s as [|c s]; [reflexivity|].
  cbn [takeWhile]. cbn [RegExp.matchFrom]. rewrite classMatches_notQuote.
  destruct (notQuote c); [|reflexivity].
  rewrite (greedyLoop_total false _ notQuote _ classMatches_notQuote).
  - destruct (entryId_close (dropWhile notQuote s)
                (S pos + String.length (takeWhile notQuote s)) (Some pos) ge) as [e He].
    exists e. cbn [RegExp.matchFrom] in He. rewrite He.
    cbn [String.length]. now rewrite Nat.add_succ_r.
  - intros s' pos' gs' ge'.
    destruct (entryId_close s' pos' gs' ge') as [e He].
    cbn [RegExp.matchFrom] in He. now rewrite He.
Qed.

(** One attempt of the id expression at the start of an entry: with the
    opening quote taken, and without it when that fails. *)
Lemma entryId_matchAt (c : ascii) (s : string) :
  RegExp.matchAt PreHook.entryId (String c s) 0
  = if Ascii.eqb Js.dquoteChar c then
      match RegExp.matchFrom false entryIdGroup s 1 None None with
      | Some m => Some m
      | None => RegExp.matchFrom false entryIdGroup (String c s) 0 None None
      end
    else RegExp.matchFrom false entryIdGroup (String c s) 0 None None.
Proof. reflexivity. Qed.

(** The id expression reads the leading id of the entry. *)
Lemma group1_entryId (entry : string) :
  RegExp.group1 PreHook.entryId entry = leadingId entry.
Proof.
  unfold RegExp.group1, RegExp.exec, leadingId.
  destruct entry as [|c s]; [reflexivity|].
  cbn [RegExp.execFrom].
  rewrite (execFrom_anchored PreHook.entryId _ s 0 eq_refl), entryId_matchAt.
  destruct (Ascii.eqb Js.dquoteChar c) eqn:Ec.
  - pose proof (entryId_group s 1 None) as Hs.
    destruct (takeWhile notQuote s) as [|d i] eqn:Ei.
    + rewrite Hs.
      pose proof (entryId_group (String c s) 0 None) as Hc.
      cbn [takeWhile] in Hc. unfold notQuote at 1 in Hc.
      rewrite Ec in Hc. cbn [negb] in Hc. now rewrite Hc.
    + destruct Hs as [e ->]. cbn [Nat.add Nat.sub substring].
      rewrite Nat.sub_0_r.
      change (S (String.length i)) with (String.length (String d i)).
      rewrite <- Ei. now rewrite substring_takeWhile.
  - pose proof (entryId_group (String c s) 0 None) as Hc.
    destruct (takeWhile notQuote (String c s)) as [|d i] eqn:Ei.
    + now rewrite Hc.
    + destruct Hc as [e ->]. cbn [Nat.add Nat.sub]. rewrite Nat.sub_0_r.
      rewrite <- Ei. now rewrite substring_takeWhile.
Qed.

Lemma notQuote_false (c : ascii) : notQuote c = false -> c = Js.dquoteChar.
Proof.
  unfold notQuote. intros H. apply negb_false_iff in H.
  apply Ascii.eqb_eq in H. now symmetry.
Qed.

Lemma leadingId_nonempty (entry i : string) :
  leadingId entry = Some i -> i <> EmptyString.
Proof.
  unfold leadingId. destruct (takeWhile notQuote _); [discriminate|].
  intros [= <-]. discriminate.
Qed.

Lemma leadingId_cons (c : ascii) (s : string) :
  leadingId (String c s)
  = match takeWhile notQuote (if Ascii.eqb Js.dquoteChar c then s else String c s) with
    | EmptyString => None
    | i => Some i
    end.
Proof. reflexivity. Qed.

Lemma takeWhile_app_all (p : ascii -> bool) (i rest : string) :
  Js.allChars p i = true -> takeWhile p (i ++ rest) = i ++ takeWhile p rest.
Proof.
  intros Hi. induction i as [|c i IH]; [now rewrite !append_nil_l|].
  cbn [Js.allChars] in Hi. apply andb_prop in Hi as [Hc Hi].
  rewrite !append_cons. cbn [takeWhile]. now rewrite Hc, IH.
Qed.

Lemma leadingId_quoted (i rest : string) :
  i <> EmptyString -> Js.allChars notQuote i = true ->
  (rest = EmptyString \/ exists r, rest = Js.dquote ++ r) ->
  leadingId (Js.dquote ++ i ++ rest) = Some i.
Proof.
  intros Hne Hi Hrest.
  change (Js.dquote ++ i ++ rest) with (String Js.dquoteChar (i ++ rest)).
  rewrite leadingId_cons, Ascii.eqb_refl, takeWhile_app;
    [destruct i; [contradiction|reflexivity] | exact Hi |].
  destruct Hrest as [-> | [r ->]]; [now left | right].
  exists Js.dquoteChar, r. split; reflexivity.
Qed.

Lemma leadingId_bare_start (c : ascii) (i rest : string) :
  Js.allChars notQuote (String c i) = true ->
  leadingId (String c i ++ rest) = Some (String c i ++ takeWhile notQuote rest).
Proof.
  intros Hi. rewrite append_cons, leadingId_cons.
  pose proof Hi as Hi'. cbn [Js.allChars] in Hi'. apply andb_prop in Hi' as [Hc _].
  unfold notQuote in Hc. apply negb_true_iff in Hc. rewrite Hc.
  rewrite <- append_cons, (takeWhile_app_all _ _ _ Hi), append_cons. reflexivity.
Qed.

Lemma leadingId_bare (i rest : string) :
  i <> EmptyString -> Js.allChars notQuote i = true ->
  (rest = EmptyString \/ exists r, rest = Js.dquote ++ r) ->
  leadingId (i ++ rest) = Some i.
Proof.
  intros Hne Hi Hrest. destruct i as [|c i]; [contradiction|].
  rewrite (leadingId_bare_start c i rest Hi).
  destruct Hrest as [-> | [r ->]]; cbn [takeWhile]; now rewrite ?append_nil_r.
Qed.

(** X6. How the extractor reads the id of an entry: one opening quote is
    skipped, and the id is everything up to the next double quote or, when
    there is none, up to the end of the entry; a line feed does not end
    it. The id read is never empty. *)
Theorem entry_id_runs_to_next_quote (entry i : string) :
  RegExp.group1 PreHook.entryId entry = Some i
  <-> i <> EmptyString /\ Js.allChars notQuote i = true
      /\ exists rest, (entry = i ++ rest \/ entry = Js.dquote ++ i ++ rest)
                      /\ (rest = EmptyString \/ exists r, rest = Js.dquote ++ r).
Proof.
  rewrite group1_entryId. split.
  - intros H. split; [exact (leadingId_nonempty _ _ H)|].
    unfold leadingId in H.
    assert (Hrun : forall body, match takeWhile notQuote body with
                                | EmptyString => None
                                | t => Some t
                                end = Some i ->
                   Js.allChars notQuote i = true
                   /\ exists rest, body = i ++ rest
                                   /\ (rest = EmptyString \/ exists r, rest = Js.dquote ++ r)).
    { intros body Hb.
      assert (Ei : takeWhile notQuote body = i).
      { destruct (takeWhile notQuote body); [discriminate | now injection Hb]. }
      split; [rewrite <- Ei; apply takeWhile_allChars|].
      exists (dropWhile notQuote body). split.
      - rewrite <- Ei. apply takeWhile_dropWhile.
      - destruct (dropWhile_head notQuote body) as [-> | (c & r & -> & Hc)]; [now left|].
        right. exists r. now rewrite (notQuote_false c Hc). }
    destruct entry as [|c s]; [discriminate|].
    destruct (Ascii.eqb Js.dquoteChar c) eqn:Ec.
    + apply Ascii.eqb_eq in Ec. subst c.
      destruct (Hrun _ H) as (Hi & rest & -> & Hrest).
      split; [exact Hi|]. exists rest. split; [now right | exact Hrest].
    + destruct (Hrun _ H) as (Hi & rest & -> & Hrest).
      split; [exact Hi|]. exists rest. split; [now left | exact Hrest].
  - intros (Hne & Hi & rest & [-> | ->] & Hrest).
    + now apply leadingId_bare.
    + now apply leadingId_quoted.
Qed.

Lemma findEntry_head (entry : string) (others : list string) (i : string) :
  PreHook.findEntry (entry :: others) i
  = if bool_decide (leadingId entry = Some i) then
      Some {| id := i;
              name := RegExp.group1 (PreHook.scalarField "name") entry;
              owned_scope := Some (PreHook.listField "owned_scope" entry);
              constraints := Some (PreHook.listField "constraints" entry);
              acceptance_criteria := Some (PreHook.listField "acceptance_criteria" entry) |}
    else PreHook.findEntry others i.
Proof. cbn [PreHook.findEntry]. now rewrite group1_entryId. Qed.

(** X7. In the loop over the entries, for an id that is not empty and holds
    no double quote: an entry that starts with the id in double quotes is
    found under that id; an entry that starts with the bare id is found
    when the id is the whole entry or is directly followed by a double
    quote; and when any other character follows the bare id (a line feed,
    as in an entry with further fields, or a blank) the entry is passed
    over, because the id is read up to the next quote and not up to the end
    of the line. *)
Theorem findEntry_quoted_and_bare_ids (i more : string) (others : list string) :
  i <> EmptyString -> Js.allChars notQuote i = true ->
  (exists r, PreHook.findEntry ((Js.dquote ++ i ++ Js.dquote ++ more) :: others) i = Some r
             /\ id r = i)
  /\ (exists r, PreHook.findEntry (i :: others) i = Some r /\ id r = i)
  /\ (exists r, PreHook.findEntry ((i ++ Js.dquote ++ more) :: others) i = Some r
                /\ id r = i)
  /\ (forall c, notQuote c = true ->
        PreHook.findEntry ((i ++ String c more) :: others) i = PreHook.findEntry others i).
Proof.
  intros Hne Hi. split; [|split; [|split]].
  - rewrite findEntry_head, (leadingId_quoted i (Js.dquote ++ more) Hne Hi);
      [|right; now exists more].
    rewrite bool_decide_eq_true_2 by reflexivity. eexists. split; reflexivity.
  - pose proof (leadingId_bare i EmptyString Hne Hi (or_introl eq_refl)) as H.
    rewrite append_nil_r in H. rewrite findEntry_head, H.
    rewrite bool_decide_eq_true_2 by reflexivity. eexists. split; reflexivity.
  - rewrite findEntry_head, (leadingId_bare i (Js.dquote ++ more) Hne Hi);
      [|right; now exists more].
    rewrite bool_decide_eq_true_2 by reflexivity. eexists. split; reflexivity.
  - intros c Hc. rewrite findEntry_head.
    rewrite bool_decide_eq_false_2; [reflexivity|].
    destruct i as [|x i]; [contradiction|].
    rewrite (leadingId_bare_start x i _ Hi). cbn [takeWhile]. rewrite Hc.
    intros [= E]. apply (f_equal String.length) in E.
    rewrite append_length in E. cbn [String.length] in E. lia.
Qed.

Lemma findEntry_quoted_and_bare_ids_witness :
  (exists r, PreHook.findEntry [Js.dquote ++ "INT-001" ++ Js.dquote ++ " # core"] "INT-001"
             = Some r /\ id r = "INT-001")
  /\ (exists r, PreHook.findEntry ["INT-001"] "INT-001" = Some r /\ id r = "INT-001")
  /\ PreHook.findEntry ["INT-001" ++ Js.lf ++ "    name: Core"] "INT-001" = None.
Proof.
  destruct (findEntry_quoted_and_bare_ids "INT-001" " # core" []) as (H1 & H2 & _);
    [discriminate | reflexivity |].
  split; [exact H1|]. split; [exact H2|].
  destruct (findEntry_quoted_and_bare_ids "INT-001" "    name: Core" []) as (_ & _ & _ & H4);
    [discriminate | reflexivity |].
  exact (H4 Js.lfChar eq_refl).
Defined.

(** ** Splitting the registry into entries *)

Section Shift.
Variables (ic : bool) (n : nat).

Lemma greedyLoop_shift (cl : RegExp.CharClass) (k : RegExp.Cont) :
  (forall s pos gs ge, k s (n + pos) gs ge = shifted n (k s pos gs ge)) ->
  forall s pos gs ge,
    RegExp.greedyLoop ic cl k s (n + pos) gs ge
    = shifted n (RegExp.greedyLoop ic cl k s pos gs ge).
Proof.
  intros Hk s. induction s as [|c s IH]; intros pos gs ge; cbn [RegExp.greedyLoop];
    [apply Hk|].
  destruct (RegExp.classMatches ic cl c); [|apply Hk].
  rewrite <- Nat.add_succ_r, IH.
  destruct (RegExp.greedyLoop ic cl k s (S pos) gs ge); [reflexivity | apply Hk].
Qed.

Lemma lazyLoop_shift (cl : RegExp.CharClass) (k : RegExp.Cont) :
  (forall s pos gs ge, k s (n + pos) gs ge = shifted n (k s pos gs ge)) ->
  forall s pos gs ge,
    RegExp.lazyLoop ic cl k s (n + pos) gs ge
    = shifted n (RegExp.lazyLoop ic cl k s pos gs ge).
Proof.
  intros Hk s. induction s as [|c s IH]; intros pos gs ge; cbn [RegExp.lazyLoop];
    rewrite Hk; destruct (k _ pos gs ge); try reflexivity.
  destruct (RegExp.classMatches ic cl c); [|reflexivity].
  now rewrite <- Nat.add_succ_r, IH.
Qed.

(** An expression without start anchor and group marks matches at every
    index alike. *)
Lemma matchFrom_shift (r : list RegExp.Node) :
  positionFree r = true ->
  forall s pos gs ge,
    RegExp.matchFrom ic r s (n + pos) gs ge = shifted n (RegExp.matchFrom ic r s pos gs ge).
Proof.
  induction r as [|node r IH]; [reflexivity|].
  cbn [positionFree forallb]. intros [Hnode Hr]%andb_prop. specialize (IH Hr).
  intros s pos gs ge. destruct node as [cl q| | | |]; try discriminate Hnode.
  - cbn [RegExp.matchFrom]. destruct q.
    + destruct s as [|c s]; [reflexivity|].
      destruct (RegExp.classMatches ic cl c); [|reflexivity].
      now rewrite <- Nat.add_succ_r, IH.
    + now apply greedyLoop_shift.
    + destruct s as [|c s]; [reflexivity|].
      destruct (RegExp.classMatches ic cl c); [|reflexivity].
      rewrite <- Nat.add_succ_r. now apply greedyLoop_shift.
    + destruct s as [|c s]; [apply IH|].
      destruct (RegExp.classMatches ic cl c); [|apply IH].
      rewrite <- Nat.add_succ_r, !IH.
      now destruct (RegExp.matchFrom ic r s (S pos) gs ge).
    + now apply lazyLoop_shift.
  - cbn [RegExp.matchFrom]. destruct s; [apply IH | reflexivity].
Qed.

End Shift.

(** The search never ends before the index it started at. *)
Lemma greedyLoop_mono (ic : bool) (cl : RegExp.CharClass) (k : RegExp.Cont) :
  (forall s pos gs ge m, k s pos gs ge = Some m -> pos <= RegExp.endIndex m) ->
  forall s pos gs ge m,
    RegExp.greedyLoop ic cl k s pos gs ge = Some m -> pos <= RegExp.endIndex m.
Proof.
  intros Hk s. induction s as [|c s IH]; intros pos gs ge m; cbn [RegExp.greedyLoop];
    [apply Hk|].
  destruct (RegExp.classMatches ic cl c); [|apply Hk].
  destruct (RegExp.greedyLoop ic cl k s (S pos) gs ge) as [m'|] eqn:E; [|apply Hk].
  intros [= <-]. apply IH in E. lia.
Qed.

Lemma lazyLoop_mono (ic : bool) (cl : RegExp.CharClass) (k : RegExp.Cont) :
  (forall s pos gs ge m, k s pos gs ge = Some m -> pos <= RegExp.endIndex m) ->
  forall s pos gs ge m,
    RegExp.lazyLoop ic cl k s pos gs ge = Some m -> pos <= RegExp.endIndex m.
Proof.
  intros Hk s. induction s as [|c s IH]; intros pos gs ge m; cbn [RegExp.lazyLoop];
    destruct (k _ pos gs ge) as [m'|] eqn:E; try discriminate;
    try (intros [= <-]; now apply Hk in E).
  destruct (RegExp.classMatches ic cl c); [|discriminate].
  intros H. apply IH in H. lia.
Qed.

Lemma matchFrom_mono (ic : bool) (r : list RegExp.Node) :
  forall s pos gs ge m,
    RegExp.matchFrom ic r s pos gs ge = Some m -> pos <= RegExp.endIndex m.
Proof.
  induction r as [|node r IH]; intros s pos gs ge m; cbn [RegExp.matchFrom].
  - intros [= <-]. reflexivity.
  - destruct node as [cl q| | | |].
    + destruct q.
      * destruct s as [|c s]; [discriminate|].
        destruct (RegExp.classMatches ic cl c); [|discriminate].
        intros H. apply IH in H. lia.
      * now apply greedyLoop_mono.
      * destruct s as [|c s]; [discriminate|].
        destruct (RegExp.classMatches ic cl c); [|discriminate].
        intros H. apply (greedyLoop_mono ic cl _ IH) in H. lia.
      * destruct s as [|c s]; [apply IH|].
        destruct (RegExp.classMatches ic cl c); [|apply IH].
        destruct (RegExp.matchFrom ic r s (S pos) gs ge) as [m'|] eqn:E; [|apply IH].
        intros [= <-]. apply IH in E. lia.
      * now apply lazyLoop_mono.
    + apply IH.
    + apply IH.
    + destruct (Nat.eqb pos 0); [apply IH | discriminate].
    + destruct s; [apply IH | discriminate].
Qed.

(** The separator of the entries starts with a line feed: it matches only
    there, and never the empty text. *)
Lemma entrySeparator_matchAt (c : ascii) (s : string) (pos : nat) (m : RegExp.MatchState) :
  RegExp.matchAt PreHook.entrySeparator (String c s) pos = Some m ->
  c = Js.lfChar /\ S pos <= RegExp.endIndex m.
Proof.
  unfold RegExp.matchAt.
  change (RegExp.nodes PreHook.entrySeparator)
    with (RegExp.Atom (RegExp.Chr Js.lfChar) RegExp.One
          :: tail (RegExp.nodes PreHook.entrySeparator)).
  cbn [RegExp.matchFrom RegExp.ignoreCase PreHook.entrySeparator].
  cbn [RegExp.classMatches RegExp.sameChar].
  destruct (Ascii.eqb Js.lfChar c) eqn:Ec; [|discriminate].
  apply Ascii.eqb_eq in Ec. intros H. apply matchFrom_mono in H. now split.
Qed.

Lemma splitGo_shift (re : RegExp.t) (n : nat) :
  positionFree (RegExp.nodes re) = true ->
  forall s pos skip piece,
    RegExp.splitGo re s (n + pos) skip piece = RegExp.splitGo re s pos skip piece.
Proof.
  intros Hre s. induction s as [|c s IH]; intros pos skip piece; [reflexivity|].
  cbn [RegExp.splitGo]. rewrite <- !Nat.add_succ_r.
  destruct skip as [|k]; [|apply IH].
  unfold RegExp.matchAt. rewrite (matchFrom_shift _ n _ Hre).
  destruct (RegExp.matchFrom _ _ (String c s) pos None None) as [m|]; cbn [shifted option_map];
    [|apply IH].
  cbn [RegExp.endIndex].
  replace (n + RegExp.endIndex m - (n + pos)) with (RegExp.endIndex m - pos) by lia.
  destruct (RegExp.endIndex m - pos); [destruct piece|]; now rewrite IH.
Qed.

(** What has been collected of the first piece does not show in the pieces
    after it. *)
Lemma splitGo_tail (s : string) :
  forall pos skip piece piece',
    tail (RegExp.splitGo PreHook.entrySeparator s pos skip piece)
    = tail (RegExp.splitGo PreHook.entrySeparator s pos skip piece').
Proof.
  induction s as [|c s IH]; intros pos skip piece piece'; [reflexivity|].
  cbn [RegExp.splitGo]. destruct skip as [|k]; [|apply IH].
  destruct (RegExp.matchAt PreHook.entrySeparator (String c s) pos) as [m|] eqn:E;
    [|apply IH].
  apply entrySeparator_matchAt in E as [_ E].
  destruct (RegExp.endIndex m - pos) eqn:El; [lia|]. reflexivity.
Qed.

(** Characters before the first line feed go to the first piece. *)
Lemma splitGo_first_line (head s : string) :
  Js.allChars notLf head = true ->
  forall pos piece,
    exists piece',
      RegExp.splitGo PreHook.entrySeparator (head ++ s) pos 0 piece
      = RegExp.splitGo PreHook.entrySeparator s (String.length head + pos) 0 piece'.
Proof.
  induction head as [|c head IH]; intros Hhead pos piece.
  - exists piece. now rewrite append_nil_l.
  - cbn [Js.allChars] in Hhead. apply andb_prop in Hhead as [Hc Hhead].
    rewrite append_cons. cbn [RegExp.splitGo].
    destruct (RegExp.matchAt PreHook.entrySeparator (String c (head ++ s)) pos) as [m|] eqn:E.
    { apply entrySeparator_matchAt in E as [-> _]. discriminate Hc. }
    destruct (IH Hhead (S pos) (String c piece)) as [piece' ->].
    exists piece'. cbn [String.length]. now rewrite Nat.add_succ_r.
Qed.

Lemma split_tail (input : string) :
  tail (RegExp.split PreHook.entrySeparator input)
  = tail (RegExp.splitGo PreHook.entrySeparator input 0 0 EmptyString).
Proof. destruct input; reflexivity. Qed.

(** The text before the first line feed is no entry. *)
Lemma split_first_line (head rest : string) :
  Js.allChars notLf head = true ->
  tail (RegExp.split PreHook.entrySeparator (head ++ rest))
  = tail (RegExp.split PreHook.entrySeparator rest).
Proof.
  intros Hhead. rewrite !split_tail.
  destruct (splitGo_first_line head rest Hhead 0 EmptyString) as [piece' ->].
  rewrite (splitGo_shift PreHook.entrySeparator (String.length head) eq_refl).
  apply splitGo_tail.
Qed.

Lemma tool_extractIntentBlock_entries (yaml i : string) :
  SelectActiveIntentTool.extractIntentBlock yaml i
  = SelectActiveIntentTool.findEntry (tail (RegExp.split PreHook.entrySeparator yaml)) i.
Proof. destruct yaml; reflexivity. Qed.

(** X8. The registry is cut at the line feeds that are followed by a dash
    and [id:], and the first piece is dropped: whatever stands before the
    first line feed of the file is never an entry, so an entry written on
    the first line is not found. Both copies of the extractor agree. *)
Theorem extractIntentBlock_ignores_first_line (head rest i : string) :
  Js.allChars notLf head = true ->
  PreHook.extractIntentBlock (head ++ rest) i = PreHook.extractIntentBlock rest i
  /\ SelectActiveIntentTool.extractIntentBlock (head ++ rest) i
     = SelectActiveIntentTool.extractIntentBlock rest i
  /\ PreHook.extractIntentBlock head i = None
  /\ SelectActiveIntentTool.extractIntentBlock head i = None.
Proof.
  intros Hhead. unfold PreHook.extractIntentBlock.
  rewrite !tool_extractIntentBlock_entries, (split_first_line head rest Hhead).
  repeat split.
  - rewrite <- (append_nil_r head), (split_first_line head EmptyString Hhead). reflexivity.
  - rewrite <- (append_nil_r head), (split_first_line head EmptyString Hhead). reflexivity.
Qed.

Lemma extractIntentBlock_ignores_first_line_witness :
  let head := "  - id: " ++ Js.dquote ++ "INT-001" ++ Js.dquote in
  let rest := Js.lf ++ "    name: Core" ++ Js.lf ++ "  - id: " ++ Js.dquote ++ "INT-002"
              ++ Js.dquote ++ Js.lf in
  PreHook.extractIntentBlock (head ++ rest) "INT-001" = None
  /\ exists r, PreHook.extractIntentBlock (head ++ rest) "INT-002" = Some r.
Proof.
  intros head rest. split.
  - rewrite (proj1 (extractIntentBlock_ignores_first_line head rest "INT-001" eq_refl)).
    reflexivity.
  - rewrite (proj1 (extractIntentBlock_ignores_first_line head rest "INT-002" eq_refl)).
    eexists. reflexivity.
Defined.

(** ** The strict selection and the tool *)

Lemma findEntry_nonempty_id (es : list string) (i : string) (r : Intent) :
  PreHook.findEntry es i = Some r -> i <> EmptyString.
Proof.
  induction es as [|e es IH]; [discriminate|].
  rewrite findEntry_head. case_bool_decide as Hid; [|exact IH].
  intros _. exact (leadingId_nonempty _ _ Hid).
Qed.

(** X2. The strict selection of the gatekeeper never throws, and it stores
    the id exactly when the registry can be read and has an entry for it:
    a failure is reported in the returned record and leaves the state as it
    was. After a success the stored id is not empty, so the pre-hook lets
    every tool through. *)
Theorem selectActiveIntent_stores_registered_ids_only (intentId : string) (w : World) :
  exists report,
    fst (selectActiveIntent intentId w) = Ok report
    /\ (success report = true
        <-> exists yaml block,
              workspace w !! PreHook.intentsFile = Some yaml
              /\ PreHook.extractIntentBlock yaml intentId = Some block)
    /\ (success report = false -> snd (selectActiveIntent intentId w) = w)
    /\ (success report = true ->
        snd (selectActiveIntent intentId w)
        = {| activeIntentId := Some intentId; workspace := workspace w;
             directories := directories w; tick := tick w |}
        /\ forall toolName,
             executePreHook toolName tt (snd (selectActiveIntent intentId w))
             = (Ok tt, snd (selectActiveIntent intentId w))).
Proof.
  unfold selectActiveIntent.
  destruct (workspace w !! PreHook.intentsFile) as [yaml|] eqn:Hfile.
  - destruct (PreHook.extractIntentBlock yaml intentId) as [block|] eqn:Hblock.
    + eexists. split; [reflexivity|]. cbn [success snd]. split; [|split].
      * split; [eauto | reflexivity].
      * discriminate.
      * intros _. split; [reflexivity|]. intros toolName.
        apply findEntry_nonempty_id in Hblock.
        unfold executePreHook. cbn [activeIntentId].
        destruct intentId; [contradiction|]. cbn.
        now destruct (_ || _).
    + eexists. split; [reflexivity|]. cbn [success snd]. split; [|split].
      * split; [discriminate|]. intros (yaml' & block & [= <-] & H). congruence.
      * reflexivity.
      * discriminate.
  - eexists. split; [reflexivity|]. cbn [success snd]. split; [|split].
    + split; [discriminate|]. intros (yaml' & block & H & _). discriminate.
    + reflexivity.
    + discriminate.
Qed.

(** X3. The two ways of resolving an id disagree on an id the registry does
    not have (or when the registry cannot be read): [validate] accepts it
    and returns the stub, the strict selection refuses it and stores
    nothing. *)
Theorem unknown_id_accepted_by_validate_refused_by_selection (s : string) (w : World) :
  Js.trim s <> EmptyString ->
  (workspace w !! PreHook.intentsFile) ≫= (fun yaml => PreHook.extractIntentBlock yaml s)
  = None ->
  PreHook.validate (Some s) w = (Ok (PreHook.permissiveStub s), w)
  /\ exists report, selectActiveIntent s w = (Ok report, w) /\ success report = false.
Proof.
  intros Htrim Hreg. split.
  - apply (validate_degraded s w Htrim).
    destruct (workspace w !! PreHook.intentsFile) as [yaml|]; [right | now left].
    exists yaml. split; [reflexivity | exact Hreg].
  - unfold selectActiveIntent.
    destruct (workspace w !! PreHook.intentsFile) as [yaml|]; cbn in Hreg.
    + rewrite Hreg. eexists. split; reflexivity.
    + eexists. split; reflexivity.
Qed.

Lemma unknown_id_accepted_by_validate_refused_by_selection_witness :
  PreHook.validate (Some "INT-404") (initialWorld sampleFiles)
  = (Ok (PreHook.permissiveStub "INT-404"), initialWorld sampleFiles)
  /\ exists report,
       selectActiveIntent "INT-404" (initialWorld sampleFiles)
       = (Ok report, initialWorld sampleFiles)
       /\ success report = false.
Proof.
  apply (unknown_id_accepted_by_validate_refused_by_selection "INT-404"
           (initialWorld sampleFiles)).
  - discriminate.
  - reflexivity.
Defined.

Lemma tool_findEntry_agrees (es : list string) (i : string) :
  SelectActiveIntentTool.findEntry es i = option_map withoutCriteria (PreHook.findEntry es i).
Proof.
  induction es as [|e es IH]; [reflexivity|].
  cbn [SelectActiveIntentTool.findEntry PreHook.findEntry].
  case_bool_decide; [reflexivity | exact IH].
Qed.

(** X10. The tool's own copy of the extractor and the one of [PreHook] read
    the registry alike: for every text and id the tool finds an entry
    exactly when [PreHook] does, with the same id, name, scope and
    constraints; only the acceptance criteria are left out. The tool's
    extra test for an empty text changes nothing. *)
Theorem tool_extractor_agrees_with_PreHook (yaml i : string) :
  SelectActiveIntentTool.extractIntentBlock yaml i
  = option_map withoutCriteria (PreHook.extractIntentBlock yaml i).
Proof.
  rewrite tool_extractIntentBlock_entries. apply tool_findEntry_agrees.
Qed.

Lemma tool_findEntry_id (es : list string) (i : string) (r : Intent) :
  SelectActiveIntentTool.findEntry es i = Some r -> id r = i.
Proof.
  induction es as [|e es IH]; cbn [SelectActiveIntentTool.findEntry]; [discriminate|].
  case_bool_decide; [|exact IH]. now intros [= <-].
Qed.

(** X11. The tool marks every id as verified: for each non-empty id, known
    to the registry or not, blank or not, it stores that very id in the
    session state together with [isIntentVerified = true], and the text it
    pushes is the context of the registry entry or, failing that, of its
    stub. Only an absent or empty id is answered with the error text, and
    then the session state is left as it was. *)
Theorem execute_marks_every_id_verified (intent_id : option string)
    (files : gmap string string) (proxy : SelectActiveIntentTool.ContextProxy) :
  (Js.truthy intent_id = false
   /\ SelectActiveIntentTool.execute intent_id files proxy
      = ("<intent_context>error: missing intent_id</intent_context>", proxy))
  \/ (Js.truthy intent_id = true
      /\ snd (SelectActiveIntentTool.execute intent_id files proxy)
         = {| SelectActiveIntentTool.proxyActiveIntentId := intent_id;
              SelectActiveIntentTool.isIntentVerified := true |}
      /\ exists intentId intent,
           intent_id = Some intentId /\ id intent = intentId
           /\ fst (SelectActiveIntentTool.execute intent_id files proxy)
              = SelectActiveIntentTool.xmlOf intent
           /\ (intent = SelectActiveIntentTool.toolStub intentId
               \/ exists yaml, files !! PreHook.intentsFile = Some yaml
                               /\ SelectActiveIntentTool.extractIntentBlock yaml intentId
                                  = Some intent)).
Proof.
  destruct intent_id as [[|c s]|]; [left; now split | right | left; now split].
  split; [reflexivity|]. cbn [SelectActiveIntentTool.execute snd fst].
  destruct (files !! PreHook.intentsFile) as [yaml|] eqn:Hfile;
    cbv [default from_option Datatypes.id].
  - destruct (SelectActiveIntentTool.extractIntentBlock yaml (String c s)) as [r|] eqn:Hr.
    + assert (Hid : id r = String c s).
      { rewrite tool_extractIntentBlock_entries in Hr. exact (tool_findEntry_id _ _ _ Hr). }
      rewrite Hid. split; [reflexivity|].
      exists (String c s), r. repeat split; eauto.
    + split; [reflexivity|]. exists (String c s), (SelectActiveIntentTool.toolStub (String c s)).
      repeat split. now left.
  - split; [reflexivity|]. exists (String c s), (SelectActiveIntentTool.toolStub (String c s)).
    repeat split. now left.
Qed.

(** ** What the extractor captures *)

(** Where a loop hands over to what follows it. *)
Lemma greedyLoop_reach (ic : bool) (cl : RegExp.CharClass) (k : RegExp.Cont) :
  forall s pos gs ge m,
    RegExp.greedyLoop ic cl k s pos gs ge = Some m ->
    exists taken rest,
      s = taken ++ rest
      /\ Js.allChars (RegExp.classMatches ic cl) taken = true
      /\ k rest (pos + String.length taken) gs ge = Some m.
Proof.
  assert (Hstop : forall s pos gs ge m,
             k s pos gs ge = Some m ->
             exists taken rest,
               s = taken ++ rest
               /\ Js.allChars (RegExp.classMatches ic cl) taken = true
               /\ k rest (pos + String.length taken) gs ge = Some m).
  { intros s pos gs ge m H. exists EmptyString, s.
    cbn [String.length Js.allChars]. now rewrite append_nil_l, Nat.add_0_r. }
  induction s as [|c s IH]; intros pos gs ge m; cbn [RegExp.greedyLoop]; [apply Hstop|].
  destruct (RegExp.classMatches ic cl c) eqn:Ec; [|apply Hstop].
  destruct (RegExp.greedyLoop ic cl k s (S pos) gs ge) as [m'|] eqn:E; [|apply Hstop].
  intros [= <-]. destruct (IH _ _ _ _ E) as (taken & rest & -> & Htaken & Hk).
  exists (String c taken), rest. rewrite append_cons. cbn [Js.allChars String.length].
  rewrite Ec, Htaken, Nat.add_succ_r. auto.
Qed.

Lemma lazyLoop_reach (ic : bool) (cl : RegExp.CharClass) (k : RegExp.Cont) :
  forall s pos gs ge m,
    RegExp.lazyLoop ic cl k s pos gs ge = Some m ->
    exists taken rest,
      s = taken ++ rest
      /\ Js.allChars (RegExp.classMatches ic cl) taken = true
      /\ k rest (pos + String.length taken) gs ge = Some m.
Proof.
  induction s as [|c s IH]; intros pos gs ge m; cbn [RegExp.lazyLoop];
    destruct (k _ pos gs ge) as [m'|] eqn:E.
  - intros [= <-]. exists EmptyString, EmptyString. cbn. now rewrite Nat.add_0_r.
  - discriminate.
  - intros [= <-]. exists EmptyString, (String c s).
    cbn [String.length Js.allChars]. now rewrite append_nil_l, Nat.add_0_r.
  - destruct (RegExp.classMatches ic cl c) eqn:Ec; [|discriminate].
    intros H. destruct (IH _ _ _ _ H) as (taken & rest & -> & Htaken & Hk).
    exists (String c taken), rest. rewrite append_cons. cbn [Js.allChars String.length].
    rewrite Ec, Htaken, Nat.add_succ_r. auto.
Qed.

(** Nodes without anchor at the start and without group marks consume a
    part of the input and hand the rest, and the groups as they were, to
    the nodes after them. *)
Lemma matchFrom_reach (ic : bool) (front back : list RegExp.Node) :
  positionFree front = true ->
  forall s pos gs ge m,
    RegExp.matchFrom ic (front ++ back) s pos gs ge = Some m ->
    exists skipped rest,
      s = skipped ++ rest
      /\ RegExp.matchFrom ic back rest (pos + String.length skipped) gs ge = Some m.
Proof.
  induction front as [|node front IH]; intros Hfront s pos gs ge m.
  - intros H. exists EmptyString, s. cbn [String.length].
    now rewrite append_nil_l, Nat.add_0_r.
  - cbn [positionFree forallb] in Hfront. apply andb_prop in Hfront as [Hnode Hfront].
    specialize (IH Hfront).
    assert (Hcons : forall c s' pos',
               (exists skipped rest,
                   s' = skipped ++ rest
                   /\ RegExp.matchFrom ic back rest (S pos' + String.length skipped) gs ge
                      = Some m) ->
               exists skipped rest,
                 String c s' = skipped ++ rest
                 /\ RegExp.matchFrom ic back rest (pos' + String.length skipped) gs ge = Some m).
    { intros c s' pos' (skipped & rest & -> & H). exists (String c skipped), rest.
      rewrite append_cons. cbn [String.length]. now rewrite Nat.add_succ_r. }
    assert (Hloop : forall s0 pos0,
               (exists taken rest0,
                   s0 = taken ++ rest0
                   /\ Js.allChars (RegExp.classMatches ic
                                     match node with RegExp.Atom cl _ => cl | _ => RegExp.Any end)
                        taken = true
                   /\ RegExp.matchFrom ic (front ++ back) rest0 (pos0 + String.length taken) gs ge
                      = Some m) ->
               exists skipped rest,
                 s0 = skipped ++ rest
                 /\ RegExp.matchFrom ic back rest (pos0 + String.length skipped) gs ge = Some m).
    { intros s0 pos0 (taken & rest0 & -> & _ & H).
      destruct (IH _ _ _ _ _ H) as (skipped & rest & -> & H').
      exists (taken ++ skipped), rest.
      rewrite append_assoc, append_length, Nat.add_assoc. auto. }
    destruct node as [cl q| | | |]; try discriminate Hnode;
      cbn [app RegExp.matchFrom].
    + destruct q.
      * destruct s as [|c s]; [discriminate|].
        destruct (RegExp.classMatches ic cl c); [|discriminate].
        intros H. apply Hcons. now apply IH.
      * intros H. apply Hloop. now apply greedyLoop_reach.
      * destruct s as [|c s]; [discriminate|].
        destruct (RegExp.classMatches ic cl c); [|discriminate].
        intros H. apply Hcons, Hloop. now apply greedyLoop_reach.
      * destruct s as [|c s]; [apply IH|].
        destruct (RegExp.classMatches ic cl c); [|apply IH].
        destruct (RegExp.matchFrom ic (front ++ back) s (S pos) gs ge) as [m'|] eqn:E;
          [|apply IH].
        intros [= <-]. apply Hcons. now apply IH.
      * intros H. apply Hloop. now apply lazyLoop_reach.
    + destruct s; [apply IH | discriminate].
Qed.

Lemma execFrom_reach (re : RegExp.t) :
  forall s pos m,
    RegExp.execFrom re s pos = Some m ->
    exists skipped rest,
      s = skipped ++ rest /\ RegExp.matchAt re rest (pos + String.length skipped) = Some m.
Proof.
  induction s as [|c s IH]; intros pos m; cbn [RegExp.execFrom];
    destruct (RegExp.matchAt re _ pos) as [m'|] eqn:E; try discriminate.
  - intros [= <-]. exists EmptyString, EmptyString. cbn. now rewrite Nat.add_0_r.
  - intros [= <-]. exists EmptyString, (String c s). cbn [String.length].
    now rewrite append_nil_l, Nat.add_0_r.
  - intros H. destruct (IH _ _ H) as (skipped & rest & -> & Hm).
    exists (String c skipped), rest. rewrite append_cons. cbn [String.length].
    now rewrite Nat.add_succ_r.
Qed.

Lemma substring_prefix (b c : string) : substring 0 (String.length b) (b ++ c) = b.
Proof.
  induction b as [|x b IH]; [now destruct c|].
  rewrite append_cons. cbn [String.length substring]. now rewrite IH.
Qed.

Lemma substring_middle (a b c : string) :
  substring (String.length a) (String.length b) (a ++ b ++ c) = b.
Proof.
  induction a as [|x a IH]; [rewrite append_nil_l; apply substring_prefix|].
  rewrite append_cons. cbn [String.length substring]. exact IH.
Qed.

(** The text of a group made of one class repeated at least once: a run
    of characters of the class, not empty. *)
Lemma group1_capture (re : RegExp.t) (front back : list RegExp.Node)
    (cl : RegExp.CharClass) (input captured : string) :
  RegExp.nodes re
  = (front ++ RegExp.GroupOpen :: RegExp.Atom cl RegExp.Plus :: RegExp.GroupClose :: back)%list ->
  positionFree front = true -> positionFree back = true ->
  RegExp.group1 re input = Some captured ->
  captured <> EmptyString
  /\ Js.allChars (RegExp.classMatches (RegExp.ignoreCase re) cl) captured = true.
Proof.
  intros Hre Hfront Hback. unfold RegExp.group1, RegExp.exec.
  destruct (RegExp.execFrom re input 0) as [m|] eqn:E; [|discriminate].
  apply execFrom_reach in E as (sk1 & s1 & -> & E). unfold RegExp.matchAt in E.
  rewrite Hre in E. apply (matchFrom_reach _ _ _ Hfront) in E as (sk2 & s2 & -> & E).
  cbn [RegExp.matchFrom] in E. destruct s2 as [|c s2]; [discriminate|].
  destruct (RegExp.classMatches (RegExp.ignoreCase re) cl c) eqn:Ec; [|discriminate].
  apply greedyLoop_reach in E as (taken & rest & -> & Htaken & E).
  change (RegExp.matchFrom (RegExp.ignoreCase re) back rest
            (S (0 + String.length sk1 + String.length sk2) + String.length taken)
            (Some (0 + String.length sk1 + String.length sk2))
            (Some (S (0 + String.length sk1 + String.length sk2) + String.length taken))
          = Some m) in E.
  rewrite <- (app_nil_r back) in E.
  apply (matchFrom_reach _ _ _ Hback) in E as (sk3 & s3 & -> & E).
  cbn [RegExp.matchFrom] in E. injection E as <-. intros [= <-].
  cbn [Nat.add]. rewrite <- append_length, <- append_cons, <- (append_assoc sk1 sk2).
  set (a := sk1 ++ sk2).
  replace (S (String.length a + String.length taken) - String.length a)
    with (String.length (String c taken)) by (cbn [String.length]; lia).
  rewrite substring_middle.
  split; [discriminate|]. cbn [Js.allChars]. now rewrite Ec, Htaken.
Qed.

Lemma sameChar_refl (ic : bool) (c : ascii) : RegExp.sameChar ic c c = true.
Proof. destruct ic; cbn; apply Ascii.eqb_refl. Qed.

Lemma classMatches_fieldChar (ic : bool) (c : ascii) :
  RegExp.classMatches ic (RegExp.NoneOf [Js.dquoteChar; Js.lfChar]) c = true ->
  fieldChar c = true.
Proof.
  cbn [RegExp.classMatches existsb]. intros H. apply negb_true_iff in H.
  apply orb_false_iff in H as [Hq H]. apply orb_false_iff in H as [Hl _].
  unfold fieldChar.
  destruct (Ascii.eqb c Js.dquoteChar) eqn:Eq.
  { apply Ascii.eqb_eq in Eq. subst c. now rewrite sameChar_refl in Hq. }
  destruct (Ascii.eqb c Js.lfChar) eqn:El; [|reflexivity].
  apply Ascii.eqb_eq in El. subst c. now rewrite sameChar_refl in Hl.
Qed.

Lemma allChars_impl (p q : ascii -> bool) (s : string) :
  (forall c, p c = true -> q c = true) -> Js.allChars p s = true -> Js.allChars q s = true.
Proof.
  intros H. induction s as [|c s IH]; [reflexivity|]. cbn [Js.allChars].
  intros [Hc Hs]%andb_prop. now rewrite (H c Hc), IH.
Qed.

Lemma listItem_clean (line item : string) :
  RegExp.group1 PreHook.listItem line = Some item -> cleanText item.
Proof.
  intros H.
  destruct (group1_capture PreHook.listItem
              (RegExp.lit "-" ++ [RegExp.Atom RegExp.Space RegExp.Star;
                                  RegExp.Atom (RegExp.Chr Js.dquoteChar) RegExp.Opt])%list
              [RegExp.Atom (RegExp.Chr Js.dquoteChar) RegExp.Opt]
              (RegExp.NoneOf [Js.dquoteChar; Js.lfChar]) line item eq_refl eq_refl eq_refl H)
    as [Hne Hall].
  split; [exact Hne|]. exact (allChars_impl _ _ _ (classMatches_fieldChar _) Hall).
Qed.

Lemma scalarField_clean (entry value : string) :
  RegExp.group1 (PreHook.scalarField "name") entry = Some value -> cleanText value.
Proof.
  intros H.
  destruct (group1_capture (PreHook.scalarField "name")
              (RegExp.lit Js.lf ++ [RegExp.Atom RegExp.Space RegExp.Star]
               ++ RegExp.lit "name:"
               ++ [RegExp.Atom RegExp.Space RegExp.Star;
                   RegExp.Atom (RegExp.Chr Js.dquoteChar) RegExp.Opt])%list
              [RegExp.Atom (RegExp.Chr Js.dquoteChar) RegExp.Opt]
              (RegExp.NoneOf [Js.dquoteChar; Js.lfChar]) entry value eq_refl eq_refl eq_refl H)
    as [Hne Hall].
  split; [exact Hne|]. exact (allChars_impl _ _ _ (classMatches_fieldChar _) Hall).
Qed.

Lemma listField_clean (key entry : string) :
  Forall cleanText (PreHook.listField key entry).
Proof.
  unfold PreHook.listField. destruct (Js.truthy _); [|constructor].
  apply Forall_forall. intros item Hitem.
  apply list_elem_of_omap in Hitem as (line & _ & Hline).
  destruct (Js.truthy (RegExp.group1 PreHook.listItem line)); [|discriminate].
  exact (listItem_clean _ _ Hline).
Qed.

(** X9. Every text the extractor puts in a record is clean: the name and
    each item of the scope, of the constraints and of the acceptance
    criteria is not empty and holds neither a double quote nor a line feed,
    and the id is not empty and holds no double quote, whatever the
    registry text looks like. The three lists are always present. *)
Theorem extractIntentBlock_fields_are_clean (yaml i : string) (r : Intent) :
  PreHook.extractIntentBlock yaml i = Some r ->
  id r = i /\ i <> EmptyString /\ Js.allChars notQuote i = true
  /\ (forall n, name r = Some n -> cleanText n)
  /\ (exists scope constraints' criteria,
        owned_scope r = Some scope /\ constraints r = Some constraints'
        /\ acceptance_criteria r = Some criteria
        /\ Forall cleanText scope /\ Forall cleanText constraints'
        /\ Forall cleanText criteria).
Proof.
  unfold PreHook.extractIntentBlock.
  induction (tail (RegExp.split PreHook.entrySeparator yaml)) as [|entry entries IH];
    [discriminate|].
  rewrite findEntry_head. case_bool_decide as Hid; [|exact IH].
  intros [= <-]. cbn [id name owned_scope constraints acceptance_criteria].
  split; [reflexivity|]. split; [exact (leadingId_nonempty _ _ Hid)|]. split.
  - unfold leadingId in Hid.
    destruct (takeWhile notQuote _) as [|c t] eqn:Et; [discriminate|].
    injection Hid as <-. rewrite <- Et. apply takeWhile_allChars.
  - split; [intros n Hn; exact (scalarField_clean _ _ Hn)|].
    eexists _, _, _. repeat split; apply listField_clean.
Qed.

Lemma extractIntentBlock_fields_are_clean_witness :
  let r := {| id := "INT-001"; name := Some "Core refactor";
              owned_scope := Some ["src/core/**"];
              constraints := Some ["No public API change"];
              acceptance_criteria := Some ["Unit tests pass"] |} in
  PreHook.extractIntentBlock sampleRegistry "INT-001" = Some r
  /\ Forall cleanText ["src/core/**"].
Proof.
  intros r.
  assert (Hr : PreHook.extractIntentBlock sampleRegistry "INT-001" = Some r)
    by (vm_compute; reflexivity).
  split; [exact Hr|].
  destruct (extractIntentBlock_fields_are_clean sampleRegistry "INT-001" r Hr)
    as (_ & _ & _ & _ & scope & cs & ac & Hscope & _ & _ & H & _).
  injection Hscope as <-. exact H.
Defined.

(** ** More on the scope matcher *)

Lemma enforceScope_plain_witness :
  let intent := {| id := "INT-002"; name := None;
                   owned_scope := Some ["docs/*"; "src/hooks/*-ts"];
                   constraints := None; acceptance_criteria := None |} in
  PreHook.enforceScope demoHost "src/hooks/PreHook-ts" intent = Ok tt
  /\ PreHook.enforceScope demoHost "docs/api/index" intent
     = Throw (ScopeViolation "INT-002" "docs/api/index").
Proof.
  intros intent. split.
  - apply (proj1 (enforceScope_plain demoHost "src/hooks/PreHook-ts" intent
                    ["docs/*"; "src/hooks/*-ts"] eq_refl eq_refl)). reflexivity.
  - apply (proj2 (enforceScope_plain demoHost "docs/api/index" intent
                    ["docs/*"; "src/hooks/*-ts"] eq_refl eq_refl)). reflexivity.
Defined.

Lemma some_app (host : Host) (filePath : string) (patterns more : list string) :
  PreHook.some host filePath patterns = Ok true ->
  PreHook.some host filePath (patterns ++ more)%list = Ok true.
Proof.
  induction patterns as [|p ps IH]; [discriminate|].
  cbn [PreHook.some app].
  destruct (PreHook.patternAllows host filePath p) as [[|]|e]; auto.
Qed.

(** X14. Patterns added at the end of a scope never take access away: a
    path the scope allows is still allowed, whatever is appended. The
    patterns are tried in order and the search stops at the first match, so
    the appended ones are not even compiled for that path. *)
Theorem enforceScope_appended_patterns_keep_access (host : Host) (filePath : string)
    (intent : Intent) (patterns more : list string) :
  owned_scope intent = Some patterns ->
  PreHook.enforceScope host filePath intent = Ok tt ->
  PreHook.enforceScope host filePath
    {| id := id intent; name := name intent;
       owned_scope := Some (patterns ++ more)%list;
       constraints := constraints intent;
       acceptance_criteria := acceptance_criteria intent |} = Ok tt.
Proof.
  unfold PreHook.enforceScope. intros ->. cbn [owned_scope].
  destruct (PreHook.some host filePath patterns) as [[|]|e] eqn:E; try discriminate.
  intros _. now rewrite (some_app _ _ _ more E).
Qed.

Lemma enforceScope_appended_patterns_keep_access_witness :
  PreHook.enforceScope demoHost "src/core/a.ts"
    {| id := "INT-001"; name := None; owned_scope := Some ["src/core/**"; "(unclosed"];
       constraints := None; acceptance_criteria := None |} = Ok tt.
Proof.
  apply (enforceScope_appended_patterns_keep_access demoHost "src/core/a.ts" INT_001
           ["src/core/**"] ["(unclosed"]); reflexivity.
Defined.

(** *** Literal text in a pattern *)

Lemma literalText_cons (c : ascii) (s : string) :
  literalText (String c s) = true -> RegExp.isMeta c = false /\ literalText s = true.
Proof.
  unfold literalText. cbn [Js.allChars]. intros [Hc Hs]%andb_prop.
  now apply negb_true_iff in Hc.
Qed.

Lemma replaceDoubleStar_literal (p rest : string) :
  literalText p = true ->
  PreHook.replaceDoubleStar (p ++ rest) = p ++ PreHook.replaceDoubleStar rest.
Proof.
  induction p as [|c p IH]; intros Hp; [now rewrite !append_nil_l|].
  apply literalText_cons in Hp as [Hc Hp].
  now rewrite !append_cons, (replaceDoubleStar_plain_char c _ Hc), IH.
Qed.

Lemma replaceStar_literal (p rest : string) :
  literalText p = true ->
  PreHook.replaceStar (p ++ rest) = p ++ PreHook.replaceStar rest.
Proof.
  induction p as [|c p IH]; intros Hp; [now rewrite !append_nil_l|].
  apply literalText_cons in Hp as [Hc Hp].
  now rewrite !append_cons, (replaceStar_plain_char c _ Hc), IH.
Qed.

Lemma parseGo_literal (p rest : string) (acc : list RegExp.Node) :
  literalText p = true ->
  RegExp.parseGo (p ++ rest) acc = RegExp.parseGo rest (rev (RegExp.lit p) ++ acc)%list.
Proof.
  revert acc. induction p as [|c p IH]; intros acc Hp; [now rewrite append_nil_l|].
  apply literalText_cons in Hp as [Hc Hp].
  rewrite append_cons, (parseGo_plain_char c _ acc Hc), (IH _ Hp).
  cbn [RegExp.lit rev]. now rewrite <- app_assoc.
Qed.

(** Literal nodes match the text they were made of, and nothing else. *)
Lemma matchFrom_literal (p : string) (r : list RegExp.Node) :
  forall s pos gs ge,
    isSome (RegExp.matchFrom false (RegExp.lit p ++ r) s pos gs ge) = true
    <-> exists s', s = p ++ s'
                   /\ isSome (RegExp.matchFrom false r s' (pos + String.length p) gs ge) = true.
Proof.
  induction p as [|c p IH]; intros s pos gs ge.
  - cbn [RegExp.lit app String.length]. rewrite Nat.add_0_r. split.
    + intros H. exists s. now rewrite append_nil_l.
    + intros (s' & -> & H). now rewrite append_nil_l.
  - cbn [RegExp.lit app RegExp.matchFrom String.length]. destruct s as [|d s].
    + split; [discriminate|]. intros (s' & H & _). rewrite append_cons in H. discriminate H.
    + cbn [RegExp.classMatches RegExp.sameChar].
      destruct (Ascii.eqb c d) eqn:Ec.
      * apply Ascii.eqb_eq in Ec. subst d. rewrite IH. split.
        -- intros (s' & -> & H). exists s'. rewrite append_cons.
           split; [reflexivity|]. now rewrite Nat.add_succ_r.
        -- intros (s' & E & H). rewrite append_cons in E. injection E as ->.
           exists s'. split; [reflexivity|]. now rewrite Nat.add_succ_r in H.
      * split; [discriminate|]. intros (s' & E & _). rewrite append_cons in E.
        injection E as <- _. now rewrite Ascii.eqb_refl in Ec.
Qed.

Lemma classMatches_notSlash (c : ascii) :
  RegExp.classMatches false (RegExp.NoneOf ["/"%char]) c = notSlash c.
Proof. unfold notSlash. cbn. now rewrite orb_false_r. Qed.

Lemma allChars_ext (p q : ascii -> bool) (s : string) :
  (forall c, p c = q c) -> Js.allChars p s = Js.allChars q s.
Proof.
  intros H. induction s as [|c s IH]; [reflexivity|]. cbn [Js.allChars]. now rewrite H, IH.
Qed.

(** What the code makes of a double star, [.[^/]*] up to the end: one
    character and then no separator. *)
Lemma matchFrom_one_segment (s : string) (pos : nat) (gs ge : option nat) :
  isSome (RegExp.matchFrom false
            [RegExp.Atom RegExp.Dot RegExp.One;
             RegExp.Atom (RegExp.NoneOf ["/"%char]) RegExp.Star; RegExp.AssertEnd]
            s pos gs ge) = true
  <-> exists c t, s = String c t /\ Js.isLineTerminator c = false
                  /\ Js.allChars notSlash t = true.
Proof.
  cbn [RegExp.matchFrom]. destruct s as [|c t].
  - split; [discriminate|]. intros (c & t & H & _). discriminate.
  - cbn [RegExp.classMatches]. destruct (Js.isLineTerminator c) eqn:Ec; cbn [negb].
    + split; [discriminate|]. intros (c' & t' & [= <- <-] & H & _). congruence.
    + change (fun (s0 : string) (pos0 : nat) (gs0 ge0 : option nat) =>
                match s0 with
                | EmptyString =>
                    Some {| RegExp.endIndex := pos0; RegExp.groupStart := gs0;
                            RegExp.groupEnd := ge0 |}
                | String _ _ => None
                end)
        with (RegExp.matchFrom false [RegExp.AssertEnd]).
      rewrite greedyLoop_to_end, (allChars_ext _ notSlash t classMatches_notSlash).
      split; [eauto|]. now intros (c' & t' & [= <- <-] & _ & H).
Qed.

Lemma parseGo_one_segment (acc : list RegExp.Node) :
  RegExp.parseGo ".[^/]*$" acc
  = Some (rev acc ++ [RegExp.Atom RegExp.Dot RegExp.One;
                      RegExp.Atom (RegExp.NoneOf ["/"%char]) RegExp.Star;
                      RegExp.AssertEnd])%list.
Proof. cbn [RegExp.parseGo RegExp.quantify rev]. now rewrite <- !app_assoc. Qed.

(** X15. A pattern that ends in a double star after literal text allows
    exactly the paths made of that text, one character that is no line
    terminator, and then no separator: one path segment, which must not be
    empty. Deeper paths and the directory itself are not allowed. *)
Theorem trailing_double_star_allows_one_segment (host : Host) (prefix filePath : string) :
  literalText prefix = true ->
  exists allowed,
    PreHook.patternAllows host filePath (prefix ++ "**") = Ok allowed
    /\ (allowed = true
        <-> exists c t, filePath = prefix ++ String c t
                        /\ Js.isLineTerminator c = false
                        /\ Js.allChars notSlash t = true).
Proof.
  intros Hp. unfold PreHook.patternAllows, PreHook.scopeRegExpSource, RegExp.parse.
  rewrite (replaceDoubleStar_literal prefix "**" Hp).
  change (PreHook.replaceDoubleStar "**") with ".*".
  rewrite (replaceStar_literal prefix ".*" Hp).
  change (PreHook.replaceStar ".*") with ".[^/]*".
  change (RegExp.parseGo ("^" ++ (prefix ++ ".[^/]*") ++ "$") [])
    with (RegExp.parseGo ((prefix ++ ".[^/]*") ++ "$") [RegExp.AssertStart]).
  rewrite append_assoc, (parseGo_literal prefix _ _ Hp).
  change (".[^/]*" ++ "$") with ".[^/]*$". rewrite parseGo_one_segment.
  set (tail := [RegExp.Atom RegExp.Dot RegExp.One;
                RegExp.Atom (RegExp.NoneOf ["/"%char]) RegExp.Star; RegExp.AssertEnd]).
  rewrite rev_app_distr, rev_involutive. cbn [rev app option_map].
  eexists. split; [reflexivity|].
  rewrite (test_anchored
             {| RegExp.nodes := RegExp.AssertStart :: (RegExp.lit prefix ++ tail)%list;
                RegExp.ignoreCase := false |}
             (RegExp.lit prefix ++ tail)%list filePath eq_refl).
  cbn [RegExp.ignoreCase]. rewrite matchFrom_literal. split.
  - intros (s' & -> & H). apply matchFrom_one_segment in H as (c & t & -> & H).
    now exists c, t.
  - intros (c & t & -> & H). exists (String c t). split; [reflexivity|].
    apply matchFrom_one_segment. now exists c, t.
Qed.

Lemma trailing_double_star_allows_one_segment_witness :
  exists allowed,
    PreHook.patternAllows demoHost "src/core/sub/foo.txt" ("src/core/" ++ "**") = Ok allowed
    /\ (allowed = true
        <-> exists c t, "src/core/sub/foo.txt" = "src/core/" ++ String c t
                        /\ Js.isLineTerminator c = false
                        /\ Js.allChars notSlash t = true).
Proof.
  apply (trailing_double_star_allows_one_segment demoHost "src/core/" "src/core/sub/foo.txt").
  reflexivity.
Defined.

Lemma replaceDoubleStar_literal_id (p : string) :
  literalText p = true -> PreHook.replaceDoubleStar p = p.
Proof.
  intros Hp. rewrite <- (append_nil_r p) at 1.
  now rewrite (replaceDoubleStar_literal p EmptyString Hp), append_nil_r.
Qed.

Lemma replaceStar_literal_id (p : string) :
  literalText p = true -> PreHook.replaceStar p = p.
Proof.
  intros Hp. rewrite <- (append_nil_r p) at 1.
  now rewrite (replaceStar_literal p EmptyString Hp), append_nil_r.
Qed.

(** X16. The characters of a pattern are not escaped: a dot in a pattern,
    as in every file name with an extension, stands for any one character
    that is no line terminator, so the pattern allows more paths than the
    one it spells. *)
Theorem dot_in_pattern_allows_any_character (host : Host) (before after filePath : string) :
  literalText before = true -> literalText after = true ->
  exists allowed,
    PreHook.patternAllows host filePath (before ++ "." ++ after) = Ok allowed
    /\ (allowed = true
        <-> exists c, filePath = before ++ String c after
                      /\ Js.isLineTerminator c = false).
Proof.
  intros Hb Ha. unfold PreHook.patternAllows, PreHook.scopeRegExpSource, RegExp.parse.
  rewrite (replaceDoubleStar_literal before _ Hb).
  change ("." ++ after) with (String "." after).
  change (PreHook.replaceDoubleStar (String "." after))
    with (String "."%char (PreHook.replaceDoubleStar after)).
  rewrite (replaceDoubleStar_literal_id after Ha), (replaceStar_literal before _ Hb).
  change (PreHook.replaceStar (String "." after))
    with (String "."%char (PreHook.replaceStar after)).
  rewrite (replaceStar_literal_id after Ha).
  change (RegExp.parseGo ("^" ++ (before ++ String "." after) ++ "$") [])
    with (RegExp.parseGo ((before ++ String "." after) ++ "$") [RegExp.AssertStart]).
  rewrite append_assoc, (parseGo_literal before _ _ Hb), append_cons.
  change (RegExp.parseGo (String "." (after ++ "$")) ?acc)
    with (RegExp.parseGo (after ++ "$") (RegExp.Atom RegExp.Dot RegExp.One :: acc)).
  rewrite (parseGo_literal after _ _ Ha).
  cbn [RegExp.parseGo option_map].
  set (rest := (RegExp.Atom RegExp.Dot RegExp.One
                :: RegExp.lit after ++ [RegExp.AssertEnd])%list).
  assert (Hnodes : rev (RegExp.AssertEnd
                        :: rev (RegExp.lit after)
                           ++ RegExp.Atom RegExp.Dot RegExp.One
                              :: rev (RegExp.lit before) ++ [RegExp.AssertStart])%list
                   = (RegExp.AssertStart :: RegExp.lit before ++ rest)%list).
  { cbn [rev]. rewrite !rev_app_distr. cbn [rev app]. rewrite !rev_app_distr, !rev_involutive.
    cbn [rev app]. subst rest. now rewrite <- !app_assoc. }
  rewrite Hnodes. eexists. split; [reflexivity|].
  rewrite (test_anchored
             {| RegExp.nodes := RegExp.AssertStart :: (RegExp.lit before ++ rest)%list;
                RegExp.ignoreCase := false |}
             (RegExp.lit before ++ rest)%list filePath eq_refl).
  cbn [RegExp.ignoreCase]. rewrite matchFrom_literal. subst rest. split.
  - intros (s' & -> & H). cbn [RegExp.matchFrom] in H.
    destruct s' as [|c s']; [discriminate H|].
    cbn [RegExp.classMatches] in H.
    destruct (Js.isLineTerminator c) eqn:Ec; [discriminate H|]. cbn [negb] in H.
    apply matchFrom_literal in H as (s'' & -> & H).
    cbn [RegExp.matchFrom] in H. destruct s''; [|discriminate H].
    exists c. now rewrite append_nil_r.
  - intros (c & -> & Hc). exists (String c after). split; [reflexivity|].
    cbn [RegExp.matchFrom RegExp.classMatches]. rewrite Hc. cbn [negb].
    apply matchFrom_literal. exists EmptyString. split; [now rewrite append_nil_r|].
    reflexivity.
Qed.

Lemma dot_in_pattern_allows_any_character_witness :
  exists allowed,
    PreHook.patternAllows demoHost "src/core/a-ts" ("src/core/a" ++ "." ++ "ts") = Ok allowed
    /\ (allowed = true
        <-> exists c, "src/core/a-ts" = "src/core/a" ++ String c "ts"
                      /\ Js.isLineTerminator c = false).
Proof.
  apply (dot_in_pattern_allows_any_character demoHost "src/core/a" "ts" "src/core/a-ts");
    reflexivity.
Defined.

(** ** More on the content hash, the ledger and the checks *)

Lemma allChars_app (p : ascii -> bool) (a b : string) :
  Js.allChars p (a ++ b) = Js.allChars p a && Js.allChars p b.
Proof.
  induction a as [|c a IH]; [now rewrite append_nil_l|].
  rewrite append_cons. cbn [Js.allChars]. now rewrite IH, andb_assoc.
Qed.

Lemma hexDigit_lower (x : N) : isLowerHex (Sha256.hexDigit (N.land x 0xf)) = true.
Proof.
  assert (H : (N.land x 0xf < 16)%N).
  { change 0xf%N with (N.ones 4). rewrite N.land_ones. now apply N.mod_lt. }
  destruct (N.land x 0xf) as [|p]; [reflexivity|].
  do 5 (try destruct p as [p|p|]); try reflexivity; lia.
Qed.

Lemma hexWord_lower (x : N) : Js.allChars isLowerHex (Sha256.hexWord x) = true.
Proof.
  unfold Sha256.hexWord. cbn [seq rev app fold_right Js.allChars].
  now rewrite !hexDigit_lower.
Qed.

(** X17. The content hash is always a text of 64 lowercase hexadecimal
    digits, whatever the content. *)
Theorem generateContentHash_is_lowercase_hex (content : string) :
  String.length (PreHook.generateContentHash content) = 64
  /\ Js.allChars isLowerHex (PreHook.generateContentHash content) = true.
Proof.
  split; [apply generateContentHash_length|].
  unfold PreHook.generateContentHash, Sha256.digest, Sha256.hex.
  cbn [fold_right]. now rewrite !allChars_app, !hexWord_lower.
Qed.

(** X18. An entry the post-hook writes reads back: when the append
    succeeds, that is when the directory of the trace file exists, and the
    trace file holds whole lines, its lines after the call are the old ones
    followed by the JSON text of the new entry, which records the path, the
    hash of the content and the intent id the hook was handed. The hook
    itself looks neither at the active intent nor at the other files, and
    changes neither. *)
Theorem postWriteFileHook_entry_reads_back (host : Host) (d : WriteFileSchema) (w : World)
    (old : list string) :
  directoryExists w orchestrationDir = true ->
  Forall (fun e => entryCount e = 0) old ->
  traceFile w = ledgerText old ->
  fst (PreHook.postWriteFileHook host d w) = Ok tt
  /\ entries (traceFile (snd (PreHook.postWriteFileHook host d w)))
     = (old ++ [JSON.stringify (PreHook.traceEntry (randomUUID host (tick w))
                                  (toISOString host (tick w)) d)])%list
  /\ activeIntentId (snd (PreHook.postWriteFileHook host d w)) = activeIntentId w
  /\ (forall path, path <> traceFilePath ->
        workspace (snd (PreHook.postWriteFileHook host d w)) !! path = workspace w !! path)
  /\ directories (snd (PreHook.postWriteFileHook host d w)) = directories w.
Proof.
  intros Hdir Hold Hfile.
  destruct (postWriteFileHook_cases host d w) as [[_ ->] | [H _]]; [|congruence].
  cbn [fst snd]. rewrite traceFile_insert. cbn [activeIntentId workspace directories].
  split; [reflexivity|]. split; [|split; [reflexivity|split; [|reflexivity]]].
  - rewrite Hfile. unfold PreHook.traceLine.
    set (e := JSON.stringify _).
    assert (E : ledgerText old ++ e ++ Js.lf = ledgerText (old ++ [e])).
    { rewrite ledgerText_app, ledgerText_cons. now rewrite append_nil_r. }
    rewrite E. apply entries_ledgerText.
    apply Forall_app. split; [exact Hold|].
    constructor; [apply stringify_no_lf | constructor].
  - intros path Hpath. now rewrite lookup_insert_ne.
Qed.

Lemma postWriteFileHook_entry_reads_back_witness :
  let d := {| filePath := "src/core/a.ts"; content := "one";
              intent_id := "INT-001"; mutation_class := AST_REFACTOR |} in
  entries (traceFile (snd (PreHook.postWriteFileHook demoHost d (initialWorld sampleFiles))))
  = [JSON.stringify (PreHook.traceEntry (randomUUID demoHost 0) (toISOString demoHost 0) d)].
Proof.
  intros d.
  apply (postWriteFileHook_entry_reads_back demoHost d (initialWorld sampleFiles) []).
  - vm_compute. reflexivity.
  - constructor.
  - reflexivity.
Defined.

Lemma authorizeCommand_unknown_witness :
  PreHook.authorizeCommand "frobnicate" = Done (Throw (UnknownCommand "frobnicate")).
Proof.
  apply (authorizeCommand_unknown "frobnicate");
    simpl; intros H; decompose [or] H; try discriminate; assumption.
Defined.

(** ** The lesson log *)

(** The file is in the working directory itself, so the append finds its
    directory. *)
Lemma recordLesson_world (host : Host) (lesson : string) (w : World) :
  recordLesson host lesson w
  = (Ok tt,
     {| activeIntentId := activeIntentId w;
        workspace := <[lessonFilePath :=
                         default EmptyString (workspace w !! lessonFilePath)
                         ++ lessonEntry (toISOString host (tick w)) lesson]> (workspace w);
        directories := directories w; tick := S (tick w) |}).
Proof. reflexivity. Qed.

Lemma recordLesson_step (host : Host) (lesson : string) (w : World) :
  default EmptyString (workspace (snd (recordLesson host lesson w)) !! lessonFilePath)
  = default EmptyString (workspace w !! lessonFilePath)
    ++ lessonEntry (toISOString host (tick w)) lesson.
Proof. rewrite recordLesson_world. cbn [snd workspace]. now rewrite lookup_insert_eq. Qed.

(** X21. [recordLesson] only ever adds to [CLAUDE.md]: after any number of
    calls the file holds what it held before (nothing, when it did not
    exist) followed by one entry per lesson, in the order of the calls,
    each with its heading and time stamp. No other file, nor the trace nor
    the active intent, is touched. *)
Theorem recordLesson_appends_in_order (host : Host) (lessons : list string) (w : World) :
  default EmptyString (workspace (recordLessons host lessons w) !! lessonFilePath)
  = default EmptyString (workspace w !! lessonFilePath)
    ++ lessonEntries host (tick w) lessons
  /\ (forall path, path <> lessonFilePath ->
        workspace (recordLessons host lessons w) !! path = workspace w !! path)
  /\ traceFile (recordLessons host lessons w) = traceFile w
  /\ activeIntentId (recordLessons host lessons w) = activeIntentId w
  /\ tick (recordLessons host lessons w) = tick w + length lessons.
Proof.
  revert w. induction lessons as [|lesson lessons IH]; intros w.
  - cbn. rewrite append_nil_r, Nat.add_0_r. repeat split.
  - unfold recordLessons in *. cbn [fold_left lessonEntries length].
    destruct (IH (snd (recordLesson host lesson w))) as (Hfile & Hother & Htrace & Hid & Htick).
    split; [|split; [|split; [|split]]].
    + rewrite Hfile, recordLesson_step. rewrite recordLesson_world. cbn [snd tick].
      now rewrite append_assoc.
    + intros path Hpath. rewrite (Hother path Hpath), recordLesson_world.
      cbn [snd workspace]. now rewrite lookup_insert_ne.
    + rewrite Htrace, recordLesson_world. unfold traceFile. cbn [snd workspace].
      now rewrite lookup_insert_ne by discriminate.
    + now rewrite Hid, recordLesson_world.
    + rewrite Htick, recordLesson_world. cbn [snd tick]. lia.
Qed.

(** ** The task's pending tool results *)

Lemma resultIds_cons (b : Task.ContentBlock) (blocks : list Task.ContentBlock) :
  Task.resultIds (b :: blocks)
  = match b with
    | Task.ToolResultBlock r => Task.tool_use_id r :: Task.resultIds blocks
    | _ => Task.resultIds blocks
    end.
Proof. now destruct b. Qed.

Lemma find_isResultFor (r : Task.ToolResultBlockParam) (blocks : list Task.ContentBlock) :
  (exists b, List.find (Task.isResultFor r) blocks = Some b)
  <-> In (Task.tool_use_id r) (Task.resultIds blocks).
Proof.
  induction blocks as [|b blocks IH].
  - split; [intros [b H]; discriminate | intros []].
  - rewrite resultIds_cons. cbn [List.find].
    destruct b as [t | d | r']; cbn [Task.isResultFor]; try exact IH.
    destruct (String.eqb (Task.tool_use_id r') (Task.tool_use_id r)) eqn:E.
    + apply String.eqb_eq in E. split; [intros _; now left | eauto].
    + apply String.eqb_neq in E. rewrite IH. cbn [In]. tauto.
Qed.

Lemma resultIds_push (r : Task.ToolResultBlockParam) (blocks : list Task.ContentBlock) :
  Task.resultIds (blocks ++ [Task.ToolResultBlock r])
  = (Task.resultIds blocks ++ [Task.tool_use_id r])%list.
Proof. unfold Task.resultIds. now rewrite omap_app. Qed.

Lemma pushToolResultToUserContent_cases (r : Task.ToolResultBlockParam)
    (blocks : list Task.ContentBlock) :
  (In (Task.tool_use_id r) (Task.resultIds blocks)
   /\ Task.pushToolResultToUserContent r blocks = (false, blocks))
  \/ (~ In (Task.tool_use_id r) (Task.resultIds blocks)
      /\ Task.pushToolResultToUserContent r blocks
         = (true, (blocks ++ [Task.ToolResultBlock r])%list)).
Proof.
  pose proof (find_isResultFor r blocks) as Hfind.
  unfold Task.pushToolResultToUserContent.
  destruct (List.find (Task.isResultFor r) blocks) as [b|]; [left | right].
  - split; [apply Hfind; eauto | reflexivity].
  - split; [|reflexivity]. intros Hin. apply Hfind in Hin as [b Hb]. discriminate.
Qed.

(** X22. [pushToolResultToUserContent] returns [true] exactly when no tool
    result with the same [tool_use_id] is pending; it then adds the block
    at the end and keeps every block that was there. When it returns
    [false] the content is left as it was. Either way a second push for the
    same id is refused: the result pushed first is the one that stays. *)
Theorem pushToolResultToUserContent_first_result_wins (toolResult : Task.ToolResultBlockParam)
    (userMessageContent : list Task.ContentBlock) :
  (fst (Task.pushToolResultToUserContent toolResult userMessageContent) = true
   <-> ~ In (Task.tool_use_id toolResult) (Task.resultIds userMessageContent))
  /\ snd (Task.pushToolResultToUserContent toolResult userMessageContent)
     = (if fst (Task.pushToolResultToUserContent toolResult userMessageContent)
        then userMessageContent ++ [Task.ToolResultBlock toolResult]
        else userMessageContent)%list
  /\ forall later,
       Task.tool_use_id later = Task.tool_use_id toolResult ->
       Task.pushToolResultToUserContent later
         (snd (Task.pushToolResultToUserContent toolResult userMessageContent))
       = (false, snd (Task.pushToolResultToUserContent toolResult userMessageContent)).
Proof.
  destruct (pushToolResultToUserContent_cases toolResult userMessageContent)
    as [[Hin ->] | [Hin ->]]; cbn [fst snd].
  - split; [|split; [reflexivity|]].
    + split; [discriminate | contradiction].
    + intros later Hid.
      destruct (pushToolResultToUserContent_cases later userMessageContent)
        as [[_ ->] | [Hl _]]; [reflexivity|].
      rewrite Hid in Hl. contradiction.
  - split; [|split; [reflexivity|]].
    + split; [now intros _ | reflexivity].
    + intros later Hid.
      destruct (pushToolResultToUserContent_cases later
                  (userMessageContent ++ [Task.ToolResultBlock toolResult])%list)
        as [[_ ->] | [Hl _]]; [reflexivity|].
      exfalso. apply Hl. rewrite resultIds_push, Hid. apply in_or_app. right. now left.
Qed.

Lemma pushToolResult_NoDup (r : Task.ToolResultBlockParam) (blocks : list Task.ContentBlock) :
  List.NoDup (Task.resultIds blocks) ->
  List.NoDup (Task.resultIds (snd (Task.pushToolResultToUserContent r blocks))).
Proof.
  intros Hnodup. unfold Task.pushToolResultToUserContent.
  destruct (List.find (Task.isResultFor r) blocks) as [b|] eqn:E; cbn [snd]; [exact Hnodup|].
  rewrite resultIds_push.
  apply List.NoDup_app; [exact Hnodup | constructor; [intros [] | constructor] |].
  intros x Hx [<- | []]. apply find_isResultFor in Hx as [b Hb]. congruence.
Qed.

(** X23. No two pending tool results carry the same [tool_use_id]: if the
    ids are distinct before, they are distinct after any sequence of pushes,
    and the blocks that were there stay where they were. *)
Theorem pushToolResultToUserContent_keeps_ids_distinct
    (toolResults : list Task.ToolResultBlockParam) (userMessageContent : list Task.ContentBlock) :
  List.NoDup (Task.resultIds userMessageContent) ->
  List.NoDup (Task.resultIds (Task.pushAll toolResults userMessageContent))
  /\ exists added, Task.pushAll toolResults userMessageContent
                   = (userMessageContent ++ added)%list.
Proof.
  revert userMessageContent.
  induction toolResults as [|r rs IH]; intros blocks Hnodup.
  - split; [exact Hnodup|]. exists []. now rewrite app_nil_r.
  - unfold Task.pushAll in *. cbn [fold_left].
    destruct (IH _ (pushToolResult_NoDup r blocks Hnodup)) as [Hn [added Hadded]].
    split; [exact Hn|]. rewrite Hadded.
    unfold Task.pushToolResultToUserContent.
    destruct (List.find (Task.isResultFor r) blocks); cbn [snd]; [now exists added|].
    exists (Task.ToolResultBlock r :: added). now rewrite <- app_assoc.
Qed.

Lemma pushToolResultToUserContent_keeps_ids_distinct_witness :
  let first := {| Task.tool_use_id := "toolu_01"; Task.resultContent := "done";
                  Task.is_error := false |} in
  let again := {| Task.tool_use_id := "toolu_01"; Task.resultContent := "failed";
                  Task.is_error := true |} in
  List.NoDup (Task.resultIds (Task.pushAll [first; again] [Task.TextBlock "hello"]))
  /\ exists added, Task.pushAll [first; again] [Task.TextBlock "hello"]
                   = ([Task.TextBlock "hello"] ++ added)%list.
Proof.
  intros first again.
  apply (pushToolResultToUserContent_keeps_ids_distinct [first; again]
           [Task.TextBlock "hello"]).
  constructor.
Defined.
